(** * TOTP core of 2fa-cli: base32 decoding, code generation, otpauth URLs

    A shallow embedding of [src/totp.ts] (base32Decode, hmacSha1,
    generateTOTP, getTimeRemaining, parseOtpAuthUrl) together with models
    of the platform functions it calls, and the properties of the
    specification proved or refuted on it.

    The second part embeds what is built on that core: the account file
    of [src/storage.ts], the commands of [src/cli.ts], and the key check,
    the code display, the selection and the progress bar of
    [src/index.tsx], with properties read off the code.

    Conventions of the embedding.

    - A JavaScript string is a Rocq [string] holding its text in UTF-8:
      ASCII text is one [ascii] per character.  Every character the
      program looks for (the base32 alphabet, [=], [:], digits, URL
      delimiters) is ASCII, and no byte of a longer UTF-8 sequence is.
    - A JavaScript number that holds an integer is a [Z]; the bitwise
      operators work on its ToInt32 image, written out with [toInt32].
      The few places where a quotient can be infinite or NaN use [number].
    - [Date.now()] is the parameter [now], in milliseconds.
    - A promise is its [outcome]: resolved with a value or rejected with
      the name of the error. *)

From Stdlib Require Import ZArith List String Ascii Bool Lia.
Import ListNotations.
Local Open Scope string_scope.
Local Open Scope list_scope.
Local Open Scope Z_scope.

(** ** JavaScript numbers and 32-bit operators *)

Module JS.

(** The values an integer computation of the program can take: a finite
    integer, an infinity or NaN (division by zero). *)
Inductive number : Type :=
| Num (z : Z)
| PosInf
| NegInf
| NaN.

(** ToInt32: reduction modulo 2^32 into [-2^31, 2^31). *)
Definition toInt32 (z : Z) : Z := (z + 2 ^ 31) mod 2 ^ 32 - 2 ^ 31.

(** ToInt32 of a [number]: infinities and NaN go to 0. *)
Definition numToInt32 (x : number) : Z :=
  match x with
  | Num z => toInt32 z
  | _ => 0
  end.

(** [a << n]: the count is taken modulo 32, the result wraps to 32 bits. *)
Definition shl (a n : Z) : Z := toInt32 (Z.shiftl (toInt32 a) (Z.land n 31)).

(** [a >> n]: sign-propagating shift of the 32-bit image. *)
Definition sar (a n : Z) : Z := Z.shiftr (toInt32 a) (Z.land n 31).

(** [a | b] and [a & b] on the 32-bit images. *)
Definition bor (a b : Z) : Z := Z.lor (toInt32 a) (toInt32 b).
Definition band (a b : Z) : Z := Z.land (toInt32 a) (toInt32 b).

(** [Math.floor(t / d)] for a positive power of two [d]: exact on finite
    integers, the identity on infinities and NaN. *)
Definition floorDiv (t : number) (d : Z) : number :=
  match t with
  | Num z => Num (z / d)
  | other => other
  end.

(** A promise that has settled. *)
Inductive outcome (A : Type) : Type :=
| Resolved (v : A)
| Rejected (name : string).
Arguments Resolved {A} v.
Arguments Rejected {A} name.

(** *** Strings *)

Definition code (c : ascii) : Z := Z.of_N (N_of_ascii c).
Definition chr (z : Z) : ascii := ascii_of_N (Z.to_N z).

Definition strlen (s : string) : Z := Z.of_nat (String.length s).

Definition ofBytes (bs : list Z) : string := string_of_list_ascii (map chr bs).

(** [String.prototype.toUpperCase].  ASCII letters go to their capitals.
    Seventeen other characters have an upper case that contains ASCII
    letters; they are mapped as Unicode maps them: U+00DF to SS, U+0131 to
    I, U+017F to S, U+0149 to U+02BC N, U+01F0 to J U+030C, U+1E96..U+1E9A
    to H, T, W, Y, A followed by a mark, and the ligatures U+FB00..U+FB06
    to FF, FI, FL, FFI, FFL, ST, ST.  Every other character is left as
    written: its upper case holds no ASCII character, and the program
    looks only for ASCII characters in the result. *)
Definition upperChar (c : ascii) : ascii :=
  if (97 <=? code c) && (code c <=? 122) then chr (code c - 32) else c.

Definition upper2 (c1 c2 : ascii) : option string :=
  if (code c1 =? 195) && (code c2 =? 159) then Some "SS"
  else if (code c1 =? 196) && (code c2 =? 177) then Some "I"
  else if (code c1 =? 197) && (code c2 =? 191) then Some "S"
  else if (code c1 =? 197) && (code c2 =? 137) then Some (ofBytes [202; 188; 78])
  else if (code c1 =? 199) && (code c2 =? 176) then Some (ofBytes [74; 204; 140])
  else None.

Definition upper3 (c1 c2 c3 : ascii) : option string :=
  if (code c1 =? 225) && (code c2 =? 186) then
    if code c3 =? 150 then Some (ofBytes [72; 204; 177])
    else if code c3 =? 151 then Some (ofBytes [84; 204; 136])
    else if code c3 =? 152 then Some (ofBytes [87; 204; 138])
    else if code c3 =? 153 then Some (ofBytes [89; 204; 138])
    else if code c3 =? 154 then Some (ofBytes [65; 202; 190])
    else None
  else if (code c1 =? 239) && (code c2 =? 172) then
    if code c3 =? 128 then Some "FF"
    else if code c3 =? 129 then Some "FI"
    else if code c3 =? 130 then Some "FL"
    else if code c3 =? 131 then Some "FFI"
    else if code c3 =? 132 then Some "FFL"
    else if (code c3 =? 133) || (code c3 =? 134) then Some "ST"
    else None
  else None.

Fixpoint toUpperCase (s : string) : string :=
  match s with
  | EmptyString => EmptyString
  | String c1 s1 =>
      match s1 with
      | String c2 s2 =>
          match upper2 c1 c2 with
          | Some u => (u ++ toUpperCase s2)%string
          | None =>
              match s2 with
              | String c3 s3 =>
                  match upper3 c1 c2 c3 with
                  | Some u => (u ++ toUpperCase s3)%string
                  | None => String (upperChar c1) (toUpperCase s1)
                  end
              | EmptyString => String (upperChar c1) (toUpperCase s1)
              end
          end
      | EmptyString => String (upperChar c1) EmptyString
      end
  end.

(** [s.indexOf(c)] for a one-character [c]: first position or -1. *)
Fixpoint indexOfFrom (c : ascii) (s : string) (i : Z) : Z :=
  match s with
  | EmptyString => -1
  | String d r => if Ascii.eqb c d then i else indexOfFrom c r (i + 1)
  end.

Definition indexOf (s : string) (c : ascii) : Z := indexOfFrom c s 0.

(** [s.replace(/=+$/, empty)]: the run of [=] that ends the string goes. *)
Fixpoint stripTrailingEq (s : string) : string :=
  match s with
  | EmptyString => EmptyString
  | String c r =>
      match stripTrailingEq r with
      | EmptyString => if Ascii.eqb c "=" then EmptyString else String c EmptyString
      | r' => String c r'
      end
  end.

(** The regular expression class [\s], over UTF-8: the six ASCII blanks,
    U+00A0, and the three-byte forms of U+1680, U+2000..U+200A, U+2028,
    U+2029, U+202F, U+205F, U+3000 and U+FEFF. *)
Definition isWs1 (c : ascii) : bool :=
  ((9 <=? code c) && (code c <=? 13)) || (code c =? 32).

Definition isWs2 (c1 c2 : ascii) : bool :=
  (code c1 =? 194) && (code c2 =? 160).

Definition isWs3 (c1 c2 c3 : ascii) : bool :=
  ((code c1 =? 225) && (code c2 =? 154) && (code c3 =? 128))
  || ((code c1 =? 226) && (code c2 =? 128)
      && (((128 <=? code c3) && (code c3 <=? 138))
          || (code c3 =? 168) || (code c3 =? 169) || (code c3 =? 175)))
  || ((code c1 =? 226) && (code c2 =? 129) && (code c3 =? 159))
  || ((code c1 =? 227) && (code c2 =? 128) && (code c3 =? 128))
  || ((code c1 =? 239) && (code c2 =? 187) && (code c3 =? 191)).

(** [s.replace(/\s/g, empty)]: every white-space character goes. *)
Fixpoint removeWs (s : string) : string :=
  match s with
  | EmptyString => EmptyString
  | String c1 s1 =>
      if isWs1 c1 then removeWs s1
      else
        match s1 with
        | String c2 s2 =>
            if isWs2 c1 c2 then removeWs s2
            else
              match s2 with
              | String c3 s3 =>
                  if isWs3 c1 c2 c3 then removeWs s3
                  else String c1 (removeWs s1)
              | EmptyString => String c1 (removeWs s1)
              end
        | EmptyString => String c1 (removeWs s1)
        end
  end.

(** [n.toString()] for an integer below 2^53 in magnitude: decimal digits,
    most significant first, with a minus sign for negatives. *)
Fixpoint digitsOf (fuel : nat) (n : Z) (acc : string) : string :=
  match fuel with
  | O => acc
  | S f =>
      let acc' := String (chr (48 + n mod 10)) acc in
      if n / 10 =? 0 then acc' else digitsOf f (n / 10) acc'
  end.

Definition toString (n : Z) : string :=
  if n <? 0
  then String "-" (digitsOf (S (Z.to_nat (Z.log2 (- n)))) (- n) EmptyString)
  else digitsOf (S (Z.to_nat (Z.log2 n))) n EmptyString.

(** The first [k] characters of [fill] repeated; [cur] is what is left of
    the copy being written. *)
Fixpoint fillTo (k : nat) (fill cur : string) : string :=
  match k with
  | O => EmptyString
  | S k' =>
      match cur with
      | String c r => String c (fillTo k' fill r)
      | EmptyString =>
          match fill with
          | String c r => String c (fillTo k' fill r)
          | EmptyString => EmptyString
          end
      end
  end.

(** A length far inside the string limit of every engine (2^31 - 1 in
    JavaScriptCore, 2^29 - 24 in V8): a string of that length is built. *)
Definition safeLength : Z := 2 ^ 20.

(** [s.padStart(target, fill)], for a target inside the engine's string
    limit.  Past that limit the engine throws a RangeError instead of
    building the string; the limit is the engine's own and is not
    modelled: for such a target the definition gives the string that
    would be built. *)
Definition padStart (s : string) (target : Z) (fill : string) : string :=
  if target <=? strlen s then s
  else (fillTo (Z.to_nat (target - strlen s)) fill fill ++ s)%string.

End JS.

(** ** base32Decode *)

Module Base32.
Import JS.

Definition alphabet : string := "ABCDEFGHIJKLMNOPQRSTUVWXYZ234567".

(** The three variables of the loop. *)
Record state : Type := mkState {
  output : list Z;
  bits : Z;
  value : Z
}.

Definition init : state := mkState [] 0 0.

(** One iteration of [for (const char of cleanedInput)]. *)
Definition step (st : state) (char : ascii) : state :=
  let idx := indexOf alphabet char in
  if idx =? -1 then st
  else
    let value' := bor (shl (value st) 5) idx in
    let bits' := bits st + 5 in
    if 8 <=? bits'
    then mkState (output st ++ [band (sar value' (bits' - 8)) 255])
                 (bits' - 8) value'
    else mkState (output st) bits' value'.

Definition cleanInput (encoded : string) : string :=
  removeWs (stripTrailingEq (toUpperCase encoded)).

Definition base32Decode (encoded : string) : list Z :=
  output (fold_left step (list_ascii_of_string (cleanInput encoded)) init).

End Base32.

(** ** The platform's HMAC-SHA-1 ([crypto.subtle])

    [crypto.subtle.importKey] and [crypto.subtle.sign] are not code of the
    program; they are modelled by the algorithms they are specified to
    run: SHA-1 (FIPS 180-4), HMAC (RFC 2104), and the Web Cryptography
    rule that importing a raw HMAC key of length zero fails with a
    DataError. *)

Module WebCrypto.
Import JS.

Definition w32 (x : Z) : Z := x mod 2 ^ 32.

Definition rotl (n x : Z) : Z :=
  w32 (Z.lor (Z.shiftl x n) (Z.shiftr x (32 - n))).

(** Big-endian bytes of a word, [n] of them. *)
Fixpoint beBytes (n : nat) (x : Z) (acc : list Z) : list Z :=
  match n with
  | O => acc
  | S n' => beBytes n' (x / 256) (x mod 256 :: acc)
  end.

Definition beWord (bs : list Z) : Z :=
  fold_left (fun acc b => acc * 256 + b) bs 0.

(** Message padding: a 1 bit, zeros up to 56 modulo 64, the bit length on
    eight bytes. *)
Definition pad (msg : list Z) : list Z :=
  let len := Z.of_nat (List.length msg) in
  let zeros := Z.to_nat ((55 - len) mod 64) in
  msg ++ [128] ++ repeat 0 zeros ++ beBytes 8 (8 * len) [].

(** Cut a list into pieces of [n] elements; [fuel] bounds their number. *)
Fixpoint chunks {A : Type} (fuel n : nat) (l : list A) : list (list A) :=
  match fuel with
  | O => []
  | S f =>
      match l with
      | [] => []
      | _ => firstn n l :: chunks f n (skipn n l)
      end
  end.

(** The message schedule, latest word first: [rev] holds W(t-1) .. W(0). *)
Fixpoint extend (n : nat) (rev : list Z) : list Z :=
  match n with
  | O => rev
  | S n' =>
      let w := rotl 1 (Z.lxor (Z.lxor (nth 2 rev 0) (nth 7 rev 0))
                              (Z.lxor (nth 13 rev 0) (nth 15 rev 0))) in
      extend n' (w :: rev)
  end.

Definition schedule (block : list Z) : list Z :=
  let w16 := map beWord (chunks 16 4 block) in
  List.rev (extend 64 (List.rev w16)).

Definition f (t b c d : Z) : Z :=
  if t <? 20 then Z.lor (Z.land b c) (Z.land (Z.lxor b (2 ^ 32 - 1)) d)
  else if t <? 40 then Z.lxor (Z.lxor b c) d
  else if t <? 60 then Z.lor (Z.lor (Z.land b c) (Z.land b d)) (Z.land c d)
  else Z.lxor (Z.lxor b c) d.

Definition K (t : Z) : Z :=
  if t <? 20 then 1518500249
  else if t <? 40 then 1859775393
  else if t <? 60 then 2400959708
  else 3395469782.

Record regs : Type := mkRegs { ra : Z; rb : Z; rc : Z; rd : Z; re : Z }.

Definition round (st : regs * Z) (w : Z) : regs * Z :=
  let '(r, t) := st in
  let temp := w32 (rotl 5 (ra r) + f t (rb r) (rc r) (rd r) + re r + K t + w) in
  (mkRegs temp (ra r) (rotl 30 (rb r)) (rc r) (rd r), t + 1).

Definition compress (h : regs) (block : list Z) : regs :=
  let r := fst (fold_left round (schedule block) (h, 0)) in
  mkRegs (w32 (ra h + ra r)) (w32 (rb h + rb r)) (w32 (rc h + rc r))
         (w32 (rd h + rd r)) (w32 (re h + re r)).

Definition iv : regs :=
  mkRegs 1732584193 4023233417 2562383102 271733878 3285377520.

Definition sha1 (msg : list Z) : list Z :=
  let padded := pad msg in
  let h := fold_left compress (chunks (List.length padded) 64 padded) iv in
  beBytes 4 (ra h) [] ++ beBytes 4 (rb h) [] ++ beBytes 4 (rc h) []
  ++ beBytes 4 (rd h) [] ++ beBytes 4 (re h) [].

(** HMAC with block size 64. *)
Definition hmac (key message : list Z) : list Z :=
  let k := if 64 <? Z.of_nat (List.length key) then sha1 key else key in
  let k64 := k ++ repeat 0 (64 - List.length k)%nat in
  let inner := sha1 (map (Z.lxor 54) k64 ++ message) in
  sha1 (map (Z.lxor 92) k64 ++ inner).

(** [crypto.subtle.importKey("raw", key, {name: "HMAC", hash: "SHA-1"},
    false, ["sign"])]: the key bytes, or a DataError for an empty key. *)
Definition importKey (key : list Z) : outcome (list Z) :=
  match key with
  | [] => Rejected "DataError"
  | _ => Resolved key
  end.

(** [crypto.subtle.sign("HMAC", cryptoKey, message)]. *)
Definition sign (cryptoKey message : list Z) : outcome (list Z) :=
  Resolved (hmac cryptoKey message).

End WebCrypto.

(** ** generateTOTP and getTimeRemaining

    [digits] ranges over the natural numbers and [period] over the
    integers: the values for which the arithmetic of the two functions
    stays on integers (a negative [digits] makes [Math.pow(10, digits)] a
    fraction, a fractional [period] makes the countdown one). *)

Module Totp.
Import JS Base32.

(** [await] in an async function: a rejection leaves the function. *)
Definition await {A B : Type} (p : outcome A) (k : A -> outcome B) : outcome B :=
  match p with
  | Resolved v => k v
  | Rejected e => Rejected e
  end.

Notation "'let*' x ':=' p 'in' k" := (await p (fun x => k))
  (at level 10, x name, p at level 100, k at level 200).

Definition hmacSha1 (key message : list Z) : outcome (list Z) :=
  let* cryptoKey := WebCrypto.importKey key in
  let* signature := WebCrypto.sign cryptoKey message in
  Resolved signature.

(** [Math.floor(Date.now() / 1000 / period)]: the floor of the exact
    quotient, which the double-precision quotient has as its floor too for
    every clock value below 2^51 ms; a zero period divides by zero. *)
Definition timeStep (now period : Z) : number :=
  if period =? 0
  then (if now =? 0 then NaN else if 0 <? now then PosInf else NegInf)
  else Num (now / (1000 * period)).

(** The loop [for (let i = 7; i >= 0; i--)]: the byte written at index
    [i] is consed in front of those written at [i+1 ..]. *)
Fixpoint fillTimeBuffer (n : nat) (t : number) (written : list Z) : list Z :=
  match n with
  | O => written
  | S n' =>
      fillTimeBuffer n' (floorDiv t 256) (Z.land (numToInt32 t) 255 :: written)
  end.

Definition timeBuffer (time : number) : list Z := fillTimeBuffer 8 time [].

(** [hmac[i]] under a bitwise operator: a byte, or [undefined], which the
    operator reads as 0, outside the array. *)
Definition at_ (hmac : list Z) (i : Z) : Z :=
  if i <? 0 then 0 else nth (Z.to_nat i) hmac 0.

Definition offsetOf (hmac : list Z) : Z :=
  band (at_ hmac (Z.of_nat (List.length hmac) - 1)) 15.

(** The value the four bytes at the offset combine to, before [%]. *)
Definition binCode (hmac : list Z) : Z :=
  let offset := offsetOf hmac in
  bor (bor (bor (shl (band (at_ hmac offset) 127) 24)
                (shl (band (at_ hmac (offset + 1)) 255) 16))
           (shl (band (at_ hmac (offset + 2)) 255) 8))
      (band (at_ hmac (offset + 3)) 255).

(** [binCode % Math.pow(10, digits)]: [%] keeps the sign of the dividend. *)
Definition truncate (hmac : list Z) (digits : nat) : Z :=
  Z.rem (binCode hmac) (10 ^ Z.of_nat digits).

Definition generateTOTP (secret : string) (digits : nat) (period now : Z)
  : outcome string :=
  let key := base32Decode secret in
  let time := timeStep now period in
  let* hmac := hmacSha1 key (timeBuffer time) in
  let code := truncate hmac digits in
  Resolved (padStart (toString code) (Z.of_nat digits) "0").

(** [period - (Math.floor(Date.now() / 1000) % period)]; [x % 0] is NaN. *)
Definition getTimeRemaining (period now : Z) : number :=
  if period =? 0 then NaN
  else Num (period - Z.rem (now / 1000) period).

End Totp.

(** ** The platform's URL, URLSearchParams, decodeURIComponent, parseInt

    These belong to the runtime, not to the program.  They follow the
    standards the runtime implements: the WHATWG URL parser for a URL
    without a base, its [application/x-www-form-urlencoded] parser behind
    [searchParams], and ECMAScript's [decodeURIComponent] and [parseInt].

    Scope of the URL model.  Components are parsed by the rules for
    non-special schemes, the ones that apply to [otpauth].  For the special
    schemes (http, https, ws, wss, ftp, file) only [protocol] is meaningful
    here; the program reads nothing else of such a URL.  A bracketed host
    is kept as written once its brackets match: the IPv6 address parser,
    which may still reject it or print it in canonical form, is not
    modelled; such a host never equals [totp].  The userinfo, the fragment
    and the opaque path of a URL without slashes are parsed over and not
    kept. *)

Module Url.
Import JS.

(** The result of an expression that may throw. *)
Inductive completion (A : Type) : Type :=
| Normal (v : A)
| Throw (name : string).
Arguments Normal {A} v.
Arguments Throw {A} name.

Definition bind {A B : Type} (c : completion A) (k : A -> completion B)
  : completion B :=
  match c with
  | Normal v => k v
  | Throw e => Throw e
  end.

Definition isAlpha (c : ascii) : bool :=
  ((65 <=? code c) && (code c <=? 90)) || ((97 <=? code c) && (code c <=? 122)).

Definition isDigit (c : ascii) : bool := (48 <=? code c) && (code c <=? 57).

Definition lowerChar (c : ascii) : ascii :=
  if (65 <=? code c) && (code c <=? 90) then chr (code c + 32) else c.

Definition hexVal (c : ascii) : option Z :=
  if isDigit c then Some (code c - 48)
  else if (65 <=? code c) && (code c <=? 70) then Some (code c - 55)
  else if (97 <=? code c) && (code c <=? 102) then Some (code c - 87)
  else None.

Definition hexDigit (n : Z) : ascii :=
  if n <? 10 then chr (48 + n) else chr (55 + n).

Fixpoint mapStr (g : ascii -> ascii) (s : string) : string :=
  match s with
  | EmptyString => EmptyString
  | String c r => String (g c) (mapStr g r)
  end.

Fixpoint filterStr (keep : ascii -> bool) (s : string) : string :=
  match s with
  | EmptyString => EmptyString
  | String c r => if keep c then String c (filterStr keep r) else filterStr keep r
  end.

Fixpoint existsStr (p : ascii -> bool) (s : string) : bool :=
  match s with
  | EmptyString => false
  | String c r => p c || existsStr p r
  end.

Fixpoint dropWhile (p : ascii -> bool) (s : string) : string :=
  match s with
  | EmptyString => EmptyString
  | String c r => if p c then dropWhile p r else s
  end.

Fixpoint dropWhileEnd (p : ascii -> bool) (s : string) : string :=
  match s with
  | EmptyString => EmptyString
  | String c r =>
      match dropWhileEnd p r with
      | EmptyString => if p c then EmptyString else String c EmptyString
      | r' => String c r'
      end
  end.

(** The text before the first character that satisfies [stop], and the
    rest, which starts with that character or is empty. *)
Fixpoint span (stop : ascii -> bool) (s : string) : string * string :=
  match s with
  | EmptyString => (EmptyString, EmptyString)
  | String c r =>
      if stop c then (EmptyString, s)
      else let '(a, b) := span stop r in (String c a, b)
  end.

(** [s.split(sep)] for a one-character separator. *)
Fixpoint split (sep : ascii) (s : string) : list string :=
  match s with
  | EmptyString => [EmptyString]
  | String c r =>
      if Ascii.eqb c sep then EmptyString :: split sep r
      else
        match split sep r with
        | piece :: more => String c piece :: more
        | [] => [String c EmptyString]
        end
  end.

(** [parts.join(sep)]. *)
Fixpoint join (sep : string) (parts : list string) : string :=
  match parts with
  | [] => EmptyString
  | [p] => p
  | p :: more => (p ++ sep ++ join sep more)%string
  end.

(** *** Percent-encoding *)

Definition percentEncodeByte (c : ascii) : string :=
  String "%" (String (hexDigit (code c / 16))
             (String (hexDigit (code c mod 16)) EmptyString)).

Fixpoint percentEncode (inSet : ascii -> bool) (s : string) : string :=
  match s with
  | EmptyString => EmptyString
  | String c r =>
      if inSet c then (percentEncodeByte c ++ percentEncode inSet r)%string
      else String c (percentEncode inSet r)
  end.

Definition inC0ControlSet (c : ascii) : bool :=
  (code c <=? 31) || (126 <? code c).

(** C0 controls, non-ASCII, space, the double quote, [#], [<], [>]. *)
Definition inQuerySet (c : ascii) : bool :=
  inC0ControlSet c || (code c =? 32) || (code c =? 34) || (code c =? 35)
  || (code c =? 60) || (code c =? 62).

(** The query set and [?], [^], [`], [{], [}]. *)
Definition inPathSet (c : ascii) : bool :=
  inQuerySet c || (code c =? 63) || (code c =? 94) || (code c =? 96)
  || (code c =? 123) || (code c =? 125).

(** The percent-decoding of the form-urlencoded parser: an escape that is
    not two hexadecimal digits is kept as text. *)
Fixpoint percentDecode (s : string) : string :=
  match s with
  | EmptyString => EmptyString
  | String c r =>
      if Ascii.eqb c "%" then
        match r with
        | String h1 (String h2 r2) =>
            match hexVal h1, hexVal h2 with
            | Some a, Some b => String (chr (16 * a + b)) (percentDecode r2)
            | _, _ => String c (percentDecode r)
            end
        | _ => String c (percentDecode r)
        end
      else String c (percentDecode r)
  end.

(** *** The URL record and its getters *)

Inductive urlPath : Type :=
| OpaquePath
| ListPath (segments : list string).

Record URL : Type := mkURL {
  scheme : string;
  urlHost : option string;
  port : option Z;
  path : urlPath;
  query : option string
}.

Definition protocol (u : URL) : string := (scheme u ++ ":")%string.

Definition host (u : URL) : string :=
  match urlHost u with
  | None => EmptyString
  | Some h =>
      match port u with
      | None => h
      | Some p => (h ++ ":" ++ toString p)%string
      end
  end.

(** The pathname of a URL whose path is a list of segments; the opaque
    path of a URL without slashes is not kept. *)
Definition pathname (u : URL) : string :=
  match path u with
  | OpaquePath => EmptyString
  | ListPath segs => concat EmptyString (map (fun seg => String "/" seg) segs)
  end.

(** *** The parser *)

Definition isC0OrSpace (c : ascii) : bool := code c <=? 32.

Definition isTabOrNewline (c : ascii) : bool :=
  (code c =? 9) || (code c =? 10) || (code c =? 13).

Definition isSchemeChar (c : ascii) : bool :=
  isAlpha c || isDigit c || (code c =? 43) || (code c =? 45) || (code c =? 46).

(** Scheme start state and scheme state: the lowercased scheme and the
    text after its colon; without a base URL anything else is a failure. *)
Definition parseScheme (s : string) : option (string * string) :=
  match s with
  | String c _ =>
      if isAlpha c then
        match span (fun x => negb (isSchemeChar x)) s with
        | (pre, String d rest) =>
            if code d =? 58 then Some (mapStr lowerChar pre, rest) else None
        | (_, EmptyString) => None
        end
      else None
  | EmptyString => None
  end.

Definition isAuthorityEnd (c : ascii) : bool :=
  (code c =? 47) || (code c =? 63) || (code c =? 35).

Definition isPathEnd (c : ascii) : bool := (code c =? 63) || (code c =? 35).

(** The text after the last [@], and whether there is one. *)
Fixpoint afterLastAt (s : string) : string * bool :=
  match s with
  | EmptyString => (EmptyString, false)
  | String c r =>
      let '(tail, seen) := afterLastAt r in
      if seen then (tail, true)
      else if code c =? 64 then (r, true)
      else (s, false)
  end.

(** Host state: the buffer up to the first colon outside brackets, and
    the text after that colon if there is one. *)
Fixpoint splitHostPort (s : string) (insideBrackets : bool)
  : string * option string :=
  match s with
  | EmptyString => (EmptyString, None)
  | String c r =>
      if (code c =? 58) && negb insideBrackets then (EmptyString, Some r)
      else
        let inside :=
          if code c =? 91 then true
          else if code c =? 93 then false
          else insideBrackets in
        let '(h, p) := splitHostPort r inside in (String c h, p)
  end.

Definition isForbiddenHost (c : ascii) : bool :=
  (code c =? 0) || (code c =? 9) || (code c =? 10) || (code c =? 13)
  || (code c =? 32) || (code c =? 35) || (code c =? 47) || (code c =? 58)
  || (code c =? 60) || (code c =? 62) || (code c =? 63) || (code c =? 64)
  || (code c =? 91) || (code c =? 92) || (code c =? 93) || (code c =? 94)
  || (code c =? 124).

Fixpoint lastChar (s : string) : option ascii :=
  match s with
  | EmptyString => None
  | String c EmptyString => Some c
  | String _ r => lastChar r
  end.

(** Host parsing of a non-special URL. *)
Definition parseHost (input : string) : option string :=
  match input with
  | String c _ =>
      if code c =? 91 then
        match lastChar input with
        | Some d => if code d =? 93 then Some input else None
        | None => None
        end
      else if existsStr isForbiddenHost input then None
      else Some (percentEncode inC0ControlSet input)
  | EmptyString => Some EmptyString
  end.

Definition decimalValue (s : string) : Z :=
  fold_left (fun acc c => acc * 10 + (code c - 48)) (list_ascii_of_string s) 0.

(** Port state: [None] on failure, else the port or null. *)
Definition parsePort (buffer : string) : option (option Z) :=
  if existsStr (fun c => negb (isDigit c)) buffer then None
  else
    match buffer with
    | EmptyString => Some None
    | _ => if 65535 <? decimalValue buffer then None
           else Some (Some (decimalValue buffer))
    end.

Definition isSingleDot (seg : string) : bool :=
  let l := mapStr lowerChar seg in
  String.eqb l "." || String.eqb l "%2e".

Definition isDoubleDot (seg : string) : bool :=
  let l := mapStr lowerChar seg in
  String.eqb l ".." || String.eqb l ".%2e" || String.eqb l "%2e."
  || String.eqb l "%2e%2e".

(** Path state, one segment at a time; [more] holds the segments that
    follow a slash. *)
Fixpoint pathState (acc : list string) (raw : string) (more : list string)
  : list string :=
  let buffer := percentEncode inPathSet raw in
  match more with
  | [] =>
      if isDoubleDot buffer then removelast acc ++ [EmptyString]
      else if isSingleDot buffer then acc ++ [EmptyString]
      else acc ++ [buffer]
  | next :: more' =>
      if isDoubleDot buffer then pathState (removelast acc) next more'
      else if isSingleDot buffer then pathState acc next more'
      else pathState (acc ++ [buffer]) next more'
  end.

Definition parsePath (text : string) : list string :=
  match split "/" text with
  | raw :: more => pathState [] raw more
  | [] => []
  end.

(** Query state: the text between [?] and [#]. *)
Definition parseQuery (rest : string) : option string :=
  match rest with
  | String c r =>
      if code c =? 63
      then Some (percentEncode inQuerySet (fst (span (fun x => code x =? 35) r)))
      else None
  | EmptyString => None
  end.

(** Path start state and what follows, for the text [rest] that begins
    with [/], [?], [#] or is empty. *)
Definition parsePathAndQuery (rest : string) : urlPath * option string :=
  match rest with
  | String c r =>
      if code c =? 47 then
        let '(text, rest') := span isPathEnd r in
        (ListPath (parsePath text), parseQuery rest')
      else (ListPath [], parseQuery rest)
  | EmptyString => (ListPath [], None)
  end.

(** Authority state, host state and port state. *)
Definition parseAuthority (sch text : string) : option URL :=
  let '(authority, rest) := span isAuthorityEnd text in
  let '(hostport, atSignSeen) := afterLastAt authority in
  if atSignSeen && String.eqb hostport EmptyString then None
  else
    let '(buffer, portText) := splitHostPort hostport false in
    let '(p, q) := parsePathAndQuery rest in
    match portText with
    | Some digits =>
        if String.eqb buffer EmptyString then None
        else
          match parseHost buffer, parsePort digits with
          | Some h, Some prt => Some (mkURL sch (Some h) prt p q)
          | _, _ => None
          end
    | None =>
        match parseHost buffer with
        | Some h => Some (mkURL sch (Some h) None p q)
        | None => None
        end
    end.

(** [new URL(url)]: a TypeError when parsing fails. *)
Definition newURL (url : string) : completion URL :=
  let input :=
    filterStr (fun c => negb (isTabOrNewline c))
              (dropWhileEnd isC0OrSpace (dropWhile isC0OrSpace url)) in
  match parseScheme input with
  | None => Throw "TypeError"
  | Some (sch, rest) =>
      match rest with
      | String c1 r1 =>
          if code c1 =? 47 then
            match r1 with
            | String c2 r2 =>
                if code c2 =? 47 then
                  match parseAuthority sch r2 with
                  | Some u => Normal u
                  | None => Throw "TypeError"
                  end
                else
                  let '(p, q) := parsePathAndQuery rest in
                  Normal (mkURL sch None None p q)
            | EmptyString =>
                let '(p, q) := parsePathAndQuery rest in
                Normal (mkURL sch None None p q)
            end
          else
            Normal (mkURL sch None None OpaquePath
                          (parseQuery (snd (span isPathEnd rest))))
      | EmptyString => Normal (mkURL sch None None OpaquePath None)
      end
  end.

(** *** URLSearchParams *)

Definition plusToSpace (c : ascii) : ascii :=
  if code c =? 43 then chr 32 else c.

(** For a lead byte: how many continuation bytes follow and the range of
    the first of them in well-formed UTF-8. *)
Definition leadByte (b : Z) : option (nat * Z * Z) :=
  if (194 <=? b) && (b <=? 223) then Some (1%nat, 128, 191)
  else if b =? 224 then Some (2%nat, 160, 191)
  else if ((225 <=? b) && (b <=? 236)) || (b =? 238) || (b =? 239)
  then Some (2%nat, 128, 191)
  else if b =? 237 then Some (2%nat, 128, 159)
  else if b =? 240 then Some (3%nat, 144, 191)
  else if (241 <=? b) && (b <=? 243) then Some (3%nat, 128, 191)
  else if b =? 244 then Some (3%nat, 128, 143)
  else None.

(** U+FFFD, which stands for an ill-formed sequence. *)
Definition replacement : string := ofBytes [239; 191; 189].

(** A byte where a character starts: a character of its own (U+FFFD for
    a byte that starts nothing), or the lead of a longer sequence. *)
Inductive start : Type :=
| Emit (out : string)
| Lead (need : nat) (lo hi : Z).

Definition startByte (c : ascii) : start :=
  if code c <=? 127 then Emit (String c EmptyString)
  else
    match leadByte (code c) with
    | Some (n, lo, hi) => Lead n lo hi
    | None => Emit replacement
    end.

(** UTF-8 decode without BOM: well-formed sequences are kept; a sequence
    that breaks off becomes one U+FFFD and the byte that broke it starts
    afresh.  [pending] holds the bytes of the sequence under way. *)
Fixpoint utf8From (s : string) (need : nat) (lo hi : Z) (pending : string)
  : string :=
  match s with
  | EmptyString =>
      match need with
      | O => EmptyString
      | S _ => replacement
      end
  | String c r =>
      let afresh :=
        match startByte c with
        | Emit out => (out ++ utf8From r O 0 0 EmptyString)%string
        | Lead n lo' hi' => utf8From r n lo' hi' (String c EmptyString)
        end in
      match need with
      | O => afresh
      | S need' =>
          if (lo <=? code c) && (code c <=? hi) then
            match need' with
            | O => (pending ++ String c (utf8From r O 0 0 EmptyString))%string
            | S _ =>
                utf8From r need' 128 191 (pending ++ String c EmptyString)%string
            end
          else (replacement ++ afresh)%string
      end
  end.

Definition utf8Decode (s : string) : string := utf8From s O 0 0 EmptyString.

(** One [name=value] sequence of the form-urlencoded parser. *)
Definition parsePair (bytes : string) : string * string :=
  let '(name, rest) := span (fun c => code c =? 61) bytes in
  let value := match rest with String _ v => v | EmptyString => EmptyString end in
  (utf8Decode (percentDecode (mapStr plusToSpace name)),
   utf8Decode (percentDecode (mapStr plusToSpace value))).

Definition searchParams (u : URL) : list (string * string) :=
  match query u with
  | None => []
  | Some q =>
      map parsePair
          (filter (fun b => negb (String.eqb b EmptyString)) (split "&" q))
  end.

(** [params.get(name)]: the first value under [name], or null. *)
Fixpoint get (params : list (string * string)) (name : string) : option string :=
  match params with
  | [] => None
  | (n, v) :: more => if String.eqb n name then Some v else get more name
  end.

(** *** decodeURIComponent *)

(** [need] continuation escapes are still due, the next one in [lo..hi].
    An escape below 128 is its character; a longer one must spell a
    well-formed UTF-8 sequence, which is kept; anything else throws. *)
Fixpoint decodeFrom (s : string) (need : nat) (lo hi : Z) : completion string :=
  match s with
  | EmptyString =>
      match need with
      | O => Normal EmptyString
      | S _ => Throw "URIError"
      end
  | String c r =>
      if code c =? 37 then
        match r with
        | String h1 (String h2 r2) =>
            match hexVal h1, hexVal h2 with
            | Some a, Some b =>
                let B := 16 * a + b in
                match need with
                | O =>
                    if B <? 128
                    then bind (decodeFrom r2 O 0 0)
                              (fun t => Normal (String (chr B) t))
                    else
                      match leadByte B with
                      | Some (n, lo', hi') =>
                          bind (decodeFrom r2 n lo' hi')
                               (fun t => Normal (String (chr B) t))
                      | None => Throw "URIError"
                      end
                | S need' =>
                    if (lo <=? B) && (B <=? hi)
                    then bind (decodeFrom r2 need' 128 191)
                              (fun t => Normal (String (chr B) t))
                    else Throw "URIError"
                end
            | _, _ => Throw "URIError"
            end
        | _ => Throw "URIError"
        end
      else
        match need with
        | O => bind (decodeFrom r O 0 0) (fun t => Normal (String c t))
        | S _ => Throw "URIError"
        end
  end.

Definition decodeURIComponent (s : string) : completion string :=
  decodeFrom s O 0 0.

(** *** parseInt *)

(** Leading white space and line terminators go. *)
Fixpoint trimStart (s : string) : string :=
  match s with
  | EmptyString => EmptyString
  | String c1 s1 =>
      if isWs1 c1 then trimStart s1
      else
        match s1 with
        | String c2 s2 =>
            if isWs2 c1 c2 then trimStart s2
            else
              match s2 with
              | String c3 s3 => if isWs3 c1 c2 c3 then trimStart s3 else s
              | EmptyString => s
              end
        | EmptyString => s
        end
  end.

(** The Number of a natural number [m], as the engines compute it for
    decimal text: [m] itself up to 2^53, where every integer is a double;
    above, [m] rounded to 53 significant bits, a tie going to the even
    significand, and Infinity once the rounding reaches 2^1024.  (The
    standard lets an implementation replace the digits after the twentieth
    by zeros before it rounds; the engines round the number as written.) *)
Definition nearestDouble (m : Z) : number :=
  if m <=? 2 ^ 53 then Num m
  else
    let e := Z.log2 m - 52 in
    let q := m / 2 ^ e in
    let r := m mod 2 ^ e in
    let half := 2 ^ (e - 1) in
    let q' := if (half <? r) || ((r =? half) && Z.odd q) then q + 1 else q in
    if 2 ^ 1024 <=? q' * 2 ^ e then PosInf else Num (q' * 2 ^ e).

(** The sign in front of a Number. *)
Definition withSign (sign : Z) (x : number) : number :=
  match x with
  | Num z => Num (sign * z)
  | PosInf => if sign <? 0 then NegInf else PosInf
  | NegInf => if sign <? 0 then PosInf else NegInf
  | NaN => NaN
  end.

(** [parseInt(s, 10)]: the Number of the integer spelled by the longest
    run of digits after an optional sign, NaN when there is none.  The
    Number is the double nearest to that integer: the integer itself up
    to 2^53, and beyond it what [nearestDouble] gives, so that
    9007199254740993 reads as 9007199254740992. *)
Definition parseInt10 (s : string) : number :=
  let t := trimStart s in
  let '(sign, body) :=
    match t with
    | String c r =>
        if code c =? 45 then (-1, r)
        else if code c =? 43 then (1, r)
        else (1, t)
    | EmptyString => (1, t)
    end in
  let digits := fst (span (fun c => negb (isDigit c)) body) in
  match digits with
  | EmptyString => NaN
  | _ => withSign sign (nearestDouble (decimalValue digits))
  end.

End Url.

(** ** parseOtpAuthUrl *)

Module Otpauth.
Import JS Url.

Record parsedUrl : Type := mkParsed {
  issuer : string;
  account : string;
  secret : string;
  digits : number;
  period : number
}.

(** [x || d] on a string or null: the empty string is falsy too. *)
Definition orElse (x : option string) (d : string) : string :=
  match x with
  | None => d
  | Some EmptyString => d
  | Some s => s
  end.

Definition includes (s : string) (c : ascii) : bool :=
  existsStr (Ascii.eqb c) s.

(** [s.slice(1)]. *)
Definition slice1 (s : string) : string :=
  match s with
  | EmptyString => EmptyString
  | String _ r => r
  end.

(** The body of the [try] block; [None] is the value [null]. *)
Definition tryBlock (url : string) : completion (option parsedUrl) :=
  bind (newURL url) (fun parsed =>
  if negb (String.eqb (protocol parsed) "otpauth:") then Normal None
  else if negb (String.eqb (host parsed) "totp") then Normal None
  else
    bind (decodeURIComponent (slice1 (pathname parsed))) (fun path =>
    match get (searchParams parsed) "secret" with
    | None => Normal None
    | Some EmptyString => Normal None
    | Some secret =>
        let issuer := orElse (get (searchParams parsed) "issuer") EmptyString in
        let '(issuer, account) :=
          if includes path ":" then
            let parts := split ":" path in
            (match issuer with
             | EmptyString => hd EmptyString parts
             | _ => issuer
             end,
             join ":" (tl parts))
          else (issuer, path) in
        let digits := parseInt10 (orElse (get (searchParams parsed) "digits") "6") in
        let period := parseInt10 (orElse (get (searchParams parsed) "period") "30") in
        Normal (Some (mkParsed issuer account secret digits period))
    end)).

(** [try { ... } catch { return null; }]. *)
Definition parseOtpAuthUrl (url : string) : option parsedUrl :=
  match tryBlock url with
  | Normal r => r
  | Throw _ => None
  end.

End Otpauth.

(** ** The decoder as the specification words it

    Section 4.1 of the specification: the symbols are the characters of
    the cleaned input that belong to the alphabet; a bit buffer receives
    the five bits of each symbol; whenever it holds eight bits or more its
    top eight bits are emitted as a byte and the rest retained; what is
    left at the end is dropped.  The buffer is a list of bits, first bit
    on top, with no bound on its size. *)

Module Base32Spec.
Import JS Base32.

Definition isSymbol (c : ascii) : bool := negb (indexOf alphabet c =? -1).

Definition validSymbols (encoded : string) : list ascii :=
  filter isSymbol (list_ascii_of_string (cleanInput encoded)).

Definition numValidSymbols (encoded : string) : Z :=
  Z.of_nat (List.length (validSymbols encoded)).

(** The five bits of a symbol's value, most significant first. *)
Definition symbolBits (c : ascii) : list bool :=
  map (Z.testbit (indexOf alphabet c)) [4; 3; 2; 1; 0].

Definition bitsValue (bs : list bool) : Z :=
  fold_left (fun acc (b : bool) => 2 * acc + Z.b2z b) bs 0.

(** Emitted bytes and buffered bits. *)
Definition accumulate (st : list Z * list bool) (c : ascii) : list Z * list bool :=
  let buf := snd st ++ symbolBits c in
  if (8 <=? List.length buf)%nat
  then (fst st ++ [bitsValue (firstn 8 buf)], skipn 8 buf)
  else (fst st, buf).

Definition decodeSpec (encoded : string) : list Z :=
  fst (fold_left accumulate (validSymbols encoded) ([], [])).

End Base32Spec.

(** ** Predicates of the proofs *)

Module Invariants.
Import JS Base32 Base32Spec.

(** A byte value. *)
Definition isByte (b : Z) : Prop := 0 <= b <= 255.

(** [k] characters [0]. *)
Definition zeros (k : nat) : string := string_of_list_ascii (repeat "0"%char k).

(** The state of the loop against the bit buffer: same bytes written, as
    many bits pending, and the pending bits are the low bits of [value]. *)
Definition related (st : state) (sp : list Z * list bool) : Prop :=
  output st = fst sp
  /\ bits st = Z.of_nat (List.length (snd sp))
  /\ 0 <= bits st < 8
  /\ value st mod 2 ^ bits st = bitsValue (snd sp).

(** Eight bits leave the buffer for every byte written: [n] symbols read. *)
Definition counted (st : state) (n : Z) : Prop :=
  8 * Z.of_nat (List.length (output st)) + bits st = 5 * n /\ 0 <= bits st < 8.


End Invariants.

(** ** The command line: keys, display and lookup ([src/cli.ts])

    [isValidBase32] and the code formatting are the same in [src/index.tsx]. *)

Module Cli.
Import JS Url.

(** A string of decimal digits. *)
Definition allDigits (s : string) : bool :=
  negb (existsStr (fun c => negb (isDigit c)) s).

(** The class [[A-Z2-7]]. *)
Definition isAlphabetChar (c : ascii) : bool :=
  ((65 <=? code c) && (code c <=? 90)) || ((50 <=? code c) && (code c <=? 55)).

(** [/^[A-Z2-7]+$/.test(s)]. *)
Definition matchesAlphabet (s : string) : bool :=
  match s with
  | EmptyString => false
  | _ => negb (existsStr (fun c => negb (isAlphabetChar c)) s)
  end.

(** [cleaned.length] is taken only of a string the test has accepted, which
    is ASCII: its length is its number of bytes. *)
Definition isValidBase32 (str : string) : bool :=
  let cleaned := stripTrailingEq (removeWs (toUpperCase str)) in
  matchesAlphabet cleaned && (16 <=? strlen cleaned).

(** [secret.replace(/\s/g, empty).replace(/=+$/, empty)], the key that
    cmdAdd validates and, in upper case, stores. *)
Definition cleanKey (secret : string) : string :=
  stripTrailingEq (removeWs secret).

(** [.] on ASCII text: any character but a line feed or a carriage
    return. *)
Definition isDot (c : ascii) : bool :=
  negb ((code c =? 10) || (code c =? 13)).

(** [code.replace(/(.{3})/g, "$1 ")] on ASCII text: a space after every
    three characters that match, read from the left. *)
Fixpoint groupThrees (s : string) : string :=
  match s with
  | EmptyString => EmptyString
  | String c1 s1 =>
      match s1 with
      | String c2 (String c3 r) =>
          if isDot c1 && isDot c2 && isDot c3
          then String c1 (String c2 (String c3 (String " " (groupThrees r))))
          else String c1 (groupThrees s1)
      | _ => s
      end
  end.

(** [s.trimEnd()]: the white space that ends the string goes. *)
Fixpoint trimEnd (s : string) : string :=
  match s with
  | EmptyString => EmptyString
  | String c r =>
      match removeWs s with
      | EmptyString => EmptyString
      | _ => String c (trimEnd r)
      end
  end.

(** [s.trim()]. *)
Definition trim (s : string) : string := trimEnd (trimStart s).

(** [code.replace(/(.{3})/g, "$1 ").trim()], the code as cmdList and
    AccountRow show it. *)
Definition formatCode (code : string) : string := trim (groupThrees code).

(** The characters of a string that belong to the alphabet. *)
Definition symbolsOf (s : string) : list ascii :=
  filter Base32Spec.isSymbol (list_ascii_of_string s).

End Cli.

(** ** The base32 encoding of RFC 4648

    The program has no encoder: the secrets it decodes are written by the
    services that issue them.  This is the encoding of RFC 4648, section 6,
    that base32Decode is meant to undo: the bits of the bytes, most
    significant first, in groups of five, the last group filled with zero
    bits, one alphabet character per group, and [=] up to a multiple of
    eight characters. *)

Module Rfc4648.
Import JS Base32 Base32Spec.

Definition byteBits (b : Z) : list bool :=
  map (Z.testbit b) [7; 6; 5; 4; 3; 2; 1; 0].

Definition bitsOf (bytes : list Z) : list bool := flat_map byteBits bytes.

(** Groups of five bits; the last one is filled with zero bits. *)
Fixpoint quintets (bs : list bool) : list (list bool) :=
  match bs with
  | b4 :: b3 :: b2 :: b1 :: b0 :: more => [b4; b3; b2; b1; b0] :: quintets more
  | [] => []
  | short => [firstn 5 (short ++ repeat false 4)]
  end.

Definition symbolOf (q : list bool) : ascii :=
  nth (Z.to_nat (bitsValue q)) (list_ascii_of_string alphabet) "A"%char.

Definition base32Encode (bytes : list Z) : string :=
  let symbols := map symbolOf (quintets (bitsOf bytes)) in
  let padding := ((8 - List.length symbols mod 8) mod 8)%nat in
  string_of_list_ascii (symbols ++ repeat "="%char padding).

(** Bytes out of bits, eight at a time; fewer than eight are dropped. *)
Fixpoint octets (bs : list bool) : list Z :=
  match bs with
  | b7 :: b6 :: b5 :: b4 :: b3 :: b2 :: b1 :: b0 :: more =>
      bitsValue [b7; b6; b5; b4; b3; b2; b1; b0] :: octets more
  | _ => []
  end.

End Rfc4648.

(** ** The account file ([src/storage.ts])

    The file [~/.2fa-cli/accounts.json] is the state: [None] when it is
    absent or cannot be read as JSON, else the data it holds, taken to
    have the shape writeStorage gives it.  [crypto.randomUUID()] and
    [Date.now()] are parameters.  A number field is [None] when it is
    [null]: JSON has no NaN and no infinity, and [JSON.stringify] writes
    them as [null].

    [await Bun.write(...)] can be rejected, and nothing in the file
    catches it.  writeStorage, addAccount, removeAccount and updateAccount
    below say what the function returns and leaves in the file when its
    write is accepted; the promise of each function, with the rejection
    of the write, comes after them. *)

Module Storage.
Import JS.

Record Account : Type := mkAccount {
  id : string;
  issuer : string;
  account : string;
  secret : string;
  digits : option number;
  period : option number;
  createdAt : Z
}.

Record StorageData : Type := mkData {
  version : Z;
  accounts : list Account
}.

Definition disk : Type := option StorageData.

(** [Omit<Account, "id" | "createdAt">]. *)
Record NewAccount : Type := mkNew {
  newIssuer : string;
  newAccount : string;
  newSecret : string;
  newDigits : option number;
  newPeriod : option number
}.

(** The object passed as [updates].  Its type is
    [Partial<Omit<Account, "id" | "createdAt">>], which names five
    properties, each optional; an object with more properties has that
    type too (an [Account] does), and the spread copies every property
    the object has, [id] and [createdAt] among them.  [None] is a property
    that is not there; a property that is there holds a value of its
    type. *)
Record Updates : Type := mkUpdates {
  updId : option string;
  updIssuer : option string;
  updAccount : option string;
  updSecret : option string;
  updDigits : option (option number);
  updPeriod : option (option number);
  updCreatedAt : option Z
}.

(** A number through [JSON.stringify] and back. *)
Definition jsonNumber (x : option number) : option number :=
  match x with
  | Some (Num z) => Some (Num z)
  | _ => None
  end.

Definition jsonAccount (a : Account) : Account :=
  mkAccount (id a) (issuer a) (account a) (secret a)
            (jsonNumber (digits a)) (jsonNumber (period a)) (createdAt a).

Definition readStorage (d : disk) : StorageData :=
  match d with
  | Some data => data
  | None => mkData 1 []
  end.

(** The file after a write that is accepted. *)
Definition writeStorage (data : StorageData) : disk :=
  Some (mkData (version data) (map jsonAccount (accounts data))).

Definition getAccounts (d : disk) : list Account := accounts (readStorage d).

(** The account returned and the file afterwards. *)
Definition addAccount (acc : NewAccount) (uuid : string) (now : Z) (d : disk)
  : Account * disk :=
  let data := readStorage d in
  let new := mkAccount uuid (newIssuer acc) (newAccount acc) (newSecret acc)
                       (newDigits acc) (newPeriod acc) now in
  (new, writeStorage (mkData (version data) (accounts data ++ [new]))).

Definition removeAccount (i : string) (d : disk) : bool * disk :=
  let data := readStorage d in
  let kept := filter (fun a => negb (String.eqb (id a) i)) (accounts data) in
  if negb (Nat.eqb (List.length kept) (List.length (accounts data)))
  then (true, writeStorage (mkData (version data) kept))
  else (false, d).

Definition getAccount (i : string) (d : disk) : option Account :=
  find (fun a => String.eqb (id a) i) (accounts (readStorage d)).

(** [{ ...a, ...updates }]: every property of [updates] replaces that of
    [a]. *)
Definition applyUpdates (a : Account) (u : Updates) : Account :=
  let pick {A : Type} (o : option A) (old : A) : A :=
    match o with Some v => v | None => old end in
  mkAccount (pick (updId u) (id a))
            (pick (updIssuer u) (issuer a)) (pick (updAccount u) (account a))
            (pick (updSecret u) (secret a)) (pick (updDigits u) (digits a))
            (pick (updPeriod u) (period a))
            (pick (updCreatedAt u) (createdAt a)).

(** [accounts[index] = value] at the first account whose id is [i]. *)
Fixpoint replaceFirst (i : string) (u : Updates) (l : list Account)
  : option (Account * list Account) :=
  match l with
  | [] => None
  | a :: more =>
      if String.eqb (id a) i
      then Some (applyUpdates a u, applyUpdates a u :: more)
      else
        match replaceFirst i u more with
        | Some (changed, more') => Some (changed, a :: more')
        | None => None
        end
  end.

Definition updateAccount (i : string) (u : Updates) (d : disk)
  : option Account * disk :=
  let data := readStorage d in
  match replaceFirst i u (accounts data) with
  | None => (None, d)
  | Some (changed, l) => (Some changed, writeStorage (mkData (version data) l))
  end.

(** *** The promises

    [fault] is the error with which [Bun.write] rejects, [None] when it
    accepts the write.  A function that writes awaits writeStorage, so
    its promise is rejected with that error; a write that is rejected is
    taken not to have replaced the file. *)

Definition awaitWrite {A : Type} (fault : option string) (d : disk)
  (done : A * disk) : outcome A * disk :=
  match fault with
  | Some name => (Rejected name, d)
  | None => (Resolved (fst done), snd done)
  end.

(** addAccount always writes. *)
Definition addAccountPromise (fault : option string)
  (acc : NewAccount) (uuid : string) (now : Z) (d : disk)
  : outcome Account * disk :=
  awaitWrite fault d (addAccount acc uuid now d).

(** removeAccount writes when it has removed an account. *)
Definition removeAccountPromise (fault : option string) (i : string) (d : disk)
  : outcome bool * disk :=
  if fst (removeAccount i d)
  then awaitWrite fault d (removeAccount i d)
  else (Resolved false, d).

(** updateAccount writes when it has found the account. *)
Definition updateAccountPromise (fault : option string)
  (i : string) (u : Updates) (d : disk) : outcome (option Account) * disk :=
  match fst (updateAccount i u d) with
  | Some _ => awaitWrite fault d (updateAccount i u d)
  | None => (Resolved None, d)
  end.

End Storage.

(** ** The commands ([src/cli.ts])

    What a command does to the account file and to the two output
    streams, and how it ends.  The surroundings of a run are its [env]:
    the clock and the fresh id of addAccount, the error with which
    [Bun.write] rejects if it does, the two clipboard readers and the
    clipboard writer (shell commands), [toLowerCase] (Unicode case
    folding), and [generateCode n], which stands for the call of
    generateTOTP number [n] of the run, on the stored digits and period
    of an account and at the time of that call (stored values can be
    [null] or negative, where Math.pow leaves the integers).  Every
    statement about the commands holds for every [env]. *)

Module Commands.
Import JS Url Otpauth Cli Storage.

Record env : Type := mkEnv {
  now : Z;
  randomUUID : string;
  toLowerCase : string -> string;
  generateCode : nat -> Account -> outcome string;
  readTextFromClipboard : option string;
  readQRFromClipboard : outcome (option string);
  copyToClipboard : string -> outcome unit;
  writeFault : option string
}.

Record world : Type := mkWorld {
  file : disk;
  stdout : list string;
  stderr : list string
}.

(** How a command ends: it returns, it leaves through [process.exit], or
    its promise is rejected. *)
Inductive ending (A : Type) : Type :=
| Returns (v : A)
| Exits (status : Z)
| Throws (name : string).
Arguments Returns {A} v.
Arguments Exits {A} status.
Arguments Throws {A} name.

Definition M (A : Type) : Type := world -> ending A * world.

Definition ret {A : Type} (v : A) : M A := fun w => (Returns v, w).

Definition andThen {A B : Type} (m : M A) (k : A -> M B) : M B :=
  fun w =>
    match m w with
    | (Returns v, w') => k v w'
    | (Exits st, w') => (Exits st, w')
    | (Throws e, w') => (Throws e, w')
    end.

Notation "x <- m ;; k" := (andThen m (fun x => k))
  (at level 61, m at next level, right associativity).
Notation "m ;;; k" := (andThen m (fun _ => k))
  (at level 61, right associativity).

Definition log (line : string) : M unit :=
  fun w => (Returns tt, mkWorld (file w) (stdout w ++ [line]) (stderr w)).

Definition error (line : string) : M unit :=
  fun w => (Returns tt, mkWorld (file w) (stdout w) (stderr w ++ [line])).

Definition exit {A : Type} (status : Z) : M A := fun w => (Exits status, w).

(** [await] on a promise of the surroundings. *)
Definition awaitOutcome {A : Type} (o : outcome A) : M A :=
  fun w =>
    match o with
    | Resolved v => (Returns v, w)
    | Rejected e => (Throws e, w)
    end.

(** [await] on a promise of [src/storage.ts]. *)
Definition onDisk {A : Type} (op : disk -> outcome A * disk) : M A :=
  fun w =>
    match op (file w) with
    | (Resolved v, d) => (Returns v, mkWorld d (stdout w) (stderr w))
    | (Rejected name, d) => (Throws name, mkWorld d (stdout w) (stderr w))
    end.

Definition readAccounts : M (list Account) :=
  fun w => (Returns (getAccounts (file w)), w).

Definition quote : string := String (chr 34) EmptyString.

Definition VERSION : string := "0.1.0".

Definition HELP : string :=
  ("
2FA CLI - Terminal-based TOTP authenticator

USAGE:
  2fa [command] [options]

COMMANDS:
  (none)          Launch interactive TUI
  list, ls        List all accounts with current codes
  add <secret>    Add account with secret key or otpauth:// URI
  add -c          Add from clipboard (QR screenshot, URI, or key)
  get <query>     Get code for account matching query
  copy <query>    Copy code to clipboard for account matching query
  remove <query>  Remove account matching query

OPTIONS:
  -h, --help      Show this help message
  -v, --version   Show version number
  -c, --clipboard Read from clipboard (for add command)
  -n, --name      Account name (for add command with raw secret)

EXAMPLES:
  2fa                                    # Launch TUI
  2fa list                               # List all codes
  2fa add JBSWY3DPEHPK3PXP -n GitHub     # Add with secret key
  2fa add "
   ++ quote ++ "otpauth://totp/GitHub:user?secret=ABC123&issuer=GitHub" ++ quote
   ++ "
  2fa add -c                             # Add from clipboard
  2fa get github                         # Get GitHub code
  2fa copy github                        # Copy GitHub code
  2fa remove github                      # Remove GitHub account
")%string.

(** [s.startsWith(p)]. *)
Definition startsWith (s p : string) : bool := String.prefix p s.

(** [s.includes(t)] for a string [t]. *)
Fixpoint includesStr (s t : string) : bool :=
  String.prefix t s
  || match s with
     | EmptyString => false
     | String _ r => includesStr r t
     end.

(** A string as a condition: the empty string is false. *)
Definition truthy (s : string) : bool := negb (String.eqb s EmptyString).

Definition truthyOpt (o : option string) : bool :=
  match o with
  | Some s => truthy s
  | None => false
  end.

Definition findAccount (e : env) (accounts : list Account) (query : string)
  : option Account :=
  let lowerQuery := toLowerCase e query in
  find (fun a =>
          includesStr (toLowerCase e (account a)) lowerQuery
          || includesStr (toLowerCase e (issuer a)) lowerQuery
          || String.eqb (id a) query)
       accounts.

(** The name of an account in messages. *)
Definition displayName (a : Account) : string :=
  if truthy (issuer a)
  then (issuer a ++ " (" ++ account a ++ ")")%string
  else account a.

(** A number in a template string. *)
Definition showNumber (x : number) : string :=
  match x with
  | Num z => toString z
  | PosInf => "Infinity"
  | NegInf => "-Infinity"
  | NaN => "NaN"
  end.

(** The loop of cmdList; [n] accounts have been listed. *)
Fixpoint listCodes (e : env) (n : nat) (accounts : list Account) : M unit :=
  match accounts with
  | [] => ret tt
  | a :: more =>
      code <- awaitOutcome (generateCode e n a) ;;
      log ("  " ++ formatCode code ++ "  " ++ displayName a)%string ;;;
      listCodes e (S n) more
  end.

Definition cmdList (e : env) : M unit :=
  accounts <- readAccounts ;;
  match accounts with
  | [] => log "No accounts found. Add one with: 2fa add <secret>"
  | _ =>
      let timeRemaining := Totp.getTimeRemaining 30 (now e) in
      log (String (chr 10) "  Codes refresh in " ++ showNumber timeRemaining
           ++ "s" ++ String (chr 10) EmptyString)%string ;;;
      listCodes e 0%nat accounts ;;;
      log EmptyString
  end.

(** The loop over the arguments of cmdAdd: the secret, the name (absent
    when [-n] is the last argument), and whether the clipboard is asked. *)
Fixpoint parseAddArgs (args : list string)
  (secret name : option string) (fromClipboard : bool)
  : option string * option string * bool :=
  match args with
  | [] => (secret, name, fromClipboard)
  | arg :: more =>
      if String.eqb arg "-c" || String.eqb arg "--clipboard"
      then parseAddArgs more secret name true
      else if String.eqb arg "-n" || String.eqb arg "--name"
      then
        match more with
        | value :: more' => parseAddArgs more' secret (Some value) fromClipboard
        | [] => (secret, None, fromClipboard)
        end
      else if negb (startsWith arg "-")
      then parseAddArgs more (Some arg) name fromClipboard
      else parseAddArgs more secret name fromClipboard
  end.

(** [parsed.issuer || d]. *)
Definition orString (s d : string) : string := if truthy s then s else d.

(** The account of a parsed URL, added, and the line that says so. *)
Definition addParsed (e : env) (parsed : parsedUrl) : M unit :=
  onDisk (addAccountPromise (writeFault e)
            (mkNew (orString (Otpauth.issuer parsed) "Unknown")
                   (Otpauth.account parsed) (Otpauth.secret parsed)
                   (Some (Otpauth.digits parsed)) (Some (Otpauth.period parsed)))
            (randomUUID e) (now e)) ;;;
  log ("Added: " ++ orString (Otpauth.issuer parsed) (Otpauth.account parsed))%string.

(** The account of a raw key, added under [name]. *)
Definition addKey (e : env) (cleanedKey name : string) : M unit :=
  onDisk (addAccountPromise (writeFault e)
            (mkNew EmptyString name (toUpperCase cleanedKey)
                   (Some (Num 6)) (Some (Num 30)))
            (randomUUID e) (now e)) ;;;
  log ("Added: " ++ name)%string.

Definition addFromQR (e : env) : M unit :=
  log "Reading QR code from clipboard..." ;;;
  qrData <- awaitOutcome (readQRFromClipboard e) ;;
  if negb (truthyOpt qrData)
  then error "Error: No valid data found in clipboard (QR, URI, or secret key)" ;;;
       exit 1
  else
    match parseOtpAuthUrl (match qrData with Some q => q | None => EmptyString end) with
    | None =>
        error "Error: Invalid QR code - not a valid authenticator URL" ;;; exit 1
    | Some parsed => addParsed e parsed
    end.

Definition addKeyFromClipboard (e : env) (clipboardText : string)
  (name : option string) : M unit :=
  let cleanedKey := cleanKey clipboardText in
  if isValidBase32 cleanedKey
  then
    if negb (truthyOpt name)
    then error "Error: Secret key found but no name provided. Use: 2fa add -c -n <name>" ;;;
         exit 1
    else addKey e cleanedKey (match name with Some n => n | None => EmptyString end)
  else addFromQR e.

Definition cmdAdd (e : env) (args : list string) : M unit :=
  let '(secret, name, fromClipboard) := parseAddArgs args None None false in
  if fromClipboard
  then
    match readTextFromClipboard e with
    | Some clipboardText =>
        if truthy clipboardText
        then
          if startsWith clipboardText "otpauth://"
          then
            match parseOtpAuthUrl clipboardText with
            | Some parsed => addParsed e parsed
            | None => addKeyFromClipboard e clipboardText name
            end
          else addKeyFromClipboard e clipboardText name
        else addFromQR e
    | None => addFromQR e
    end
  else
    match secret with
    | Some sec =>
        if negb (truthy sec)
        then error "Error: No secret provided. Usage: 2fa add <secret> [-n name]" ;;;
             exit 1
        else if startsWith sec "otpauth://"
        then
          match parseOtpAuthUrl sec with
          | None => error "Error: Invalid otpauth:// URI" ;;; exit 1
          | Some parsed => addParsed e parsed
          end
        else
          let cleanedKey := cleanKey sec in
          if negb (isValidBase32 cleanedKey)
          then error "Error: Invalid secret key (must be base32 encoded, at least 16 characters)" ;;;
               exit 1
          else if negb (truthyOpt name)
          then error "Error: Name required for raw secret key. Use: 2fa add <secret> -n <name>" ;;;
               exit 1
          else addKey e cleanedKey (match name with Some n => n | None => EmptyString end)
    | None =>
        error "Error: No secret provided. Usage: 2fa add <secret> [-n name]" ;;;
        exit 1
    end.

(** The account a query names, or the error that none does. *)
Definition lookup (e : env) (query : string) : M Account :=
  accounts <- readAccounts ;;
  match findAccount e accounts query with
  | None =>
      error ("Error: No account found matching " ++ quote ++ query ++ quote)%string ;;;
      exit 1
  | Some a => ret a
  end.

Definition cmdGet (e : env) (query : option string) : M unit :=
  if negb (truthyOpt query)
  then error "Error: No query provided. Usage: 2fa get <query>" ;;; exit 1
  else
    a <- lookup e (match query with Some q => q | None => EmptyString end) ;;
    code <- awaitOutcome (generateCode e 0%nat a) ;;
    log code.

Definition cmdCopy (e : env) (query : option string) : M unit :=
  if negb (truthyOpt query)
  then error "Error: No query provided. Usage: 2fa copy <query>" ;;; exit 1
  else
    a <- lookup e (match query with Some q => q | None => EmptyString end) ;;
    code <- awaitOutcome (generateCode e 0%nat a) ;;
    awaitOutcome (copyToClipboard e code) ;;;
    log ("Copied code for " ++ displayName a ++ ": " ++ code)%string.

Definition cmdRemove (e : env) (query : option string) : M unit :=
  if negb (truthyOpt query)
  then error "Error: No query provided. Usage: 2fa remove <query>" ;;; exit 1
  else
    a <- lookup e (match query with Some q => q | None => EmptyString end) ;;
    onDisk (removeAccountPromise (writeFault e) (id a)) ;;;
    log ("Removed: " ++ displayName a)%string.

(** [args.includes(x)]. *)
Definition hasArg (args : list string) (x : string) : bool :=
  existsb (String.eqb x) args.

(** [args[1]]. *)
Definition second (args : list string) : option string := nth_error args 1.

(** The value is [true] when a command ran and [false] when the
    interface is to be launched. *)
Definition runCli (e : env) (args : list string) : M bool :=
  if hasArg args "-h" || hasArg args "--help" || hasArg args "help"
  then log HELP ;;; ret true
  else if hasArg args "-v" || hasArg args "--version" || hasArg args "version"
  then log ("2fa v" ++ VERSION)%string ;;; ret true
  else
    match args with
    | [] => ret false
    | command :: rest =>
        if negb (truthy command) || String.eqb command "tui" then ret false
        else if String.eqb command "list" || String.eqb command "ls"
        then cmdList e ;;; ret true
        else if String.eqb command "add"
        then cmdAdd e rest ;;; ret true
        else if String.eqb command "get"
        then cmdGet e (second args) ;;; ret true
        else if String.eqb command "copy" || String.eqb command "cp"
        then cmdCopy e (second args) ;;; ret true
        else if String.eqb command "remove" || String.eqb command "rm"
                || String.eqb command "delete"
        then cmdRemove e (second args) ;;; ret true
        else
          let unknown : M bool :=
            error ("Unknown command: " ++ command)%string ;;;
            log "Run '2fa --help' for usage information." ;;;
            exit 1 in
          if negb (startsWith command "-")
          then
            accounts <- readAccounts ;;
            match findAccount e accounts command with
            | Some a =>
                code <- awaitOutcome (generateCode e 0%nat a) ;;
                log code ;;; ret true
            | None => unknown
            end
          else unknown
    end.

End Commands.

(** ** The list on screen ([src/index.tsx])

    The updates of the selected row under the keys of the list view and
    after a deletion, and the progress bar. *)

Module Tui.
Import JS Url.

(** [Math.max(0, prev - 1)], keys up and k. *)
Definition moveUp (prev : Z) : Z := Z.max 0 (prev - 1).

(** [Math.min(accounts.length - 1, prev + 1)], keys down and j. *)
Definition moveDown (count prev : Z) : Z := Z.min (count - 1) (prev + 1).

(** [Math.max(0, Math.min(prev, accounts.length - 2))], after a deletion;
    [count] is the length of the list before it. *)
Definition afterDelete (count prev : Z) : Z := Z.max 0 (Z.min prev (count - 2)).

Inductive key : Type := Up | Down.

Definition press (count : Z) (selected : Z) (k : key) : Z :=
  match k with
  | Up => moveUp selected
  | Down => moveDown count selected
  end.

(** [glyph.repeat(n)]: a RangeError for a negative count. *)
Definition repeatGlyph (glyph : string) (n : Z) : completion string :=
  if n <? 0 then Throw "RangeError"
  else Normal (String.concat EmptyString (repeat glyph (Z.to_nat n))).

Definition fullBlock : string := ofBytes [226; 150; 136].
Definition lightShade : string := ofBytes [226; 150; 145].

(** The bar under the header: full blocks for the seconds left, light
    shade up to thirty. *)
Definition progressBar (timeRemaining : Z) : completion string :=
  bind (repeatGlyph fullBlock timeRemaining) (fun done =>
  bind (repeatGlyph lightShade (30 - timeRemaining)) (fun rest =>
  Normal (done ++ rest)%string)).

End Tui.

(** ** What the commands keep

    The conditions that the commands are shown to meet. *)

Module CommandInvariants.
Import JS Storage Commands.

(** A run that fails has not written the file: it ends in an exit with
    status 1 after one line on the error stream, or in a rejection; a run
    that returns has left the error stream as it was. *)
Definition failsClean {A : Type} (w : world) (run : ending A * world) : Prop :=
  match fst run with
  | Returns _ => stderr (snd run) = stderr w
  | Exits status =>
      status = 1 /\ file (snd run) = file w
      /\ exists line, stderr (snd run) = stderr w ++ [line]
  | Throws _ => file (snd run) = file w
  end.

(** A run that only reads: the file stays as it was. *)
Definition readsOnly {A : Type} (w : world) (run : ending A * world) : Prop :=
  file (snd run) = file w.

(** A run that has added one account, [a] as returned by addAccount. *)
Definition added (e : env) (w w' : world) (a : Account) : Prop :=
  getAccounts (file w') = map jsonAccount (getAccounts (file w)) ++ [jsonAccount a]
  /\ id a = randomUUID e /\ createdAt a = now e.

(** What cmdAdd does: one account more, with a secret that is not empty;
    or a clean failure, the rejection being that of the QR reader or that
    of the write. *)
Definition addsOneOrNone (e : env) (w : world) (run : ending unit * world) : Prop :=
  match fst run with
  | Returns _ =>
      (exists a, added e w (snd run) a /\ secret a <> EmptyString)
      /\ stderr (snd run) = stderr w
      /\ writeFault e = None
  | Exits status =>
      status = 1 /\ file (snd run) = file w
      /\ exists line, stderr (snd run) = stderr w ++ [line]
  | Throws name =>
      file (snd run) = file w
      /\ (readQRFromClipboard e = Rejected name \/ writeFault e = Some name)
  end.

End CommandInvariants.

(** * Properties *)

Import JS Base32 Base32Spec Totp Url Otpauth Invariants.

(** Comparisons of a character code with a constant that the range of the
    code decides. *)
Ltac code_cmp :=
  repeat match goal with
    | |- context [?a =? ?b] =>
        first [ replace (a =? b) with false by (symmetry; apply Z.eqb_neq; lia)
              | replace (a =? b) with true by (symmetry; apply Z.eqb_eq; lia) ]
    | |- context [?a <=? ?b] =>
        first [ replace (a <=? b) with true by (symmetry; apply Z.leb_le; lia)
              | replace (a <=? b) with false by (symmetry; apply Z.leb_gt; lia) ]
    end.

(** ** 32-bit operators *)

Section Int32.

Lemma toInt32_testbit z i : 0 <= i < 32 -> Z.testbit (toInt32 z) i = Z.testbit z i.
Proof.
  intros Hi. unfold toInt32.
  set (q := (z + 2 ^ 31) / 2 ^ 32).
  replace ((z + 2 ^ 31) mod 2 ^ 32 - 2 ^ 31) with (z + (- q) * 2 ^ 32).
  2:{ pose proof (Z.div_mod (z + 2 ^ 31) (2 ^ 32)). subst q. lia. }
  rewrite <- (Z.mod_pow2_bits_low (z + _ * 2 ^ 32) 32 i) by lia.
  rewrite Z.mod_add by lia.
  apply Z.mod_pow2_bits_low. lia.
Qed.

Lemma toInt32_small z : - 2^31 <= z < 2^31 -> toInt32 z = z.
Proof.
  intros H. unfold toInt32. rewrite Z.mod_small; lia.
Qed.

Lemma toInt32_range z : - 2^31 <= toInt32 z < 2^31.
Proof.
  unfold toInt32. pose proof (Z.mod_pos_bound (z + 2^31) (2^32)). lia.
Qed.

Lemma toInt32_mod z k : 0 <= k <= 32 -> toInt32 z mod 2 ^ k = z mod 2 ^ k.
Proof.
  intros Hk. apply Z.bits_inj'. intros i Hi.
  destruct (Z.ltb_spec i k).
  - rewrite !Z.mod_pow2_bits_low by lia. apply toInt32_testbit. lia.
  - rewrite !Z.mod_pow2_bits_high by lia. reflexivity.
Qed.

Lemma land_small_31 k : 0 <= k < 32 -> Z.land k 31 = k.
Proof.
  intros H. change 31 with (Z.ones 5). rewrite Z.land_ones by lia.
  apply Z.mod_small. lia.
Qed.

Lemma small_bits_high x n i :
  0 <= x < 2 ^ n -> n <= i -> Z.testbit x i = false.
Proof.
  intros Hx Hi.
  rewrite <- (Z.mod_small x (2 ^ n)) by exact Hx.
  apply Z.mod_pow2_bits_high.
  split; [|exact Hi].
  destruct (Z.le_gt_cases 0 n) as [Hn|Hn]; [exact Hn|].
  rewrite Z.pow_neg_r in Hx by exact Hn. lia.
Qed.

Lemma add_as_lor a idx n :
  0 <= n -> 0 <= idx < 2 ^ n -> a * 2 ^ n + idx = Z.lor (Z.shiftl a n) idx.
Proof.
  intros Hn Hidx.
  rewrite <- Z.shiftl_mul_pow2 by lia.
  assert (Hd : Z.land (Z.shiftl a n) idx = 0).
  { apply Z.bits_inj'. intros i Hi. rewrite Z.land_spec, Z.bits_0.
    destruct (Z.ltb_spec i n).
    - rewrite Z.shiftl_spec_low by lia. reflexivity.
    - rewrite (small_bits_high idx n i) by lia. apply andb_false_r. }
  rewrite Z.add_nocarry_lxor by exact Hd.
  apply Z.lxor_lor. exact Hd.
Qed.

Lemma step_value_mod v b idx :
  0 <= b <= 27 -> 0 <= idx < 32 ->
  bor (shl v 5) idx mod 2 ^ (b + 5) = (v mod 2 ^ b) * 32 + idx.
Proof.
  intros Hb Hidx. unfold bor, shl.
  rewrite (toInt32_small idx) by lia.
  change (Z.land 5 31) with 5.
  change 32 with (2 ^ 5) at 1. rewrite add_as_lor by lia.
  apply Z.bits_inj'. intros i Hi.
  destruct (Z.ltb_spec i (b + 5)).
  - rewrite Z.mod_pow2_bits_low by lia.
    rewrite !Z.lor_spec. f_equal.
    rewrite !toInt32_testbit by lia.
    destruct (Z.ltb_spec i 5).
    + rewrite !Z.shiftl_spec_low by lia. reflexivity.
    + rewrite !Z.shiftl_spec by lia.
      rewrite toInt32_testbit by lia.
      rewrite Z.mod_pow2_bits_low by lia. reflexivity.
  - rewrite Z.mod_pow2_bits_high by lia.
    rewrite Z.lor_spec.
    rewrite Z.shiftl_spec by lia. rewrite Z.mod_pow2_bits_high by lia.
    rewrite (small_bits_high idx 5 i) by lia. reflexivity.
Qed.

Lemma mod_pow2_mod x n k :
  0 <= k <= n -> (x mod 2 ^ n) mod 2 ^ k = x mod 2 ^ k.
Proof.
  intros H. apply Z.bits_inj'. intros i Hi.
  destruct (Z.ltb_spec i k).
  - rewrite !Z.mod_pow2_bits_low by lia. reflexivity.
  - rewrite !Z.mod_pow2_bits_high by lia. reflexivity.
Qed.

Lemma band_255 x : band x 255 = toInt32 x mod 256.
Proof.
  unfold band. rewrite (toInt32_small 255) by lia.
  change 255 with (Z.ones 8). rewrite Z.land_ones by lia. reflexivity.
Qed.

Lemma emitted_byte v k :
  0 <= k <= 24 ->
  band (sar v k) 255 = (v mod 2 ^ (k + 8)) / 2 ^ k.
Proof.
  intros Hk. rewrite band_255. unfold sar.
  rewrite land_small_31 by lia.
  change 256 with (2 ^ 8). rewrite toInt32_mod by lia.
  apply Z.bits_inj'. intros i Hi.
  rewrite Z.div_pow2_bits by lia.
  destruct (Z.ltb_spec i 8).
  - rewrite !Z.mod_pow2_bits_low by lia.
    rewrite Z.shiftr_spec by lia. apply toInt32_testbit. lia.
  - rewrite !Z.mod_pow2_bits_high by lia. reflexivity.
Qed.

End Int32.

(** ** The bit buffer of the specification *)

Section BitBuffer.

Lemma bitsValue_from (bs : list bool) (a : Z) :
  fold_left (fun acc (b : bool) => 2 * acc + Z.b2z b) bs a
  = a * 2 ^ Z.of_nat (List.length bs) + bitsValue bs.
Proof.
  unfold bitsValue. revert a. induction bs as [|b bs IH]; intros a.
  - simpl. lia.
  - cbn [fold_left List.length]. rewrite IH. rewrite (IH (2 * 0 + Z.b2z b)).
    rewrite Nat2Z.inj_succ, Z.pow_succ_r by lia. lia.
Qed.

Lemma bitsValue_app (a b : list bool) :
  bitsValue (a ++ b) = bitsValue a * 2 ^ Z.of_nat (List.length b) + bitsValue b.
Proof.
  unfold bitsValue at 1. rewrite fold_left_app.
  fold (bitsValue a). apply bitsValue_from.
Qed.

Lemma bitsValue_range (bs : list bool) :
  0 <= bitsValue bs < 2 ^ Z.of_nat (List.length bs).
Proof.
  induction bs as [|b bs IH] using rev_ind.
  - cbn. lia.
  - rewrite bitsValue_app, length_app. cbn [List.length].
    rewrite Nat2Z.inj_add. change (Z.of_nat 1) with 1.
    rewrite Z.pow_add_r by lia.
    change (bitsValue [b]) with (2 * 0 + Z.b2z b).
    destruct b; cbn [Z.b2z]; lia.
Qed.

Lemma bitsValue_split (bs : list bool) (n : nat) :
  bitsValue (firstn n bs) = bitsValue bs / 2 ^ Z.of_nat (List.length (skipn n bs))
  /\ bitsValue (skipn n bs) = bitsValue bs mod 2 ^ Z.of_nat (List.length (skipn n bs)).
Proof.
  pose proof (bitsValue_app (firstn n bs) (skipn n bs)) as H.
  rewrite firstn_skipn in H.
  pose proof (bitsValue_range (skipn n bs)) as Hr.
  set (m := 2 ^ Z.of_nat (List.length (skipn n bs))) in *.
  assert (0 < m) by lia.
  rewrite H. split.
  - rewrite Z.div_add_l by lia. rewrite Z.div_small by lia. lia.
  - rewrite Z.add_comm, Z.mod_add by lia. symmetry. apply Z.mod_small. lia.
Qed.

Lemma indexOfFrom_range c s i :
  indexOfFrom c s i = -1
  \/ i <= indexOfFrom c s i < i + Z.of_nat (String.length s).
Proof.
  revert i. induction s as [|d s IH]; intros i; cbn [indexOfFrom String.length].
  - left. reflexivity.
  - destruct (Ascii.eqb c d).
    + right. lia.
    + destruct (IH (i + 1)) as [H|H]; [left; exact H | right; lia].
Qed.

Lemma symbol_index c :
  isSymbol c = true -> 0 <= indexOf alphabet c < 32.
Proof.
  unfold isSymbol. intros H.
  apply negb_true_iff, Z.eqb_neq in H.
  destruct (indexOfFrom_range c alphabet 0) as [E|E]; [contradiction|].
  exact E.
Qed.

Lemma bitsValue_symbolBits c :
  isSymbol c = true -> bitsValue (symbolBits c) = indexOf alphabet c.
Proof.
  intros H. apply symbol_index in H. unfold symbolBits.
  set (v := indexOf alphabet c) in *.
  assert (E : v = Z.of_nat (Z.to_nat v)) by lia.
  assert (L : (Z.to_nat v < 32)%nat) by lia.
  rewrite E. generalize dependent (Z.to_nat v). clear. intros n _ L.
  do 32 (destruct n as [|n]; [reflexivity|]). lia.
Qed.

End BitBuffer.

(** ** base32Decode: the loop simulates the bit buffer *)

Section DecodeLoop.


Lemma step_skip st c : isSymbol c = false -> step st c = st.
Proof.
  unfold isSymbol, step. intros H. apply negb_false_iff in H.
  cbv zeta. rewrite H. reflexivity.
Qed.

Lemma step_symbol st sp c :
  related st sp -> isSymbol c = true -> related (step st c) (accumulate sp c).
Proof.
  intros (Ho & Hb & Hr & Hv) Hc.
  pose proof (symbol_index c Hc) as Hidx.
  pose proof (bitsValue_symbolBits c Hc) as Hsb.
  unfold step, accumulate. cbv zeta.
  unfold isSymbol in Hc. apply negb_true_iff in Hc. rewrite Hc.
  set (idx := indexOf alphabet c) in *.
  set (buf := snd sp ++ symbolBits c).
  assert (Hlen : Z.of_nat (List.length buf) = bits st + 5).
  { unfold buf. rewrite length_app. unfold symbolBits. rewrite length_map.
    cbn [List.length]. lia. }
  assert (Hval : bor (shl (value st) 5) idx mod 2 ^ (bits st + 5) = bitsValue buf).
  { rewrite step_value_mod by lia. unfold buf. rewrite bitsValue_app.
    rewrite Hsb.
    unfold symbolBits. rewrite length_map. cbn [List.length].
    change (2 ^ Z.of_nat 5) with 32. rewrite Hv. reflexivity. }
  destruct (Z.leb_spec 8 (bits st + 5)) as [Hge|Hlt].
  - assert (Hn : (8 <=? List.length buf)%nat = true) by (apply Nat.leb_le; lia).
    rewrite Hn.
    assert (Hs : Z.of_nat (List.length (skipn 8 buf)) = bits st + 5 - 8).
    { rewrite length_skipn. lia. }
    destruct (bitsValue_split buf 8) as [Hf Hk]. rewrite Hs in Hf, Hk.
    unfold related. cbn [output bits value fst snd].
    repeat split; try lia.
    + rewrite Ho. f_equal. f_equal.
      rewrite emitted_byte by lia.
      replace (bits st + 5 - 8 + 8) with (bits st + 5) by lia.
      rewrite Hval, Hf. reflexivity.
    + rewrite Hk, <- Hval.
      symmetry. apply mod_pow2_mod. lia.
  - assert (Hn : (8 <=? List.length buf)%nat = false) by (apply Nat.leb_gt; lia).
    rewrite Hn.
    unfold related. cbn [output bits value fst snd].
    repeat split; try lia; assumption.
Qed.

Lemma loop_simulates (l : list ascii) st sp :
  related st sp ->
  related (fold_left step l st) (fold_left accumulate (filter isSymbol l) sp).
Proof.
  revert st sp. induction l as [|c l IH]; intros st sp R; cbn [fold_left filter].
  - exact R.
  - destruct (isSymbol c) eqn:Hc.
    + cbn [fold_left]. apply IH. apply step_symbol; assumption.
    + rewrite step_skip by exact Hc. apply IH. exact R.
Qed.

Lemma related_init : related init ([], []).
Proof. unfold related, init. cbn. repeat split; lia. Qed.


Lemma step_counted st n c :
  counted st n ->
  counted (step st c) (if isSymbol c then n + 1 else n).
Proof.
  intros [Hc Hb]. destruct (isSymbol c) eqn:Hs.
  - unfold step. cbv zeta. unfold isSymbol in Hs. apply negb_true_iff in Hs.
    rewrite Hs. unfold counted.
    destruct (Z.leb_spec 8 (bits st + 5)); cbn [output bits].
    + rewrite length_app. cbn [List.length]. lia.
    + lia.
  - rewrite step_skip by exact Hs. split; assumption.
Qed.

Lemma loop_counted (l : list ascii) st n :
  counted st n ->
  counted (fold_left step l st) (n + Z.of_nat (List.length (filter isSymbol l))).
Proof.
  revert st n. induction l as [|c l IH]; intros st n H; cbn [fold_left filter].
  - cbn. rewrite Z.add_0_r. exact H.
  - pose proof (step_counted st n c H) as H'.
    destruct (isSymbol c).
    + apply IH in H'. cbn [List.length]. rewrite Nat2Z.inj_succ.
      replace (n + Z.succ (Z.of_nat (List.length (filter isSymbol l))))
        with (n + 1 + Z.of_nat (List.length (filter isSymbol l))) by lia.
      exact H'.
    + apply IH. exact H'.
Qed.




End DecodeLoop.



(** ** Dynamic truncation *)

Section Truncation.

Lemma at_byte hmac i : Forall isByte hmac -> 0 <= at_ hmac i <= 255.
Proof.
  intros H. unfold at_. destruct (i <? 0); [lia|].
  destruct (nth_in_or_default (Z.to_nat i) hmac 0) as [Hin | Hd].
  - rewrite Forall_forall in H. apply H in Hin. exact Hin.
  - rewrite Hd. lia.
Qed.

Lemma band_ones x k :
  0 <= x <= 255 -> 0 <= k <= 8 -> band x (Z.ones k) = x mod 2 ^ k.
Proof.
  intros Hx Hk. unfold band.
  assert (0 <= Z.ones k < 2 ^ 8).
  { rewrite Z.ones_equiv. 
    assert (0 < 2 ^ k) by (apply Z.pow_pos_nonneg; lia).
    assert (2 ^ k <= 2 ^ 8) by (apply Z.pow_le_mono_r; lia). lia. }
  rewrite !toInt32_small by lia.
  apply Z.land_ones. lia.
Qed.

Lemma band_15 x : 0 <= x <= 255 -> band x 15 = x mod 16.
Proof. intros H. apply (band_ones x 4); lia. Qed.

Lemma shl_exact x k :
  0 <= k < 32 -> 0 <= x -> x * 2 ^ k < 2 ^ 31 -> shl x k = x * 2 ^ k.
Proof.
  intros Hk Hx Hb. unfold shl.
  assert (0 < 2 ^ k) by (apply Z.pow_pos_nonneg; lia).
  assert (x < 2 ^ 31) by nia.
  rewrite land_small_31 by lia.
  rewrite (toInt32_small x) by lia.
  rewrite Z.shiftl_mul_pow2 by lia.
  apply toInt32_small. nia.
Qed.

Lemma bor_disjoint hi lo n :
  0 <= n -> 0 <= lo < 2 ^ n -> 0 <= hi -> hi mod 2 ^ n = 0 ->
  hi + lo < 2 ^ 31 -> bor hi lo = hi + lo.
Proof.
  intros Hn Hlo Hhi Hm Hb. unfold bor.
  rewrite !toInt32_small by lia.
  assert (0 < 2 ^ n) by (apply Z.pow_pos_nonneg; lia).
  assert (E : hi = hi / 2 ^ n * 2 ^ n).
  { pose proof (Z.div_mod hi (2 ^ n)). lia. }
  rewrite E at 2. rewrite add_as_lor by lia.
  rewrite Z.shiftl_mul_pow2 by lia. rewrite <- E. reflexivity.
Qed.

(** The four bytes at the offset, the first without its top bit, read as
    one big-endian number. *)
Lemma binCode_value hmac :
  Forall isByte hmac ->
  let o := offsetOf hmac in
  binCode hmac
  = (at_ hmac o mod 128) * 2 ^ 24 + at_ hmac (o + 1) * 2 ^ 16
    + at_ hmac (o + 2) * 2 ^ 8 + at_ hmac (o + 3).
Proof.
  intros H o. unfold binCode. fold o.
  pose proof (at_byte hmac o H) as H0.
  pose proof (at_byte hmac (o + 1) H) as H1.
  pose proof (at_byte hmac (o + 2) H) as H2.
  pose proof (at_byte hmac (o + 3) H) as H3.
  change 127 with (Z.ones 7). change 255 with (Z.ones 8).
  rewrite !band_ones by lia.
  change (2 ^ 7) with 128. change (2 ^ 8) with 256.
  rewrite (Z.mod_small (at_ hmac (o + 1)) 256) by lia.
  rewrite (Z.mod_small (at_ hmac (o + 2)) 256) by lia.
  rewrite (Z.mod_small (at_ hmac (o + 3)) 256) by lia.
  pose proof (Z.mod_pos_bound (at_ hmac o) 128) as Hm.
  set (b0 := at_ hmac o mod 128) in *.
  set (b1 := at_ hmac (o + 1)) in *.
  set (b2 := at_ hmac (o + 2)) in *.
  set (b3 := at_ hmac (o + 3)) in *.
  rewrite (shl_exact b0 24), (shl_exact b1 16), (shl_exact b2 8) by lia.
  rewrite (bor_disjoint (b0 * 2 ^ 24) (b1 * 2 ^ 16) 24); try lia.
  2:{ apply Z.mod_mul. lia. }
  rewrite (bor_disjoint _ (b2 * 2 ^ 8) 16); try lia.
  2:{ replace (b0 * 2 ^ 24 + b1 * 2 ^ 16) with ((b0 * 2 ^ 8 + b1) * 2 ^ 16) by lia.
      apply Z.mod_mul. lia. }
  rewrite (bor_disjoint _ b3 8); try lia.
  replace (b0 * 2 ^ 24 + b1 * 2 ^ 16 + b2 * 2 ^ 8)
    with ((b0 * 2 ^ 16 + b1 * 2 ^ 8 + b2) * 2 ^ 8) by lia.
  apply Z.mod_mul. lia.
Qed.

Lemma offsetOf_range hmac : Forall isByte hmac -> 0 <= offsetOf hmac <= 15.
Proof.
  intros H. unfold offsetOf.
  pose proof (at_byte hmac (Z.of_nat (List.length hmac) - 1) H) as Hb.
  rewrite band_15 by lia.
  pose proof (Z.mod_pos_bound (at_ hmac (Z.of_nat (List.length hmac) - 1)) 16).
  lia.
Qed.

Lemma binCode_range hmac : Forall isByte hmac -> 0 <= binCode hmac < 2 ^ 31.
Proof.
  intros H. rewrite (binCode_value hmac H). cbv zeta.
  set (o := offsetOf hmac).
  pose proof (at_byte hmac (o + 1) H).
  pose proof (at_byte hmac (o + 2) H).
  pose proof (at_byte hmac (o + 3) H).
  pose proof (Z.mod_pos_bound (at_ hmac o) 128).
  lia.
Qed.

Lemma truncate_mod hmac (digits : nat) :
  Forall isByte hmac ->
  truncate hmac digits = binCode hmac mod 10 ^ Z.of_nat digits
  /\ 0 <= truncate hmac digits < 10 ^ Z.of_nat digits.
Proof.
  intros H. pose proof (binCode_range hmac H) as Hc.
  assert (Hp : 0 < 10 ^ Z.of_nat digits) by (apply Z.pow_pos_nonneg; lia).
  assert (Ht : truncate hmac digits = binCode hmac mod 10 ^ Z.of_nat digits).
  { unfold truncate. apply Z.rem_mod_nonneg; lia. }
  split; [exact Ht|]. rewrite Ht. apply Z.mod_pos_bound. exact Hp.
Qed.

End Truncation.

(** C10. For every 20-byte digest the offset is the low nibble of byte 19
    and at most 15, so the indices offset .. offset+3 are at most 18 and
    inside the digest; the four bytes, the first without its top bit,
    combine big-endian to an integer in [0, 2^31); for every digits the
    modulus 10^digits is positive and the code is that integer modulo it. *)
Theorem dynamic_truncation_in_bounds (hmac : list Z) (digits : nat) :
  List.length hmac = 20%nat -> Forall isByte hmac ->
  let offset := offsetOf hmac in
  offset = at_ hmac 19 mod 16
  /\ 0 <= offset <= 15
  /\ (0 <= offset /\ offset + 3 <= 18 /\ 18 < Z.of_nat (List.length hmac))
  /\ binCode hmac
     = (at_ hmac offset mod 128) * 2 ^ 24 + at_ hmac (offset + 1) * 2 ^ 16
       + at_ hmac (offset + 2) * 2 ^ 8 + at_ hmac (offset + 3)
  /\ 0 <= binCode hmac < 2 ^ 31
  /\ 0 < 10 ^ Z.of_nat digits
  /\ truncate hmac digits = binCode hmac mod 10 ^ Z.of_nat digits
  /\ 0 <= truncate hmac digits < 10 ^ Z.of_nat digits.
Proof.
  intros Hlen Hb offset.
  pose proof (offsetOf_range hmac Hb) as Ho.
  pose proof (binCode_range hmac Hb) as Hc.
  destruct (truncate_mod hmac digits Hb) as [Ht Hr].
  subst offset.
  split.
  { unfold offsetOf. rewrite Hlen. change (Z.of_nat 20 - 1) with 19.
    apply band_15. apply at_byte. exact Hb. }
  split; [exact Ho|].
  split; [rewrite Hlen; lia|].
  split; [apply binCode_value; exact Hb|].
  split; [exact Hc|].
  split; [apply Z.pow_pos_nonneg; lia|].
  split; [exact Ht | exact Hr].
Qed.

(** The digest of the example of RFC 4226, section 5.4. *)
Lemma dynamic_truncation_in_bounds_witness :
  let hmac := [31; 134; 152; 105; 14; 2; 202; 22; 97; 133; 80; 239; 127; 25;
               218; 142; 148; 91; 85; 90] in
  offsetOf hmac = 10 /\ binCode hmac = 1357872921 /\ truncate hmac 6 = 872921.
Proof.
  intros hmac.
  assert (Hlen : List.length hmac = 20%nat) by reflexivity.
  assert (Hb : Forall isByte hmac).
  { repeat constructor; unfold isByte; lia. }
  destruct (dynamic_truncation_in_bounds hmac 6 Hlen Hb)
    as (Ho & _ & _ & Hc & _ & _ & Ht & _).
  split; [rewrite Ho; reflexivity|].
  split; [rewrite Hc; reflexivity|].
  rewrite Ht, Hc. reflexivity.
Defined.

(** ** The digest and the decimal rendering *)

Section Rendering.

Lemma beBytes_length n x acc :
  List.length (WebCrypto.beBytes n x acc) = (n + List.length acc)%nat.
Proof.
  revert x acc. induction n as [|n IH]; intros x acc; cbn [WebCrypto.beBytes].
  - reflexivity.
  - rewrite IH. cbn [List.length]. lia.
Qed.

Lemma beBytes_bytes n x acc :
  Forall isByte acc -> Forall isByte (WebCrypto.beBytes n x acc).
Proof.
  revert x acc. induction n as [|n IH]; intros x acc H; cbn [WebCrypto.beBytes].
  - exact H.
  - apply IH. constructor; [|exact H].
    unfold isByte. pose proof (Z.mod_pos_bound x 256). lia.
Qed.

Lemma sha1_digest msg :
  List.length (WebCrypto.sha1 msg) = 20%nat /\ Forall isByte (WebCrypto.sha1 msg).
Proof.
  unfold WebCrypto.sha1. cbv zeta. split.
  - rewrite !length_app, !beBytes_length. reflexivity.
  - repeat (apply Forall_app; split); apply beBytes_bytes; constructor.
Qed.

Lemma hmac_digest key msg :
  List.length (WebCrypto.hmac key msg) = 20%nat
  /\ Forall isByte (WebCrypto.hmac key msg).
Proof. unfold WebCrypto.hmac. cbv zeta. apply sha1_digest. Qed.

Lemma hmacSha1_cases key msg :
  (key = [] /\ hmacSha1 key msg = Rejected "DataError")
  \/ (key <> [] /\ hmacSha1 key msg = Resolved (WebCrypto.hmac key msg)).
Proof.
  destruct key as [|k key]; [left | right]; split; try reflexivity.
  discriminate.
Qed.

Lemma string_length_app (a b : string) :
  String.length (a ++ b) = (String.length a + String.length b)%nat.
Proof.
  induction a as [|c a IH]; cbn [String.append String.length].
  - reflexivity.
  - rewrite IH. reflexivity.
Qed.

Lemma digitsOf_length fuel : forall n acc (d : nat),
  0 <= n < 10 ^ Z.of_nat d -> (1 <= d)%nat ->
  (String.length (digitsOf fuel n acc) <= String.length acc + d)%nat.
Proof.
  induction fuel as [|f IH]; intros n acc d Hn Hd; cbn [digitsOf].
  - lia.
  - destruct (Z.eqb_spec (n / 10) 0) as [E|E].
    + cbn [String.length]. lia.
    + assert (10 <= n).
      { destruct (Z.lt_ge_cases n 10); [|assumption].
        rewrite Z.div_small in E by lia. contradiction. }
      destruct d as [|[|d]]; [lia | cbn in Hn; lia |].
      specialize (IH (n / 10) (String (chr (48 + n mod 10)) acc) (S d)).
      cbn [String.length] in IH.
      assert (0 <= n / 10 < 10 ^ Z.of_nat (S d)).
      { rewrite (Nat2Z.inj_succ (S d)), Z.pow_succ_r in Hn by lia.
        split; [apply Z.div_pos; lia|].
        apply Z.div_lt_upper_bound; lia. }
      specialize (IH ltac:(assumption) ltac:(lia)). lia.
Qed.

Lemma toString_length n (d : nat) :
  0 <= n < 10 ^ Z.of_nat d -> (1 <= d)%nat ->
  (String.length (toString n) <= d)%nat.
Proof.
  intros Hn Hd. unfold toString.
  destruct (Z.ltb_spec n 0); [lia|].
  apply (digitsOf_length _ n EmptyString d Hn Hd).
Qed.


Lemma fillTo_zeros k cur :
  cur = "0" \/ cur = EmptyString -> fillTo k "0" cur = zeros k.
Proof.
  revert cur. induction k as [|k IH]; intros cur H; cbn [fillTo].
  - reflexivity.
  - unfold zeros. cbn [repeat string_of_list_ascii]. fold (zeros k).
    destruct H as [-> | ->]; rewrite IH by (right; reflexivity); reflexivity.
Qed.

Lemma zeros_length k : String.length (zeros k) = k.
Proof.
  unfold zeros. induction k as [|k IH]; cbn [repeat string_of_list_ascii String.length].
  - reflexivity.
  - rewrite IH. reflexivity.
Qed.

Lemma padStart_zeros s (d : nat) :
  (String.length s <= d)%nat ->
  padStart s (Z.of_nat d) "0" = (zeros (d - String.length s) ++ s)%string
  /\ String.length (padStart s (Z.of_nat d) "0") = d.
Proof.
  intros H. unfold padStart, strlen.
  destruct (Z.leb_spec (Z.of_nat d) (Z.of_nat (String.length s))) as [L|L].
  - assert (E : (d - String.length s = 0)%nat) by lia. rewrite E. cbn. split; [reflexivity | lia].
  - rewrite fillTo_zeros by (left; reflexivity).
    replace (Z.to_nat (Z.of_nat d - Z.of_nat (String.length s)))
      with (d - String.length s)%nat by lia.
    split; [reflexivity|].
    rewrite string_length_app, zeros_length. lia.
Qed.

End Rendering.

(** C8. For digits 6, 7 or 8 and every secret, period and clock value for
    which generateTOTP resolves, the code has exactly [digits] characters:
    the decimal digits of the truncated value with zeros in front; the value
    7123 on six digits is written 007123. *)
Theorem generateTOTP_fixed_width
  (secret : string) (digits : nat) (period now : Z) (code : string) :
  In digits [6; 7; 8]%nat ->
  generateTOTP secret digits period now = Resolved code ->
  String.length code = digits
  /\ (exists hmac,
        hmacSha1 (base32Decode secret) (timeBuffer (timeStep now period))
        = Resolved hmac
        /\ 0 <= truncate hmac digits < 10 ^ Z.of_nat digits
        /\ code = (zeros (digits - String.length (toString (truncate hmac digits)))
                   ++ toString (truncate hmac digits))%string)
  /\ padStart (toString 7123) 6 "0" = "007123".
Proof.
  intros Hd Hgen. unfold generateTOTP in Hgen. cbv zeta in Hgen.
  destruct (hmacSha1_cases (base32Decode secret) (timeBuffer (timeStep now period)))
    as [[_ E] | [_ E]]; rewrite E in Hgen; cbn [await] in Hgen; [discriminate|].
  injection Hgen as Hcode.
  set (h := WebCrypto.hmac (base32Decode secret) (timeBuffer (timeStep now period))) in *.
  destruct (hmac_digest (base32Decode secret) (timeBuffer (timeStep now period)))
    as [Hlen Hbytes]. fold h in Hlen, Hbytes.
  destruct (truncate_mod h digits Hbytes) as [_ Hr].
  assert (H1 : (1 <= digits)%nat) by (cbn in Hd; lia).
  pose proof (toString_length _ digits Hr H1) as Hl.
  destruct (padStart_zeros _ digits Hl) as [Hz Hn].
  rewrite Hcode in Hz, Hn.
  split; [exact Hn|].
  split; [|vm_compute; reflexivity].
  exists h. rewrite E. split; [reflexivity|]. split; [exact Hr | exact Hz].
Qed.

(** The first vector of RFC 6238 has eight characters. *)
Lemma generateTOTP_fixed_width_witness :
  String.length "94287082" = 8%nat.
Proof.
  apply (generateTOTP_fixed_width "GEZDGNBVGY3TQOJQGEZDGNBVGY3TQOJQ" 8 30 59000 "94287082").
  - cbn. auto.
  - vm_compute. reflexivity.
Defined.

(** ** The time counter *)

Lemma timeStep_seconds now period :
  0 < period -> timeStep now period = Num (now / 1000 / period).
Proof.
  intros H. unfold timeStep.
  destruct (Z.eqb_spec period 0); [lia|].
  rewrite Z.div_div by lia. reflexivity.
Qed.

Lemma generateTOTP_seconds secret digits period now now' :
  0 < period -> now / 1000 = now' / 1000 ->
  generateTOTP secret digits period now = generateTOTP secret digits period now'.
Proof.
  intros Hp H. unfold generateTOTP. cbv zeta.
  rewrite !timeStep_seconds by exact Hp. rewrite H. reflexivity.
Qed.

(** C1. The key GEZDGNBVGY3TQOJQGEZDGNBVGY3TQOJQ decodes to the ASCII
    bytes of 12345678901234567890, and with 8 digits and period 30
    generateTOTP resolves with 94287082 when the clock reads second 59,
    with 07081804 at second 1111111109 and with 14050471 at second
    1111111111. *)
Theorem generateTOTP_rfc6238_vectors (now : Z) :
  let key := "GEZDGNBVGY3TQOJQGEZDGNBVGY3TQOJQ" in
  base32Decode key = map code (list_ascii_of_string "12345678901234567890")
  /\ (now / 1000 = 59 -> generateTOTP key 8 30 now = Resolved "94287082")
  /\ (now / 1000 = 1111111109 -> generateTOTP key 8 30 now = Resolved "07081804")
  /\ (now / 1000 = 1111111111 -> generateTOTP key 8 30 now = Resolved "14050471").
Proof.
  intros key. split; [vm_compute; reflexivity|].
  split; [|split]; intros H.
  - rewrite (generateTOTP_seconds key 8 30 now 59000 eq_refl H).
    vm_compute. reflexivity.
  - rewrite (generateTOTP_seconds key 8 30 now 1111111109000 eq_refl H).
    vm_compute. reflexivity.
  - rewrite (generateTOTP_seconds key 8 30 now 1111111111000 eq_refl H).
    vm_compute. reflexivity.
Qed.

(** The three vectors at clock values inside their second. *)
Lemma generateTOTP_rfc6238_vectors_witness :
  generateTOTP "GEZDGNBVGY3TQOJQGEZDGNBVGY3TQOJQ" 8 30 59999 = Resolved "94287082"
  /\ generateTOTP "GEZDGNBVGY3TQOJQGEZDGNBVGY3TQOJQ" 8 30 1111111109000
     = Resolved "07081804"
  /\ generateTOTP "GEZDGNBVGY3TQOJQGEZDGNBVGY3TQOJQ" 8 30 1111111111500
     = Resolved "14050471".
Proof.
  split; [|split].
  - apply (proj1 (proj2 (generateTOTP_rfc6238_vectors 59999))). reflexivity.
  - apply (proj1 (proj2 (proj2 (generateTOTP_rfc6238_vectors 1111111109000)))).
    reflexivity.
  - apply (proj2 (proj2 (proj2 (generateTOTP_rfc6238_vectors 1111111111500)))).
    reflexivity.
Defined.

(** ** The platform models on published vectors *)

Example sha1_abc :
  WebCrypto.sha1 [97; 98; 99]
  = [169; 153; 62; 54; 71; 6; 129; 106; 186; 62; 37; 113; 120; 80; 194; 108;
     156; 208; 216; 157].
Proof. vm_compute. reflexivity. Qed.

Example sha1_two_blocks :
  WebCrypto.sha1
    (map code (list_ascii_of_string
                 "abcdbcdecdefdefgefghfghighijhijkijkljklmklmnlmnomnopnopq"))
  = [132; 152; 62; 68; 28; 59; 210; 110; 186; 174; 74; 161; 249; 81; 41; 229;
     229; 70; 112; 241].
Proof. vm_compute. reflexivity. Qed.

Example hmac_rfc2202_case6 :
  WebCrypto.hmac (repeat 170 80)
    (map code (list_ascii_of_string
                 "Test Using Larger Than Block-Size Key - Hash Key First"))
  = [170; 74; 229; 225; 82; 114; 208; 14; 149; 112; 86; 55; 206; 138; 59; 85;
     237; 64; 33; 18].
Proof. vm_compute. reflexivity. Qed.

Example toUpperCase_beyond_ascii :
  toUpperCase (ofBytes [97; 195; 159; 239; 172; 131; 195; 169])
  = ofBytes [65; 83; 83; 70; 70; 73; 195; 169].
Proof. vm_compute. reflexivity. Qed.

Example hmac_rfc2202_case1 :
  WebCrypto.hmac (repeat 11 20) [72; 105; 32; 84; 104; 101; 114; 101]
  = [182; 23; 49; 134; 85; 5; 114; 100; 226; 139; 192; 182; 251; 55; 140; 142;
     241; 70; 190; 0].
Proof. vm_compute. reflexivity. Qed.

Lemma chunks_concat {A : Type} (fuel n : nat) (l : list A) :
  (1 <= n)%nat -> (List.length l <= fuel)%nat -> List.concat (WebCrypto.chunks fuel n l) = l.
Proof.
  intros Hn. revert l. induction fuel as [|f IH]; intros l Hl.
  - destruct l; [reflexivity | cbn in Hl; lia].
  - destruct l as [|a l]; [reflexivity|].
    cbn [WebCrypto.chunks List.concat].
    rewrite IH.
    + apply firstn_skipn.
    + rewrite length_skipn. cbn [List.length] in *. lia.
Qed.

(** The time buffer holds the counter, most significant byte first. *)





(** toString writes every digit of its argument. *)

Lemma code_chr z : 0 <= z < 256 -> code (chr z) = z.
Proof.
  intros H. unfold code, chr. rewrite N_ascii_embedding.
  - lia.
  - lia.
Qed.

Lemma string_append_assoc (a b c : string) :
  ((a ++ b) ++ c = a ++ (b ++ c))%string.
Proof.
  induction a as [|x a IH]; cbn [String.append]; [reflexivity | rewrite IH; reflexivity].
Qed.

Lemma digitsOf_acc fuel : forall n acc,
  digitsOf fuel n acc = (digitsOf fuel n EmptyString ++ acc)%string.
Proof.
  induction fuel as [|f IH]; intros n acc; cbn [digitsOf].
  - reflexivity.
  - destruct (n / 10 =? 0); [reflexivity|].
    rewrite (IH _ (String _ acc)), (IH _ (String _ EmptyString)).
    rewrite string_append_assoc. reflexivity.
Qed.

Lemma decimalValue_snoc s c :
  decimalValue (s ++ String c EmptyString)
  = decimalValue s * 10 + (code c - 48).
Proof.
  unfold decimalValue.
  assert (E : list_ascii_of_string (s ++ String c EmptyString)
              = list_ascii_of_string s ++ [c]).
  { induction s as [|x s IH]; cbn; [reflexivity | rewrite IH; reflexivity]. }
  rewrite E, fold_left_app. reflexivity.
Qed.

Lemma digitsOf_value fuel : forall n,
  (1 <= fuel)%nat -> 0 <= n < 2 ^ Z.of_nat fuel ->
  decimalValue (digitsOf fuel n EmptyString) = n.
Proof.
  induction fuel as [|f IH]; intros n Hf Hn; [lia|].
  cbn [digitsOf].
  pose proof (Z.mod_pos_bound n 10).
  destruct (Z.eqb_spec (n / 10) 0) as [E|E].
  - assert (n < 10).
    { pose proof (Z.div_mod n 10). lia. }
    unfold decimalValue. cbn [list_ascii_of_string fold_left].
    rewrite code_chr by lia. rewrite Z.mod_small by lia. lia.
  - rewrite digitsOf_acc, decimalValue_snoc, code_chr by lia.
    assert (0 < n / 10).
    { assert (0 <= n / 10) by (apply Z.div_pos; lia). lia. }
    rewrite Nat2Z.inj_succ, Z.pow_succ_r in Hn by lia.
    assert (n / 10 < 2 ^ Z.of_nat f).
    { apply Z.div_lt_upper_bound; lia. }
    assert (1 <= f)%nat.
    { destruct f; [cbn in *; lia | lia]. }
    rewrite IH by lia.
    pose proof (Z.div_mod n 10). lia.
Qed.

Lemma toString_value n : 0 <= n -> decimalValue (toString n) = n.
Proof.
  intros Hn. unfold toString. destruct (Z.ltb_spec n 0); [lia|].
  apply digitsOf_value; [lia|].
  split; [lia|].
  rewrite Nat2Z.inj_succ, Z2Nat.id by apply Z.log2_nonneg.
  destruct (Z.eq_dec n 0) as [->|Hne]; [cbn; lia|].
  apply Z.log2_spec. lia.
Qed.

(** ** Secrets that decode to nothing, and periods that are not positive *)

(** C3, as stated, fails on the empty secret: the promise is rejected with
    the DataError of the key import; it does not resolve with any value and
    the error is not an InvalidSecret. *)
Lemma generateTOTP_empty_secret_not_typed :
  base32Decode EmptyString = []
  /\ generateTOTP EmptyString 6 30 59000 = Rejected "DataError"
  /\ ~ ((exists v, generateTOTP EmptyString 6 30 59000 = Resolved v)
        \/ generateTOTP EmptyString 6 30 59000 = Rejected "InvalidSecret").
Proof.
  split; [reflexivity|]. split; [reflexivity|].
  intros [[v H] | H]; vm_compute in H; discriminate H.
Qed.

(** C3, amended. For every secret whose decoding is empty, generateTOTP
    hands the empty key to [importKey], which rejects it with a DataError
    before any HMAC is signed, and the promise of generateTOTP is rejected
    with that DataError. *)
Theorem generateTOTP_empty_key_rejected
  (secret : string) (digits : nat) (period now : Z) :
  base32Decode secret = [] ->
  WebCrypto.importKey (base32Decode secret) = Rejected "DataError"
  /\ hmacSha1 (base32Decode secret) (timeBuffer (timeStep now period))
     = Rejected "DataError"
  /\ generateTOTP secret digits period now = Rejected "DataError".
Proof.
  intros H. unfold generateTOTP, hmacSha1. cbv zeta. rewrite H.
  repeat split.
Qed.

(** A single symbol carries five bits and decodes to no byte. *)
Lemma generateTOTP_empty_key_rejected_witness :
  generateTOTP "A" 6 30 59000 = Rejected "DataError".
Proof.
  apply (generateTOTP_empty_key_rejected "A" 6 30 59000).
  reflexivity.
Defined.




(** ** The countdown *)

(** C9. For a clock at or after the epoch, getTimeRemaining is
    period - (seconds mod period) for every positive period; for period 30
    it lies in [1, 30], is 30 exactly on a step boundary, and one second
    later it is one less, except from 1, where it is 30 again. *)
Theorem getTimeRemaining_countdown (period now : Z) :
  0 <= now ->
  (0 < period ->
   getTimeRemaining period now = Num (period - (now / 1000) mod period))
  /\ (exists r,
        getTimeRemaining 30 now = Num r
        /\ 1 <= r <= 30
        /\ (r = 30 <-> (now / 1000) mod 30 = 0)
        /\ getTimeRemaining 30 (now + 1000) = Num (if r =? 1 then 30 else r - 1)).
Proof.
  intros Hnow.
  assert (Hs : 0 <= now / 1000) by (apply Z.div_pos; lia).
  split.
  - intros Hp. unfold getTimeRemaining.
    destruct (Z.eqb_spec period 0); [lia|].
    rewrite Z.rem_mod_nonneg by lia. reflexivity.
  - exists (30 - (now / 1000) mod 30).
    unfold getTimeRemaining. cbn [Z.eqb].
    replace ((now + 1000) / 1000) with (now / 1000 + 1).
    2:{ replace (now + 1000) with (now + 1 * 1000) by lia.
        rewrite Z.div_add by lia. reflexivity. }
    rewrite !Z.rem_mod_nonneg by lia.
    set (s := now / 1000) in *.
    pose proof (Z.mod_pos_bound s 30).
    split; [reflexivity|]. split; [lia|]. split; [lia|].
    f_equal.
    destruct (Z.eqb_spec (30 - s mod 30) 1) as [E|E].
    + assert (E' : (s + 1) mod 30 = 0).
      { rewrite <- Z.add_mod_idemp_l by lia.
        replace (s mod 30) with 29 by lia. reflexivity. }
      lia.
    + assert (E' : (s + 1) mod 30 = s mod 30 + 1).
      { rewrite <- Z.add_mod_idemp_l by lia. apply Z.mod_small. lia. }
      lia.
Qed.

(** Second 59 of a 30-second step. *)
Lemma getTimeRemaining_countdown_witness :
  getTimeRemaining 30 59000 = Num (30 - (59000 / 1000) mod 30).
Proof.
  apply (proj1 (getTimeRemaining_countdown 30 59000 ltac:(lia))). lia.
Defined.

(** ** parseOtpAuthUrl *)

(** The URL model on a few inputs. *)

Example newURL_userinfo_port_dots :
  newURL "  OTPAUTH://user:pw@totp:80/Git Hub/../x/./y?secret=A+B%20C#frag"
  = Normal (mkURL "otpauth" (Some "totp") (Some 80) (ListPath ["x"; "y"])
                  (Some "secret=A+B%20C")).
Proof. vm_compute. reflexivity. Qed.

Example newURL_without_authority :
  newURL "otpauth:totp/x?secret=AB"
  = Normal (mkURL "otpauth" None None OpaquePath (Some "secret=AB")).
Proof. vm_compute. reflexivity. Qed.

Example newURL_failures :
  newURL "not-a-uri" = Throw "TypeError"
  /\ newURL "otpauth://to tp/x" = Throw "TypeError"
  /\ newURL "otpauth://totp:99999/x" = Throw "TypeError"
  /\ newURL "otpauth://@/x" = Throw "TypeError".
Proof. repeat split; vm_compute; reflexivity. Qed.

Example searchParams_decoding :
  searchParams (mkURL "otpauth" (Some "totp") None (ListPath ["x"])
                      (Some "a=1&&s%65cret=A+B%20C&secret=second&flag"))
  = [("a", "1"); ("secret", "A B C"); ("secret", "second"); ("flag", EmptyString)].
Proof. vm_compute. reflexivity. Qed.

Example decodeURIComponent_escapes :
  decodeURIComponent "a%3Ab%20c" = Normal "a:b c"
  /\ decodeURIComponent "%zz" = Throw "URIError"
  /\ decodeURIComponent "%C3" = Throw "URIError"
  /\ decodeURIComponent "%C0%80" = Throw "URIError".
Proof. repeat split; vm_compute; reflexivity. Qed.

Example utf8Decode_replaces :
  utf8Decode (ofBytes [97; 226; 130; 195; 169; 255; 98])
  = ofBytes [97; 239; 191; 189; 195; 169; 239; 191; 189; 98].
Proof. vm_compute. reflexivity. Qed.

Example parseInt10_values :
  parseInt10 "30" = Num 30 /\ parseInt10 "  -12px" = Num (-12)
  /\ parseInt10 "abc" = NaN /\ parseInt10 EmptyString = NaN.
Proof. repeat split; vm_compute; reflexivity. Qed.

(** Above 2^53: ties go to the even significand, 10^23 is not a double,
    and the largest double is the last number before Infinity. *)
Example parseInt10_nearest_double :
  parseInt10 "9007199254740992" = Num 9007199254740992
  /\ parseInt10 "9007199254740993" = Num 9007199254740992
  /\ parseInt10 "9007199254740995" = Num 9007199254740996
  /\ parseInt10 "-9007199254740997" = Num (-9007199254740996)
  /\ parseInt10 "100000000000000000000000" = Num 99999999999999991611392
  /\ nearestDouble (2 ^ 1024 - 2 ^ 970 - 1) = Num (2 ^ 1024 - 2 ^ 971)
  /\ nearestDouble (2 ^ 1024 - 2 ^ 970) = PosInf
  /\ withSign (-1) (nearestDouble (10 ^ 400)) = NegInf.
Proof. repeat split; vm_compute; reflexivity. Qed.

Lemma append_char_inj (a b : string) (c : ascii) :
  (a ++ String c EmptyString = b ++ String c EmptyString)%string -> a = b.
Proof.
  revert b. induction a as [|x a IH]; intros [|y b] H; cbn in H.
  - reflexivity.
  - injection H as _ H. destruct b; discriminate H.
  - injection H as _ H. destruct a; discriminate H.
  - injection H as -> H. f_equal. apply IH. exact H.
Qed.

Lemma protocol_otpauth u :
  String.eqb (protocol u) "otpauth:" = String.eqb (scheme u) "otpauth".
Proof.
  unfold protocol.
  destruct (String.eqb_spec (scheme u) "otpauth") as [E|E].
  - rewrite E. reflexivity.
  - apply String.eqb_neq. intros H. apply E.
    apply (append_char_inj _ "otpauth" ":"). exact H.
Qed.


Lemma tryBlock_result url :
  match newURL url with
  | Throw e => tryBlock url = Throw e
  | Normal u =>
      if negb (String.eqb (scheme u) "otpauth") then tryBlock url = Normal None
      else if negb (String.eqb (host u) "totp") then tryBlock url = Normal None
      else
        match decodeURIComponent (slice1 (pathname u)) with
        | Throw e => tryBlock url = Throw e
        | Normal label =>
            match get (searchParams u) "secret" with
            | None | Some EmptyString => tryBlock url = Normal None
            | Some _ => exists r, tryBlock url = Normal (Some r)
            end
        end
  end.
Proof.
  unfold tryBlock. destruct (newURL url) as [u|e]; cbn [bind]; [|reflexivity].
  rewrite protocol_otpauth.
  destruct (negb (String.eqb (scheme u) "otpauth")); [reflexivity|].
  destruct (negb (String.eqb (host u) "totp")); [reflexivity|].
  destruct (decodeURIComponent (slice1 (pathname u))) as [label|e]; cbn [bind]; [|reflexivity].
  destruct (get (searchParams u) "secret") as [[|c s]|]; try reflexivity.
  destruct (includes label ":"); eexists; reflexivity.
Qed.

(** C5, amended. parseOtpAuthUrl returns null, and throws nothing, exactly
    when [new URL] throws, or the scheme is not otpauth, or the host is not
    totp, or decodeURIComponent throws on the path, or the secret parameter
    is absent or empty; not-a-uri and otpauth://hotp/x?secret=AB both give
    null. *)
Theorem parseOtpAuthUrl_fails_iff (url : string) :
  (parseOtpAuthUrl url = None <->
   (exists e, newURL url = Throw e)
   \/ (exists u, newURL url = Normal u
         /\ (scheme u <> "otpauth"
             \/ host u <> "totp"
             \/ (exists e, decodeURIComponent (slice1 (pathname u)) = Throw e)
             \/ get (searchParams u) "secret" = None
             \/ get (searchParams u) "secret" = Some EmptyString)))
  /\ parseOtpAuthUrl "not-a-uri" = None
  /\ parseOtpAuthUrl "otpauth://hotp/x?secret=AB" = None.
Proof.
  split; [|split; vm_compute; reflexivity].
  unfold parseOtpAuthUrl. pose proof (tryBlock_result url) as T.
  destruct (newURL url) as [u|e] eqn:Hu.
  2:{ rewrite T. split; [intros _; left; exists e; reflexivity | reflexivity]. }
  destruct (String.eqb_spec (scheme u) "otpauth") as [Hs|Hs]; cbn [negb] in T.
  2:{ rewrite T. split; [|reflexivity]. intros _. right. exists u. auto. }
  destruct (String.eqb_spec (host u) "totp") as [Hh|Hh]; cbn [negb] in T.
  2:{ rewrite T. split; [|reflexivity]. intros _. right. exists u. auto. }
  destruct (decodeURIComponent (slice1 (pathname u))) as [label|e] eqn:Hd.
  2:{ rewrite T. split; [|reflexivity]. intros _. right. exists u.
      split; [reflexivity|]. right. right. left. exists e. exact Hd. }
  destruct (get (searchParams u) "secret") as [[|c s]|] eqn:Hg.
  - rewrite T. split; [|reflexivity]. intros _. right. exists u.
    split; [reflexivity|]. do 4 right. exact Hg.
  - destruct T as [r T]. rewrite T. split; [discriminate|].
    intros [[e H] | [u' [H D]]]; [discriminate|].
    injection H as <-.
    destruct D as [D | [D | [[e D] | [D | D]]]];
      try contradiction; congruence.
  - rewrite T. split; [|reflexivity]. intros _. right. exists u.
    split; [reflexivity|]. do 3 right. left. exact Hg.
Qed.

(** C5, as stated, fails on a URL whose path holds a malformed escape: it
    parses, its scheme is otpauth, its host totp and its secret AB, and
    parseOtpAuthUrl returns null. *)
Lemma parseOtpAuthUrl_fails_on_bad_escape :
  let url := "otpauth://totp/%zz?secret=AB" in
  let u := mkURL "otpauth" (Some "totp") None (ListPath ["%zz"])
                 (Some "secret=AB") in
  newURL url = Normal u
  /\ scheme u = "otpauth"
  /\ host u = "totp"
  /\ get (searchParams u) "secret" = Some "AB"
  /\ decodeURIComponent (slice1 (pathname u)) = Throw "URIError"
  /\ parseOtpAuthUrl url = None.
Proof.
  cbv zeta. repeat split; vm_compute; reflexivity.
Qed.

(** What an accepted URL yields. *)
Lemma parseOtpAuthUrl_accepts url r :
  parseOtpAuthUrl url = Some r ->
  exists u label,
    newURL url = Normal u
    /\ scheme u = "otpauth" /\ host u = "totp"
    /\ decodeURIComponent (slice1 (pathname u)) = Normal label
    /\ get (searchParams u) "secret" = Some (secret r)
    /\ secret r <> EmptyString
    /\ digits r = parseInt10 (orElse (get (searchParams u) "digits") "6")
    /\ period r = parseInt10 (orElse (get (searchParams u) "period") "30")
    /\ (let q := orElse (get (searchParams u) "issuer") EmptyString in
        if includes label ":"
        then issuer r = match q with
                        | EmptyString => hd EmptyString (split ":" label)
                        | _ => q
                        end
             /\ account r = join ":" (tl (split ":" label))
        else issuer r = q /\ account r = label).
Proof.
  unfold parseOtpAuthUrl, tryBlock.
  destruct (newURL url) as [u|e]; cbn [bind]; [|discriminate].
  rewrite protocol_otpauth.
  destruct (String.eqb_spec (scheme u) "otpauth") as [Hs|Hs]; cbn [negb]; [|discriminate].
  destruct (String.eqb_spec (host u) "totp") as [Hh|Hh]; cbn [negb]; [|discriminate].
  destruct (decodeURIComponent (slice1 (pathname u))) as [label|e] eqn:Hd;
    cbn [bind]; [|discriminate].
  destruct (get (searchParams u) "secret") as [[|c s]|] eqn:Hg; try discriminate.
  intros H. exists u, label.
  destruct (includes label ":"); injection H as <-; cbn [secret digits period issuer account];
    repeat split; try assumption; try discriminate.
Qed.

(** split and join. *)

Lemma split_nonempty sep s : split sep s <> [].
Proof.
  destruct s as [|c r]; cbn [split]; [discriminate|].
  destruct (Ascii.eqb c sep); [discriminate|].
  destruct (split sep r); discriminate.
Qed.

Lemma join_cons sep p more :
  more <> [] -> join sep (p :: more) = (p ++ sep ++ join sep more)%string.
Proof. destruct more; [contradiction | reflexivity]. Qed.

Lemma join_split sep s : join (String sep EmptyString) (split sep s) = s.
Proof.
  induction s as [|c r IH]; cbn [split].
  - reflexivity.
  - pose proof (split_nonempty sep r) as Hn.
    destruct (Ascii.eqb_spec c sep) as [->|Hne].
    + rewrite join_cons by exact Hn. rewrite IH. reflexivity.
    + destruct (split sep r) as [|p more]; [contradiction|].
      destruct more as [|p' more'].
      * cbn [join] in *. rewrite IH. reflexivity.
      * rewrite join_cons by discriminate.
        rewrite join_cons in IH by discriminate.
        rewrite <- IH. reflexivity.
Qed.

Lemma split_at_first sep s :
  existsStr (Ascii.eqb sep) s = true ->
  exists before after,
    s = (before ++ String sep after)%string
    /\ existsStr (Ascii.eqb sep) before = false
    /\ hd EmptyString (split sep s) = before
    /\ join (String sep EmptyString) (tl (split sep s)) = after.
Proof.
  induction s as [|c r IH]; cbn [existsStr split]; [discriminate|].
  rewrite (Ascii.eqb_sym sep c).
  destruct (Ascii.eqb_spec c sep) as [->|Hne]; cbn [orb].
  - intros _. exists EmptyString, r. cbn [hd tl String.append existsStr].
    repeat split. apply join_split.
  - intros H. destruct (IH H) as (before & after & E & Hb & Hh & Ht).
    pose proof (split_nonempty sep r) as Hn.
    destruct (split sep r) as [|p more]; [contradiction|].
    cbn [hd tl] in *. exists (String c before), after.
    cbn [String.append existsStr]. rewrite (Ascii.eqb_sym sep c).
    destruct (Ascii.eqb_spec c sep); [contradiction|]. cbn [orb].
    subst p. rewrite E. repeat split; assumption.
Qed.

(** parseInt. *)

Lemma trimStart_not_blank c s :
  33 <= code c <= 127 -> trimStart (String c s) = String c s.
Proof.
  intros H. cbn [trimStart]. unfold isWs1, isWs2, isWs3. code_cmp.
  cbn [andb orb].
  destruct s as [|c2 [|c3 s]]; reflexivity.
Qed.

Lemma parseInt10_no_digit c s :
  33 <= code c <= 127 -> isDigit c = false -> code c <> 43 -> code c <> 45 ->
  parseInt10 (String c s) = NaN.
Proof.
  intros R Hd Hp Hm.
  unfold parseInt10. rewrite trimStart_not_blank by lia.
  code_cmp. cbn [span]. rewrite Hd. reflexivity.
Qed.

Lemma span_all_digits s :
  existsStr (fun c => negb (isDigit c)) s = false ->
  span (fun c => negb (isDigit c)) s = (s, EmptyString).
Proof.
  induction s as [|c r IH]; cbn [existsStr span]; [reflexivity|].
  intros H. apply orb_false_iff in H. destruct H as [Hc Hr].
  rewrite Hc, (IH Hr). reflexivity.
Qed.

Lemma nearestDouble_exact m : m <= 2 ^ 53 -> nearestDouble m = Num m.
Proof.
  intros H. unfold nearestDouble.
  destruct (Z.leb_spec m (2 ^ 53)) as [_|G]; [reflexivity | lia].
Qed.

(** Above 2^53 the Number is a multiple of the spacing of the doubles
    around [m], and no further from [m] than half that spacing. *)
Lemma nearestDouble_nearest m x :
  2 ^ 53 < m -> nearestDouble m = Num x ->
  let e := Z.log2 m - 52 in
  1 <= e /\ x mod 2 ^ e = 0 /\ 2 * Z.abs (x - m) <= 2 ^ e
  /\ 2 ^ 53 <= x < 2 ^ 1024.
Proof.
  intros Hm H e. unfold nearestDouble in H. fold e in H. cbv zeta in H.
  destruct (Z.leb_spec m (2 ^ 53)) as [G|_]; [lia|].
  assert (L : 53 <= Z.log2 m).
  { apply Z.log2_le_pow2; lia. }
  assert (He : 1 <= e) by (unfold e; lia).
  pose proof (Z.log2_spec m ltac:(lia)) as [Lo Hi].
  assert (P : 0 < 2 ^ e) by (apply Z.pow_pos_nonneg; lia).
  assert (E2 : 2 ^ e = 2 * 2 ^ (e - 1)).
  { replace e with (Z.succ (e - 1)) at 1 by lia. apply Z.pow_succ_r. lia. }
  assert (E52 : 2 ^ Z.log2 m = 2 ^ 52 * 2 ^ e).
  { rewrite <- Z.pow_add_r by lia. f_equal. unfold e. lia. }
  pose proof (Z.div_mod m (2 ^ e) ltac:(lia)) as D.
  pose proof (Z.mod_pos_bound m (2 ^ e) P) as B.
  assert (Q : 2 ^ 52 <= m / 2 ^ e).
  { apply Z.div_le_lower_bound; lia. }
  set (q := m / 2 ^ e) in *. set (r := m mod 2 ^ e) in *.
  set (half := 2 ^ (e - 1)) in *.
  split; [exact He|].
  destruct ((half <? r) || ((r =? half) && Z.odd q)) eqn:C.
  - destruct (Z.leb_spec (2 ^ 1024) ((q + 1) * 2 ^ e)) as [_|T]; [discriminate|].
    injection H as H. subst x.
    split; [apply Z.mod_mul; lia|].
    assert (R : half <= r).
    { apply orb_true_iff in C. destruct C as [C|C]; [lia|].
      apply andb_true_iff in C. lia. }
    split; [|nia]. rewrite Z.abs_eq by nia. nia.
  - destruct (Z.leb_spec (2 ^ 1024) (q * 2 ^ e)) as [_|T]; [discriminate|].
    injection H as H. subst x.
    split; [apply Z.mod_mul; lia|].
    assert (R : r <= half).
    { apply orb_false_iff in C. destruct C as [C _]. lia. }
    split; [|nia]. rewrite Z.abs_neq by nia. nia.
Qed.

Lemma parseInt10_digits s :
  s <> EmptyString -> existsStr (fun c => negb (isDigit c)) s = false ->
  parseInt10 s = withSign 1 (nearestDouble (decimalValue s)).
Proof.
  intros Hne Hd. destruct s as [|c r]; [contradiction|].
  pose proof Hd as Hd'. cbn [existsStr] in Hd'. apply orb_false_iff in Hd'.
  destruct Hd' as [Hc _]. apply negb_false_iff in Hc. unfold isDigit in Hc.
  assert (R : 48 <= code c <= 57) by lia.
  unfold parseInt10. rewrite trimStart_not_blank by lia. code_cmp.
  rewrite span_all_digits by exact Hd. cbn [fst]. reflexivity.
Qed.

(** C6, as stated, fails on digits=abc: the field is NaN, not 6. *)
Lemma parseOtpAuthUrl_unparseable_digits :
  let url := "otpauth://totp/x?secret=AB&digits=abc" in
  let u := mkURL "otpauth" (Some "totp") None (ListPath ["x"])
                 (Some "secret=AB&digits=abc") in
  newURL url = Normal u
  /\ get (searchParams u) "digits" = Some "abc"
  /\ parseOtpAuthUrl url = Some (mkParsed EmptyString "x" "AB" NaN (Num 30))
  /\ NaN <> Num 6.
Proof.
  cbv zeta. split; [vm_compute; reflexivity|]. split; [vm_compute; reflexivity|].
  split; [vm_compute; reflexivity | discriminate].
Qed.

(** C6, amended. In a successful result digits is 6 when the digits
    parameter is absent or empty and otherwise parseInt of its value in
    base 10, and period is 30 or parseInt of its value likewise; parseInt
    of a string of digits is the double nearest to the integer it spells:
    that integer up to 2^53, beyond it a multiple of the spacing of the
    doubles no further from the integer than half that spacing
    (9007199254740993 reads as 9007199254740992), or Infinity; and parseInt
    of a value that starts with a visible ASCII character other than a
    digit or a sign is NaN. *)
Theorem parseOtpAuthUrl_digits_period (url : string) (r : parsedUrl) :
  parseOtpAuthUrl url = Some r ->
  (exists u,
     newURL url = Normal u
     /\ digits r = match get (searchParams u) "digits" with
                   | None | Some EmptyString => Num 6
                   | Some v => parseInt10 v
                   end
     /\ period r = match get (searchParams u) "period" with
                   | None | Some EmptyString => Num 30
                   | Some v => parseInt10 v
                   end)
  /\ (forall v, v <> EmptyString ->
                existsStr (fun c => negb (isDigit c)) v = false ->
                (decimalValue v <= 2 ^ 53 -> parseInt10 v = Num (decimalValue v))
                /\ (2 ^ 53 < decimalValue v ->
                    parseInt10 v = PosInf
                    \/ exists x,
                         parseInt10 v = Num x
                         /\ x mod 2 ^ (Z.log2 (decimalValue v) - 52) = 0
                         /\ 2 * Z.abs (x - decimalValue v)
                            <= 2 ^ (Z.log2 (decimalValue v) - 52)))
  /\ parseInt10 "9007199254740993" = Num 9007199254740992
  /\ (forall c v, 33 <= code c <= 127 -> isDigit c = false ->
                  code c <> 43 -> code c <> 45 ->
                  parseInt10 (String c v) = NaN).
Proof.
  intros H. split; [|split; [|split; [vm_compute; reflexivity | apply parseInt10_no_digit]]].
  2:{ intros v Hne Hd. rewrite (parseInt10_digits v Hne Hd). split.
      - intros Hs. rewrite nearestDouble_exact by exact Hs.
        cbn [withSign]. rewrite Z.mul_1_l. reflexivity.
      - intros Hl. destruct (nearestDouble (decimalValue v)) as [x| | |] eqn:E.
        + right. exists x. cbn [withSign]. rewrite Z.mul_1_l.
          split; [reflexivity|].
          destruct (nearestDouble_nearest _ _ Hl E) as (_ & M & A & _).
          split; assumption.
        + left. reflexivity.
        + exfalso. unfold nearestDouble in E.
          destruct (decimalValue v <=? 2 ^ 53); [discriminate|]. cbv zeta in E.
          match type of E with (if ?c then _ else _) = _ => destruct c end;
            discriminate.
        + exfalso. unfold nearestDouble in E.
          destruct (decimalValue v <=? 2 ^ 53); [discriminate|]. cbv zeta in E.
          match type of E with (if ?c then _ else _) = _ => destruct c end;
            discriminate. }
  destruct (parseOtpAuthUrl_accepts url r H)
    as (u & label & Hu & _ & _ & _ & _ & _ & Hd & Hp & _).
  exists u. split; [exact Hu|]. rewrite Hd, Hp. unfold orElse.
  split.
  - destruct (get (searchParams u) "digits") as [[|c s]|]; reflexivity.
  - destruct (get (searchParams u) "period") as [[|c s]|]; reflexivity.
Qed.

(** digits=8 and period=6x. *)
Lemma parseOtpAuthUrl_digits_period_witness :
  exists u,
    newURL "otpauth://totp/x?secret=AB&digits=8&period=6x" = Normal u
    /\ Num 8 = match get (searchParams u) "digits" with
               | None | Some EmptyString => Num 6
               | Some v => parseInt10 v
               end
    /\ Num 6 = match get (searchParams u) "period" with
               | None | Some EmptyString => Num 30
               | Some v => parseInt10 v
               end.
Proof.
  refine (proj1 (parseOtpAuthUrl_digits_period
                  "otpauth://totp/x?secret=AB&digits=8&period=6x"
                  (mkParsed EmptyString "x" "AB" (Num 8) (Num 6)) _)).
  vm_compute. reflexivity.
Defined.

(** C7, as stated, fails when the issuer parameter is present and empty:
    the text before the colon becomes the issuer all the same. *)
Lemma parseOtpAuthUrl_empty_issuer_parameter :
  let url := "otpauth://totp/GitHub:alice?secret=ABCDEFGH&issuer=" in
  let u := mkURL "otpauth" (Some "totp") None (ListPath ["GitHub:alice"])
                 (Some "secret=ABCDEFGH&issuer=") in
  newURL url = Normal u
  /\ get (searchParams u) "issuer" = Some EmptyString
  /\ parseOtpAuthUrl url
     = Some (mkParsed "GitHub" "alice" "ABCDEFGH" (Num 6) (Num 30)).
Proof.
  cbv zeta. repeat split; vm_compute; reflexivity.
Qed.

(** C7, amended. For an accepted URL whose decoded label holds a colon,
    the account is everything after the first colon and the issuer is the
    issuer parameter, or the text before the first colon when that
    parameter is absent or empty; without a colon the account is the whole
    label and the issuer the parameter or the empty string.  The GitHub
    example yields issuer GitHub, account alice, secret ABCDEFGH, digits 6,
    period 30. *)
Theorem parseOtpAuthUrl_label (url : string) (r : parsedUrl) :
  parseOtpAuthUrl url = Some r ->
  (exists u label,
     newURL url = Normal u
     /\ decodeURIComponent (slice1 (pathname u)) = Normal label
     /\ let q := orElse (get (searchParams u) "issuer") EmptyString in
        (includes label ":" = true ->
         exists before after,
           label = (before ++ String ":" after)%string
           /\ includes before ":" = false
           /\ account r = after
           /\ issuer r = match q with EmptyString => before | _ => q end)
        /\ (includes label ":" = false -> account r = label /\ issuer r = q))
  /\ parseOtpAuthUrl "otpauth://totp/GitHub:alice?secret=ABCDEFGH&issuer=GitHub"
     = Some (mkParsed "GitHub" "alice" "ABCDEFGH" (Num 6) (Num 30)).
Proof.
  intros H. split; [|vm_compute; reflexivity].
  destruct (parseOtpAuthUrl_accepts url r H)
    as (u & label & Hu & _ & _ & Hl & _ & _ & _ & _ & Hq).
  exists u, label. split; [exact Hu|]. split; [exact Hl|].
  cbv zeta in *. split.
  - intros Hi. rewrite Hi in Hq. destruct Hq as [Hq1 Hq2].
    destruct (split_at_first ":" label Hi) as (before & after & E & Hb & Hh & Ht).
    exists before, after. rewrite Hq1, Hq2, Hh, Ht. repeat split; assumption.
  - intros Hi. rewrite Hi in Hq. destruct Hq as [Hq1 Hq2]. split; assumption.
Qed.

(** A label with an escaped colon and two more. *)
Lemma parseOtpAuthUrl_label_witness :
  exists u label,
    newURL "otpauth://totp/a%3Ab:c:d?secret=AB" = Normal u
    /\ decodeURIComponent (slice1 (pathname u)) = Normal label
    /\ let q := orElse (get (searchParams u) "issuer") EmptyString in
       (includes label ":" = true ->
        exists before after,
          label = (before ++ String ":" after)%string
          /\ includes before ":" = false
          /\ "b:c:d" = after
          /\ "a" = match q with EmptyString => before | _ => q end)
       /\ (includes label ":" = false -> "b:c:d" = label /\ "a" = q).
Proof.
  refine (proj1 (parseOtpAuthUrl_label
                  "otpauth://totp/a%3Ab:c:d?secret=AB"
                  (mkParsed "a" "b:c:d" "AB" (Num 6) (Num 30)) _)).
  vm_compute. reflexivity.
Defined.

(** * Properties of the commands, the account file and the display *)

Import Cli Rfc4648.

(** ** More on generateTOTP *)

Lemma base32Decode_length encoded :
  Z.of_nat (List.length (base32Decode encoded)) = 5 * numValidSymbols encoded / 8.
Proof.
  unfold base32Decode, numValidSymbols, validSymbols.
  set (l := list_ascii_of_string (cleanInput encoded)).
  assert (C0 : counted init 0) by (unfold counted, init; cbn; lia).
  destruct (loop_counted l init 0 C0) as [H Hb].
  rewrite Z.add_0_l in H.
  apply Z.div_unique with (r := bits (fold_left step l init)); lia.
Qed.

Lemma base32Decode_empty_iff encoded :
  base32Decode encoded = [] <-> numValidSymbols encoded < 2.
Proof.
  pose proof (base32Decode_length encoded) as H.
  assert (Hn : 0 <= numValidSymbols encoded) by (unfold numValidSymbols; lia).
  split.
  - intros E. rewrite E in H. change (Z.of_nat (List.length (@nil Z))) with 0 in H.
    destruct (Z.lt_ge_cases (numValidSymbols encoded) 2) as [L|L]; [exact L|].
    assert (1 <= 5 * numValidSymbols encoded / 8).
    { apply Z.div_le_lower_bound; lia. }
    lia.
  - intros L.
    assert (E : 5 * numValidSymbols encoded / 8 = 0).
    { apply Z.div_small. lia. }
    rewrite E in H.
    destruct (base32Decode encoded); [reflexivity | cbn [List.length] in H; lia].
Qed.

Lemma allDigits_cons c s : allDigits (String c s) = isDigit c && allDigits s.
Proof. unfold allDigits. cbn [existsStr]. destruct (isDigit c); reflexivity. Qed.

Lemma allDigits_app a b : allDigits (a ++ b) = allDigits a && allDigits b.
Proof.
  induction a as [|c a IH]; [reflexivity|].
  cbn [String.append]. rewrite !allDigits_cons, IH. apply andb_assoc.
Qed.

Lemma isDigit_chr z : 48 <= z <= 57 -> isDigit (chr z) = true.
Proof.
  intros H. unfold isDigit. rewrite code_chr by lia.
  apply andb_true_iff. split; apply Z.leb_le; lia.
Qed.

Lemma digitsOf_digits fuel : forall n acc,
  allDigits acc = true -> allDigits (digitsOf fuel n acc) = true.
Proof.
  induction fuel as [|f IH]; intros n acc H; cbn [digitsOf]; [exact H|].
  assert (D : allDigits (String (chr (48 + n mod 10)) acc) = true).
  { rewrite allDigits_cons, H, isDigit_chr; [reflexivity|].
    pose proof (Z.mod_pos_bound n 10). lia. }
  destruct (n / 10 =? 0); [exact D | apply IH; exact D].
Qed.

Lemma toString_digits n : 0 <= n -> allDigits (toString n) = true.
Proof.
  intros H. unfold toString. destruct (Z.ltb_spec n 0); [lia|].
  apply digitsOf_digits. reflexivity.
Qed.

Lemma zeros_digits k : allDigits (zeros k) = true.
Proof.
  unfold zeros. induction k as [|k IH]; [reflexivity|].
  cbn [repeat string_of_list_ascii]. rewrite allDigits_cons, IH. reflexivity.
Qed.

Lemma resolved_code_shape
  (secret : string) (digits : nat) (period now : Z) (code : string) :
  generateTOTP secret digits period now = Resolved code ->
  allDigits code = true
  /\ ((1 <= digits)%nat -> String.length code = digits)
  /\ (digits = 0%nat -> code = "0").
Proof.
  intros Hgen. unfold generateTOTP in Hgen. cbv zeta in Hgen.
  destruct (hmacSha1_cases (base32Decode secret) (timeBuffer (timeStep now period)))
    as [[_ E] | [_ E]]; rewrite E in Hgen; cbn [await] in Hgen; [discriminate|].
  injection Hgen as Hcode.
  set (h := WebCrypto.hmac (base32Decode secret) (timeBuffer (timeStep now period))) in *.
  destruct (hmac_digest (base32Decode secret) (timeBuffer (timeStep now period)))
    as [_ Hbytes]. fold h in Hbytes.
  destruct (truncate_mod h digits Hbytes) as [_ Hr].
  split; [|split].
  - rewrite <- Hcode. unfold padStart.
    destruct (Z.of_nat digits <=? strlen (toString (truncate h digits))).
    + apply toString_digits. lia.
    + rewrite fillTo_zeros by (left; reflexivity).
      rewrite allDigits_app, zeros_digits, toString_digits by lia. reflexivity.
  - intros H1. pose proof (toString_length _ digits Hr H1) as Hl.
    destruct (padStart_zeros _ digits Hl) as [_ Hn]. rewrite Hcode in Hn. exact Hn.
  - intros ->. change (10 ^ Z.of_nat 0) with 1 in Hr.
    assert (E0 : truncate h 0 = 0) by lia.
    rewrite E0 in Hcode. rewrite <- Hcode. reflexivity.
Qed.

(** X1. Every code generateTOTP resolves with is a string of decimal
    digits, for every natural [digits]: it has exactly [digits] characters
    when [digits] is 1 or more, and is the one character 0 when [digits]
    is 0. *)
Theorem generateTOTP_code_shape
  (secret : string) (digits : nat) (period now : Z) (code : string) :
  generateTOTP secret digits period now = Resolved code ->
  allDigits code = true
  /\ ((1 <= digits)%nat -> String.length code = digits)
  /\ (digits = 0%nat -> code = "0").
Proof. apply resolved_code_shape. Qed.

Lemma generateTOTP_code_shape_witness :
  allDigits "94287082" = true.
Proof.
  refine (proj1 (generateTOTP_code_shape
                   "GEZDGNBVGY3TQOJQGEZDGNBVGY3TQOJQ" 8 30 59000 "94287082" _)).
  vm_compute. reflexivity.
Defined.

Lemma resolves_iff_two_symbols
  (secret : string) (digits : nat) (period now : Z) :
  ((exists code, generateTOTP secret digits period now = Resolved code)
   <-> 2 <= numValidSymbols secret)
  /\ (generateTOTP secret digits period now = Rejected "DataError"
      <-> numValidSymbols secret < 2).
Proof.
  pose proof (base32Decode_empty_iff secret) as He.
  unfold generateTOTP. cbv zeta.
  destruct (hmacSha1_cases (base32Decode secret) (timeBuffer (timeStep now period)))
    as [[Hk E] | [Hk E]]; rewrite E; cbn [await].
  - apply He in Hk. split; split.
    + intros [code H]. discriminate.
    + lia.
    + intros _. exact Hk.
    + reflexivity.
  - assert (~ numValidSymbols secret < 2) by (intros L; apply Hk, He, L).
    split; split.
    + lia.
    + intros _. eexists. reflexivity.
    + discriminate.
    + lia.
Qed.

(** X2. The promise of generateTOTP is rejected with the DataError of
    importKey exactly when the secret has fewer than two alphabet
    characters, whatever the digits, the period and the clock, and it
    resolves with a code only when the secret has two or more.  With two
    or more, and a number of digits up to [safeLength], far inside the
    string limit within which padStart builds its result, it does resolve,
    with a code of [digits] characters (one character for digits 0).
    Past the string limit of the engine padStart throws a RangeError,
    which the model does not follow. *)
Theorem generateTOTP_resolves_iff
  (secret : string) (digits : nat) (period now : Z) :
  (generateTOTP secret digits period now = Rejected "DataError"
   <-> numValidSymbols secret < 2)
  /\ ((exists code, generateTOTP secret digits period now = Resolved code) ->
      2 <= numValidSymbols secret)
  /\ (Z.of_nat digits <= safeLength ->
      2 <= numValidSymbols secret ->
      exists code,
        generateTOTP secret digits period now = Resolved code
        /\ String.length code = Nat.max digits 1).
Proof.
  destruct (resolves_iff_two_symbols secret digits period now) as [R D].
  split; [exact D|]. split; [apply R|].
  intros _ H. destruct (proj2 R H) as [code Hc].
  exists code. split; [exact Hc|].
  destruct (resolved_code_shape secret digits period now code Hc) as (_ & L1 & L0).
  destruct digits as [|n].
  - rewrite (L0 eq_refl). reflexivity.
  - rewrite L1 by lia. lia.
Qed.

Lemma generateTOTP_resolves_iff_witness :
  exists code,
    generateTOTP "GEZDGNBVGY3TQOJQGEZDGNBVGY3TQOJQ" 8 30 59000 = Resolved code
    /\ String.length code = Nat.max 8 1.
Proof.
  refine (proj2 (proj2 (generateTOTP_resolves_iff
                          "GEZDGNBVGY3TQOJQGEZDGNBVGY3TQOJQ" 8 30 59000)) _ _).
  - vm_compute. discriminate.
  - vm_compute. discriminate.
Defined.

(** ** The code and the countdown *)

Lemma generateTOTP_same_step secret digits period now now' :
  timeStep now period = timeStep now' period ->
  generateTOTP secret digits period now = generateTOTP secret digits period now'.
Proof. intros H. unfold generateTOTP. cbv zeta. rewrite H. reflexivity. Qed.

Lemma step_bounds period now :
  0 < period -> 0 <= now ->
  let q := now / 1000 / period in
  let r := period - (now / 1000) mod period in
  1000 * period * q <= now
  /\ now + (1000 * r - now mod 1000) = 1000 * period * (q + 1).
Proof.
  intros Hp Hn q r.
  pose proof (Z.div_mod now 1000 ltac:(lia)) as E1.
  pose proof (Z.mod_pos_bound now 1000 ltac:(lia)) as B1.
  pose proof (Z.div_mod (now / 1000) period ltac:(lia)) as E2.
  pose proof (Z.mod_pos_bound (now / 1000) period ltac:(lia)) as B2.
  subst q r. set (s := now / 1000) in *. set (m := now mod 1000) in *.
  set (q := s / period) in *. set (t := s mod period) in *.
  split; nia.
Qed.

(** X3. The countdown and the code agree.  For a positive period and a
    clock at or after the epoch, getTimeRemaining gives a number of
    seconds r with 1 <= r <= period; the code is the same at every
    millisecond before the boundary that lies r whole seconds ahead; at
    that boundary the time counter is one more and getTimeRemaining is
    the whole period again. *)
Theorem code_holds_until_countdown_ends
  (secret : string) (digits : nat) (period now : Z) :
  0 < period -> 0 <= now ->
  exists r,
    getTimeRemaining period now = Num r
    /\ 1 <= r <= period
    /\ let left := 1000 * r - now mod 1000 in
       0 < left <= 1000 * period
       /\ (forall d, 0 <= d < left ->
             generateTOTP secret digits period (now + d)
             = generateTOTP secret digits period now)
       /\ timeStep (now + left) period = Num (now / 1000 / period + 1)
       /\ getTimeRemaining period (now + left) = Num period.
Proof.
  intros Hp Hn.
  assert (Hs : 0 <= now / 1000) by (apply Z.div_pos; lia).
  pose proof (Z.mod_pos_bound (now / 1000) period Hp) as Ht.
  pose proof (Z.mod_pos_bound now 1000 ltac:(lia)) as Hm.
  exists (period - (now / 1000) mod period).
  split.
  { unfold getTimeRemaining. destruct (Z.eqb_spec period 0); [lia|].
    rewrite Z.rem_mod_nonneg by lia. reflexivity. }
  split; [lia|].
  destruct (step_bounds period now Hp Hn) as [Hlo Hhi]. cbv zeta in *.
  set (left := 1000 * (period - (now / 1000) mod period) - now mod 1000) in *.
  set (q := now / 1000 / period) in *.
  split; [lia|]. split; [|split].
  - intros d Hd. apply generateTOTP_same_step.
    rewrite !timeStep_seconds by exact Hp. f_equal. fold q.
    rewrite Z.div_div by lia.
    symmetry. apply Z.div_unique with (r := now + d - 1000 * period * q); lia.
  - rewrite timeStep_seconds by exact Hp. f_equal.
    rewrite Z.div_div by lia. rewrite Hhi.
    rewrite Z.mul_comm. apply Z.div_mul. lia.
  - unfold getTimeRemaining. destruct (Z.eqb_spec period 0); [lia|].
    f_equal. rewrite Hhi.
    replace (1000 * period * (q + 1)) with (period * (q + 1) * 1000) by lia.
    rewrite Z.div_mul by lia.
    rewrite Z.rem_mod_nonneg by nia.
    rewrite Z.mul_comm, Z.mod_mul by lia. lia.
Qed.

Lemma code_holds_until_countdown_ends_witness :
  exists r,
    getTimeRemaining 30 59250 = Num r
    /\ 1 <= r <= 30
    /\ let left := 1000 * r - 59250 mod 1000 in
       0 < left <= 1000 * 30
       /\ (forall d, 0 <= d < left ->
             generateTOTP "GEZDGNBVGY3TQOJQGEZDGNBVGY3TQOJQ" 8 30 (59250 + d)
             = generateTOTP "GEZDGNBVGY3TQOJQGEZDGNBVGY3TQOJQ" 8 30 59250)
       /\ timeStep (59250 + left) 30 = Num (59250 / 1000 / 30 + 1)
       /\ getTimeRemaining 30 (59250 + left) = Num 30.
Proof.
  apply (code_holds_until_countdown_ends "GEZDGNBVGY3TQOJQGEZDGNBVGY3TQOJQ" 8 30 59250);
    lia.
Defined.

(** ** Keys the add command accepts *)

Lemma isSymbol_alphabet c : isSymbol c = isAlphabetChar c.
Proof.
  destruct c as [[] [] [] [] [] [] [] []]; vm_compute; reflexivity.
Qed.

Lemma isSymbol_code c : isSymbol c = true -> 50 <= code c <= 90.
Proof.
  rewrite isSymbol_alphabet. unfold isAlphabetChar. lia.
Qed.

Lemma not_symbol c : ~ (50 <= code c <= 90) -> isSymbol c = false.
Proof.
  intros H. destruct (isSymbol c) eqn:E; [|reflexivity].
  apply isSymbol_code in E. contradiction.
Qed.

(** Induction on a string with every shorter string at hand, for the
    functions that read up to three bytes at a time. *)
Lemma string_length_ind (P : string -> Prop) :
  (forall s, (forall t, (String.length t < String.length s)%nat -> P t) -> P s) ->
  forall s, P s.
Proof.
  intros H s.
  assert (G : forall n t, (String.length t < n)%nat -> P t).
  { induction n as [|n IH]; intros t Ht; [lia|].
    apply H. intros u Hu. apply IH. lia. }
  apply (G (S (String.length s))). lia.
Qed.

Lemma symbolsOf_cons c s :
  symbolsOf (String c s) = if isSymbol c then c :: symbolsOf s else symbolsOf s.
Proof. reflexivity. Qed.

Lemma symbolsOf_app a b : symbolsOf (a ++ b) = symbolsOf a ++ symbolsOf b.
Proof.
  induction a as [|c a IH]; [reflexivity|].
  cbn [String.append]. rewrite !symbolsOf_cons, IH.
  destruct (isSymbol c); reflexivity.
Qed.

Lemma symbolsOf_removeWs s : symbolsOf (removeWs s) = symbolsOf s.
Proof.
  induction s as [s IH] using string_length_ind.
  destruct s as [|c1 s1]; [reflexivity|].
  cbn [removeWs].
  destruct (isWs1 c1) eqn:W1.
  { rewrite symbolsOf_cons, not_symbol; [apply IH; cbn; lia|].
    unfold isWs1 in W1. lia. }
  assert (Hdef : symbolsOf (String c1 (removeWs s1)) = symbolsOf (String c1 s1)).
  { rewrite !symbolsOf_cons, IH by (cbn; lia). reflexivity. }
  destruct s1 as [|c2 s2]; [exact Hdef|].
  destruct (isWs2 c1 c2) eqn:W2.
  { unfold isWs2 in W2.
    rewrite !symbolsOf_cons, !not_symbol by lia. apply IH. cbn. lia. }
  destruct s2 as [|c3 s3]; [exact Hdef|].
  destruct (isWs3 c1 c2 c3) eqn:W3; [|exact Hdef].
  unfold isWs3 in W3.
  rewrite !symbolsOf_cons, !not_symbol by lia. apply IH. cbn. lia.
Qed.

Lemma symbolsOf_stripTrailingEq s : symbolsOf (stripTrailingEq s) = symbolsOf s.
Proof.
  induction s as [|c r IH]; [reflexivity|].
  cbn [stripTrailingEq]. rewrite symbolsOf_cons.
  destruct (stripTrailingEq r) as [|c' r'] eqn:E.
  - rewrite <- IH. cbn [symbolsOf list_ascii_of_string filter].
    destruct (Ascii.eqb_spec c "="%char) as [->|Hne].
    + reflexivity.
    + rewrite symbolsOf_cons. reflexivity.
  - rewrite symbolsOf_cons, IH. reflexivity.
Qed.

Lemma upper_none_ascii c1 :
  code c1 < 128 ->
  (forall c2, upper2 c1 c2 = None) /\ (forall c2 c3, upper3 c1 c2 c3 = None).
Proof.
  intros H. split; intros; unfold upper2, upper3; code_cmp; reflexivity.
Qed.

Lemma upperChar_symbol c : isSymbol c = true -> upperChar c = c.
Proof.
  intros H. apply isSymbol_code in H. unfold upperChar. code_cmp. reflexivity.
Qed.

Lemma toUpperCase_ascii c s :
  code c < 128 -> toUpperCase (String c s) = String (upperChar c) (toUpperCase s).
Proof.
  intros H. destruct (upper_none_ascii c H) as [U2 U3].
  cbn [toUpperCase]. destruct s as [|c2 s2]; [reflexivity|].
  rewrite U2. destruct s2 as [|c3 s3]; [reflexivity|].
  rewrite U3. reflexivity.
Qed.

Lemma symbolsOf_toUpperCase s :
  (List.length (symbolsOf s) <= List.length (symbolsOf (toUpperCase s)))%nat.
Proof.
  induction s as [s IH] using string_length_ind.
  destruct s as [|c1 s1]; [apply Nat.le_refl|].
  destruct (isSymbol c1) eqn:S1.
  { pose proof (isSymbol_code c1 S1).
    rewrite toUpperCase_ascii by lia. rewrite (upperChar_symbol c1 S1).
    rewrite !symbolsOf_cons, S1. cbn [List.length].
    apply le_n_S, IH. cbn. lia. }
  rewrite symbolsOf_cons, S1.
  assert (Hdef : (List.length (symbolsOf s1)
                  <= List.length (symbolsOf (String (upperChar c1) (toUpperCase s1))))%nat).
  { rewrite symbolsOf_cons.
    assert (L := IH s1 ltac:(cbn; lia)).
    destruct (isSymbol (upperChar c1)); cbn [List.length]; lia. }
  cbn [toUpperCase].
  destruct s1 as [|c2 s2]; [cbn; lia|].
  destruct (upper2 c1 c2) as [u|] eqn:U2.
  { rewrite symbolsOf_app, length_app.
    assert (C2 : isSymbol c2 = false).
    { apply not_symbol. unfold upper2 in U2.
      destruct ((code c1 =? 195) && (code c2 =? 159)) eqn:E1; [lia|].
      destruct ((code c1 =? 196) && (code c2 =? 177)) eqn:E2; [lia|].
      destruct ((code c1 =? 197) && (code c2 =? 191)) eqn:E3; [lia|].
      destruct ((code c1 =? 197) && (code c2 =? 137)) eqn:E4; [lia|].
      destruct ((code c1 =? 199) && (code c2 =? 176)) eqn:E5; [lia|].
      discriminate. }
    rewrite symbolsOf_cons, C2.
    assert (L := IH s2 ltac:(cbn; lia)). lia. }
  destruct s2 as [|c3 s3]; [exact Hdef|].
  destruct (upper3 c1 c2 c3) as [u|] eqn:U3; [|exact Hdef].
  rewrite symbolsOf_app, length_app.
  assert (C23 : isSymbol c2 = false /\ isSymbol c3 = false).
  { unfold upper3 in U3.
    destruct ((code c1 =? 225) && (code c2 =? 186)) eqn:E1.
    - split; apply not_symbol; [lia|].
      destruct (code c3 =? 150) eqn:F1; [lia|].
      destruct (code c3 =? 151) eqn:F2; [lia|].
      destruct (code c3 =? 152) eqn:F3; [lia|].
      destruct (code c3 =? 153) eqn:F4; [lia|].
      destruct (code c3 =? 154) eqn:F5; [lia|]. discriminate.
    - destruct ((code c1 =? 239) && (code c2 =? 172)) eqn:E2; [|discriminate].
      split; apply not_symbol; [lia|].
      destruct (code c3 =? 128) eqn:F1; [lia|].
      destruct (code c3 =? 129) eqn:F2; [lia|].
      destruct (code c3 =? 130) eqn:F3; [lia|].
      destruct (code c3 =? 131) eqn:F4; [lia|].
      destruct (code c3 =? 132) eqn:F5; [lia|].
      destruct ((code c3 =? 133) || (code c3 =? 134)) eqn:F6; [lia|]. discriminate. }
  destruct C23 as [C2 C3].
  rewrite !symbolsOf_cons, C2, C3.
  assert (L := IH s3 ltac:(cbn; lia)). lia.
Qed.

Lemma numValidSymbols_symbolsOf s :
  numValidSymbols s = Z.of_nat (List.length (symbolsOf (toUpperCase s))).
Proof.
  unfold numValidSymbols, validSymbols, cleanInput.
  fold (symbolsOf (removeWs (stripTrailingEq (toUpperCase s)))).
  rewrite symbolsOf_removeWs, symbolsOf_stripTrailingEq. reflexivity.
Qed.

Lemma matchesAlphabet_symbols s :
  matchesAlphabet s = true -> symbolsOf s = list_ascii_of_string s.
Proof.
  unfold matchesAlphabet. destruct s as [|c0 s0]; [discriminate|].
  generalize (String c0 s0). clear. intros s H.
  apply negb_true_iff in H.
  induction s as [|c r IH]; [reflexivity|].
  cbn [existsStr] in H. apply orb_false_iff in H. destruct H as [Hc Hr].
  apply negb_false_iff in Hc.
  rewrite symbolsOf_cons, isSymbol_alphabet, Hc, (IH Hr). reflexivity.
Qed.

Lemma length_list_ascii s :
  List.length (list_ascii_of_string s) = String.length s.
Proof. induction s as [|c r IH]; [reflexivity | cbn; rewrite IH; reflexivity]. Qed.

Lemma isValidBase32_symbols key :
  isValidBase32 key = true -> 16 <= numValidSymbols key.
Proof.
  unfold isValidBase32. cbv zeta. intros H.
  apply andb_true_iff in H. destruct H as [Hm Hl].
  apply Z.leb_le in Hl. unfold strlen in Hl.
  apply matchesAlphabet_symbols in Hm.
  rewrite symbolsOf_stripTrailingEq, symbolsOf_removeWs in Hm.
  rewrite numValidSymbols_symbolsOf, Hm, length_list_ascii. exact Hl.
Qed.

Lemma valid_key_symbols key :
  isValidBase32 key = true -> 16 <= numValidSymbols (toUpperCase key).
Proof.
  intros H. pose proof (isValidBase32_symbols key H) as Hk.
  rewrite numValidSymbols_symbolsOf in Hk.
  rewrite numValidSymbols_symbolsOf.
  pose proof (symbolsOf_toUpperCase (toUpperCase key)). lia.
Qed.

(** X5. A key that passes isValidBase32 is one generateTOTP accepts: in
    upper case, as cmdAdd stores it, it has sixteen alphabet characters or
    more, decodes to ten bytes or more, and yields a code of six decimal
    digits at any time. *)
Theorem valid_key_yields_codes (key : string) (now : Z) :
  isValidBase32 key = true ->
  let stored := toUpperCase key in
  16 <= numValidSymbols stored
  /\ 10 <= Z.of_nat (List.length (base32Decode stored))
  /\ exists code,
       generateTOTP stored 6 30 now = Resolved code
       /\ String.length code = 6%nat
       /\ allDigits code = true.
Proof.
  intros H stored.
  assert (H16 : 16 <= numValidSymbols stored) by (apply valid_key_symbols; exact H).
  split; [exact H16|]. split.
  - rewrite base32Decode_length. apply Z.div_le_lower_bound; lia.
  - destruct (proj1 (resolves_iff_two_symbols stored 6 30 now)) as [_ Hex].
    destruct (Hex ltac:(lia)) as [code Hc].
    exists code. split; [exact Hc|].
    destruct (resolved_code_shape stored 6 30 now code Hc) as (Hd & Hl & _).
    split; [apply Hl; lia | exact Hd].
Qed.

Lemma valid_key_yields_codes_witness :
  let stored := toUpperCase "jbswy3dp ehpk3pxp" in
  16 <= numValidSymbols stored
  /\ 10 <= Z.of_nat (List.length (base32Decode stored))
  /\ exists code,
       generateTOTP stored 6 30 59000 = Resolved code
       /\ String.length code = 6%nat
       /\ allDigits code = true.
Proof.
  refine (valid_key_yields_codes "jbswy3dp ehpk3pxp" 59000 _).
  vm_compute. reflexivity.
Defined.

(** ** The decoder undoes the encoding of RFC 4648 *)

Lemma base32Decode_decodeSpec s : base32Decode s = decodeSpec s.
Proof.
  unfold base32Decode, decodeSpec, validSymbols.
  destruct (loop_simulates (list_ascii_of_string (cleanInput s)) init ([], [])
              related_init) as [H _].
  exact H.
Qed.

Lemma validSymbols_symbolsOf s : validSymbols s = symbolsOf (toUpperCase s).
Proof.
  unfold validSymbols, cleanInput.
  fold (symbolsOf (removeWs (stripTrailingEq (toUpperCase s)))).
  rewrite symbolsOf_removeWs, symbolsOf_stripTrailingEq. reflexivity.
Qed.

Lemma toUpperCase_fixed s :
  Forall (fun c => code c < 97) (list_ascii_of_string s) -> toUpperCase s = s.
Proof.
  induction s as [|c r IH]; intros H; [reflexivity|].
  cbn [list_ascii_of_string] in H. inversion H as [|? ? Hc Hr]; subst.
  rewrite toUpperCase_ascii by lia. rewrite (IH Hr). f_equal.
  unfold upperChar. code_cmp. reflexivity.
Qed.

Lemma octets_short bs : (List.length bs < 8)%nat -> octets bs = [].
Proof.
  intros H. do 8 (destruct bs as [|? bs]; [reflexivity|]). cbn in H. lia.
Qed.

Lemma octets_app bs more :
  (8 <= List.length bs)%nat ->
  octets (bs ++ more) = bitsValue (firstn 8 bs) :: octets (skipn 8 bs ++ more).
Proof.
  intros H. do 8 (destruct bs as [|? bs]; [cbn in H; lia|]). reflexivity.
Qed.

Lemma symbolBits_length c : List.length (symbolBits c) = 5%nat.
Proof. reflexivity. Qed.

(** The bit buffer, fed symbol by symbol, emits the octets of the bits. *)
Lemma accumulate_octets syms : forall out buf,
  (List.length buf < 8)%nat ->
  fst (fold_left accumulate syms (out, buf))
  = out ++ octets (buf ++ flat_map symbolBits syms).
Proof.
  induction syms as [|c syms IH]; intros out buf Hb; cbn [fold_left flat_map].
  - rewrite app_nil_r, octets_short by exact Hb. cbn [fst]. rewrite app_nil_r.
    reflexivity.
  - unfold accumulate at 2. cbn [fst snd].
    assert (Hl : List.length (buf ++ symbolBits c) = (List.length buf + 5)%nat).
    { rewrite length_app. reflexivity. }
    rewrite (app_assoc buf).
    destruct (Nat.leb_spec 8 (List.length (buf ++ symbolBits c))) as [G|G].
    + rewrite IH by (rewrite length_skipn; lia).
      rewrite (octets_app (buf ++ symbolBits c) (flat_map symbolBits syms) G).
      rewrite <- app_assoc. reflexivity.
    + apply IH. exact G.
Qed.

Lemma decodeSpec_octets s :
  decodeSpec s = octets (flat_map symbolBits (validSymbols s)).
Proof.
  unfold decodeSpec. rewrite accumulate_octets by (cbn; lia). reflexivity.
Qed.

(** Quintets. *)

Lemma list_length_ind {A : Type} (P : list A -> Prop) :
  (forall l, (forall t, (List.length t < List.length l)%nat -> P t) -> P l) ->
  forall l, P l.
Proof.
  intros H l.
  assert (G : forall n t, (List.length t < n)%nat -> P t).
  { induction n as [|n IH]; intros t Ht; [lia|].
    apply H. intros u Hu. apply IH. lia. }
  apply (G (S (List.length l))). lia.
Qed.

Lemma quintets_spec bs :
  Forall (fun q => List.length q = 5%nat) (quintets bs)
  /\ exists pad, List.concat (quintets bs) = bs ++ pad /\ (List.length pad < 5)%nat.
Proof.
  induction bs as [bs IH] using list_length_ind.
  destruct bs as [|b4 [|b3 [|b2 [|b1 [|b0 more]]]]].
  - split; [constructor|]. exists []. split; [reflexivity | cbn; lia].
  - split; [repeat constructor|]. exists (repeat false 4). split; [reflexivity | cbn; lia].
  - split; [repeat constructor|]. exists (repeat false 3). split; [reflexivity | cbn; lia].
  - split; [repeat constructor|]. exists (repeat false 2). split; [reflexivity | cbn; lia].
  - split; [repeat constructor|]. exists (repeat false 1). split; [reflexivity | cbn; lia].
  - destruct (IH more ltac:(cbn; lia)) as [F (pad & E & L)].
    cbn [quintets]. split; [constructor; [reflexivity | exact F]|].
    exists pad. split; [|exact L].
    cbn [List.concat]. rewrite E. reflexivity.
Qed.

Lemma symbolOf_spec q :
  List.length q = 5%nat ->
  symbolBits (symbolOf q) = q
  /\ isSymbol (symbolOf q) = true
  /\ code (symbolOf q) < 97.
Proof.
  intros H.
  destruct q as [|b4 [|b3 [|b2 [|b1 [|b0 [|x q]]]]]]; try discriminate H.
  destruct b4, b3, b2, b1, b0; vm_compute; repeat split; reflexivity.
Qed.

Lemma symbols_of_quintets qs :
  Forall (fun q => List.length q = 5%nat) qs ->
  flat_map symbolBits (map symbolOf qs) = List.concat qs
  /\ filter isSymbol (map symbolOf qs) = map symbolOf qs
  /\ Forall (fun c => code c < 97) (map symbolOf qs).
Proof.
  induction 1 as [|q qs Hq Hqs IH]; [repeat split; constructor|].
  destruct (symbolOf_spec q Hq) as (E1 & E2 & E3).
  destruct IH as (I1 & I2 & I3).
  cbn [map flat_map List.concat filter]. rewrite E1, E2, I1, I2.
  repeat split. constructor; assumption.
Qed.

Lemma byteBits_value b : isByte b -> bitsValue (byteBits b) = b.
Proof.
  intros H. unfold isByte in H.
  assert (C : forallb (fun n => bitsValue (byteBits (Z.of_nat n)) =? Z.of_nat n)
                      (seq 0 256) = true) by (vm_compute; reflexivity).
  rewrite forallb_forall in C.
  specialize (C (Z.to_nat b)). rewrite Z2Nat.id in C by lia.
  apply Z.eqb_eq, C, in_seq. lia.
Qed.

Lemma octets_bitsOf bytes pad :
  Forall isByte bytes -> (List.length pad < 8)%nat ->
  octets (bitsOf bytes ++ pad) = bytes.
Proof.
  intros H Hp. induction H as [|b bytes Hb Hbs IH].
  - apply octets_short. exact Hp.
  - unfold bitsOf. cbn [flat_map]. fold (bitsOf bytes).
    rewrite <- app_assoc. rewrite octets_app by (cbn; lia).
    change (skipn 8 (byteBits b)) with (@nil bool).
    change (firstn 8 (byteBits b)) with (byteBits b).
    rewrite byteBits_value by exact Hb. cbn [app]. rewrite IH. reflexivity.
Qed.

Lemma symbolsOf_padded syms k :
  filter isSymbol syms = syms ->
  symbolsOf (string_of_list_ascii (syms ++ repeat "="%char k)) = syms.
Proof.
  intros H. unfold symbolsOf. rewrite list_ascii_of_string_of_list_ascii.
  rewrite filter_app, H.
  assert (E : filter isSymbol (repeat "="%char k) = []).
  { induction k as [|k IH]; [reflexivity | cbn [repeat filter]; exact IH]. }
  rewrite E. apply app_nil_r.
Qed.

Lemma base32Encode_decodes bytes :
  Forall isByte bytes -> base32Decode (base32Encode bytes) = bytes.
Proof.
  intros Hb. rewrite base32Decode_decodeSpec, decodeSpec_octets.
  rewrite validSymbols_symbolsOf.
  destruct (quintets_spec (bitsOf bytes)) as [F (pad & E & L)].
  destruct (symbols_of_quintets _ F) as (E1 & E2 & E3).
  unfold base32Encode. cbv zeta.
  set (syms := map symbolOf (quintets (bitsOf bytes))) in *.
  set (k := ((8 - List.length syms mod 8) mod 8)%nat).
  rewrite toUpperCase_fixed.
  - rewrite symbolsOf_padded by exact E2.
    rewrite E1, E. apply octets_bitsOf; [exact Hb | lia].
  - rewrite list_ascii_of_string_of_list_ascii.
    apply Forall_app. split; [exact E3|].
    apply Forall_forall. intros c Hc. apply repeat_spec in Hc. subst c.
    vm_compute. reflexivity.
Qed.

(** The test vectors of RFC 4648, section 10: the encodings of f, fo,
    foo, foob, fooba and foobar. *)
Example base32Encode_rfc4648_vectors :
  base32Encode [] = EmptyString
  /\ base32Encode [102] = "MY======"
  /\ base32Encode [102; 111] = "MZXQ===="
  /\ base32Encode [102; 111; 111] = "MZXW6==="
  /\ base32Encode [102; 111; 111; 98] = "MZXW6YQ="
  /\ base32Encode [102; 111; 111; 98; 97] = "MZXW6YTB"
  /\ base32Encode [102; 111; 111; 98; 97; 114] = "MZXW6YTBOI======".
Proof. vm_compute. repeat split. Qed.

(** X4. base32Decode undoes the base32 encoding of RFC 4648: the encoding
    of a list of bytes decodes to these bytes, and so does every string
    with the same alphabet characters once in upper case: the encoding in
    lower case, without its padding, or with spaces and dashes between
    groups. *)
Theorem base32Decode_inverts_rfc4648 (bytes : list Z) (s : string) :
  Forall isByte bytes ->
  validSymbols s = validSymbols (base32Encode bytes) ->
  base32Decode (base32Encode bytes) = bytes /\ base32Decode s = bytes.
Proof.
  intros Hb Hs. split.
  - apply base32Encode_decodes. exact Hb.
  - rewrite base32Decode_decodeSpec, decodeSpec_octets, Hs.
    rewrite <- decodeSpec_octets, <- base32Decode_decodeSpec.
    apply base32Encode_decodes. exact Hb.
Qed.

Lemma base32Decode_inverts_rfc4648_witness :
  base32Encode [102; 111; 111; 98; 97; 114] = "MZXW6YTBOI======"
  /\ base32Decode "MZXW6YTBOI======" = [102; 111; 111; 98; 97; 114]
  /\ base32Decode "mzxw-6ytb oi" = [102; 111; 111; 98; 97; 114].
Proof.
  split; [vm_compute; reflexivity|].
  change "MZXW6YTBOI======" with (base32Encode [102; 111; 111; 98; 97; 114]).
  refine (base32Decode_inverts_rfc4648 [102; 111; 111; 98; 97; 114]
            "mzxw-6ytb oi" _ _).
  - repeat constructor; vm_compute; intuition discriminate.
  - vm_compute. reflexivity.
Defined.

(** ** The code on display *)

Lemma isDigit_code c : isDigit c = true -> 48 <= code c <= 57.
Proof. unfold isDigit. lia. Qed.

Lemma isDigit_isDot c : isDigit c = true -> isDot c = true.
Proof. intros H. apply isDigit_code in H. unfold isDot. lia. Qed.

Lemma removeWs_digit c s :
  isDigit c = true -> removeWs (String c s) = String c (removeWs s).
Proof.
  intros H. apply isDigit_code in H. cbn [removeWs].
  replace (isWs1 c) with false by (unfold isWs1; lia).
  destruct s as [|c2 s2]; [reflexivity|].
  replace (isWs2 c c2) with false by (unfold isWs2; lia).
  destruct s2 as [|c3 s3]; [reflexivity|].
  replace (isWs3 c c2 c3) with false by (unfold isWs3; lia).
  reflexivity.
Qed.

Lemma trimStart_digit c s :
  isDigit c = true -> trimStart (String c s) = String c s.
Proof.
  intros H. apply isDigit_code in H. cbn [trimStart].
  replace (isWs1 c) with false by (unfold isWs1; lia).
  destruct s as [|c2 s2]; [reflexivity|].
  replace (isWs2 c c2) with false by (unfold isWs2; lia).
  destruct s2 as [|c3 s3]; [reflexivity|].
  replace (isWs3 c c2 c3) with false by (unfold isWs3; lia).
  reflexivity.
Qed.

Lemma trimEnd_digit c s :
  isDigit c = true -> trimEnd (String c s) = String c (trimEnd s).
Proof.
  intros H. cbn [trimEnd]. rewrite removeWs_digit by exact H. reflexivity.
Qed.

Lemma trimEnd_space_digit c s :
  isDigit c = true ->
  trimEnd (String " " (String c s)) = String " " (String c (trimEnd s)).
Proof.
  intros H. rewrite <- (trimEnd_digit c s H).
  change (trimEnd (String " " (String c s)))
    with (match removeWs (String c s) with
          | EmptyString => EmptyString
          | _ => String " " (trimEnd (String c s))
          end).
  rewrite removeWs_digit by exact H. reflexivity.
Qed.

(** Up to three digits stay as they are; of more, the first three are
    followed by a space and by the rest, formatted. *)
Lemma formatCode_short code :
  allDigits code = true -> (String.length code <= 3)%nat ->
  formatCode code = code.
Proof.
  intros H L. unfold formatCode, trim.
  destruct code as [|c1 [|c2 [|c3 [|c4 r]]]]; cbn in L; try lia;
    repeat rewrite allDigits_cons in H;
    repeat (apply andb_true_iff in H; destruct H as [? H]).
  - reflexivity.
  - cbn [groupThrees]. rewrite trimStart_digit by assumption.
    rewrite trimEnd_digit by assumption. reflexivity.
  - cbn [groupThrees]. rewrite trimStart_digit by assumption.
    rewrite !trimEnd_digit by assumption. reflexivity.
  - cbn [groupThrees]. rewrite !isDigit_isDot by assumption. cbn [andb].
    rewrite trimStart_digit by assumption.
    rewrite !trimEnd_digit by assumption. reflexivity.
Qed.

Lemma formatCode_long c1 c2 c3 c4 r :
  allDigits (String c1 (String c2 (String c3 (String c4 r)))) = true ->
  formatCode (String c1 (String c2 (String c3 (String c4 r))))
  = String c1 (String c2 (String c3 (String " " (formatCode (String c4 r))))).
Proof.
  intros H. repeat rewrite allDigits_cons in H.
  apply andb_true_iff in H. destruct H as [H1 H].
  apply andb_true_iff in H. destruct H as [H2 H].
  apply andb_true_iff in H. destruct H as [H3 H].
  apply andb_true_iff in H. destruct H as [H4 H].
  unfold formatCode, trim.
  assert (E : forall t, groupThrees (String c1 (String c2 (String c3 t)))
                        = String c1 (String c2 (String c3 (String " " (groupThrees t))))).
  { intros t. cbn [groupThrees]. rewrite !isDigit_isDot by assumption. reflexivity. }
  rewrite E. rewrite trimStart_digit by assumption.
  assert (G : exists t, groupThrees (String c4 r) = String c4 t).
  { destruct r as [|c5 [|c6 r']].
    - exists EmptyString. reflexivity.
    - exists (String c5 EmptyString). reflexivity.
    - cbn [groupThrees]. destruct (isDot c4 && isDot c5 && isDot c6); eauto. }
  destruct G as [t G]. rewrite G.
  rewrite trimStart_digit by assumption.
  rewrite !trimEnd_digit by assumption.
  rewrite trimEnd_space_digit by assumption.
  rewrite trimEnd_digit by assumption. reflexivity.
Qed.

Lemma digit_not_space c : isDigit c = true -> Ascii.eqb c " " = false.
Proof.
  intros H. apply isDigit_code in H. apply Ascii.eqb_neq. intros E. subst c.
  vm_compute in H. destruct H as [H _]. apply H. reflexivity.
Qed.

Lemma digits_get s : allDigits s = true ->
  forall i, (i < String.length s)%nat ->
  exists c, String.get i s = Some c /\ isDigit c = true.
Proof.
  induction s as [|c s IH]; intros H i L; cbn in L; [lia|].
  rewrite allDigits_cons in H. apply andb_true_iff in H. destruct H as [Hc Hs].
  destruct i as [|i].
  - exists c. split; [reflexivity | exact Hc].
  - cbn [String.get]. apply IH; [exact Hs | lia].
Qed.

Lemma digits_no_space s : allDigits s = true ->
  filterStr (fun c => negb (Ascii.eqb c " ")) s = s.
Proof.
  induction s as [|c s IH]; intros H; [reflexivity|].
  rewrite allDigits_cons in H. apply andb_true_iff in H. destruct H as [Hc Hs].
  cbn [filterStr]. rewrite digit_not_space by exact Hc. cbn [negb].
  rewrite IH by exact Hs. reflexivity.
Qed.

(** X6. A code on display: the digits in groups of three from the left, one
    space between groups and none at either end. *)
Theorem formatCode_groups_of_three (otp : string) :
  allDigits otp = true ->
  let shown := formatCode otp in
  filterStr (fun c => negb (Ascii.eqb c " ")) shown = otp
  /\ String.length shown
     = (String.length otp + (String.length otp - 1) / 3)%nat
  /\ forall i, (i < String.length shown)%nat ->
       (String.get i shown = Some " "%char <-> (i mod 4 = 3)%nat).
Proof.
  induction otp as [otp IH] using string_length_ind. intros H.
  destruct (Nat.leb_spec (String.length otp) 3) as [L|L].
  - cbv zeta. rewrite formatCode_short by assumption.
    split; [apply digits_no_space; exact H|]. split.
    + replace ((String.length otp - 1) / 3)%nat with 0%nat; [lia|].
      symmetry. apply Nat.div_small. lia.
    + intros i Hi. destruct (digits_get otp H i Hi) as (c & Hc & Hd).
      rewrite Hc. split.
      * intros E. injection E as E. subst c. discriminate Hd.
      * intros E. rewrite Nat.mod_small in E by lia. lia.
  - destruct otp as [|c1 [|c2 [|c3 [|c4 r]]]]; cbn in L; try lia.
    cbv zeta. rewrite formatCode_long by exact H.
    pose proof H as H'. repeat rewrite allDigits_cons in H'.
    apply andb_true_iff in H'. destruct H' as [H1 H'].
    apply andb_true_iff in H'. destruct H' as [H2 H'].
    apply andb_true_iff in H'. destruct H' as [H3 H'].
    rewrite <- allDigits_cons in H'.
    destruct (IH (String c4 r) ltac:(cbn; lia) H') as (F & N & G).
    split; [|split].
    + cbn [filterStr]. rewrite !digit_not_space by assumption.
      cbn [negb]. change (Ascii.eqb " " " ") with true. cbn [negb].
      rewrite F. reflexivity.
    + cbn [String.length] in *. rewrite N.
      replace (S (S (S (S (String.length r)))) - 1)%nat
        with (String.length r + 1 * 3)%nat by lia.
      rewrite Nat.div_add by lia.
      replace (S (String.length r) - 1)%nat with (String.length r) by lia.
      lia.
    + intros i Hi. cbn [String.length] in Hi.
      destruct i as [|[|[|[|i]]]].
      * cbn [String.get]. split; [intros E; injection E as E; subst c1; discriminate H1|].
        intros E. discriminate E.
      * cbn [String.get]. split; [intros E; injection E as E; subst c2; discriminate H2|].
        intros E. discriminate E.
      * cbn [String.get]. split; [intros E; injection E as E; subst c3; discriminate H3|].
        intros E. discriminate E.
      * cbn [String.get]. split; reflexivity.
      * cbn [String.get]. rewrite G by lia.
        replace (S (S (S (S i)))) with (i + 1 * 4)%nat by lia.
        rewrite Nat.Div0.mod_add. reflexivity.
Qed.

Lemma formatCode_groups_of_three_witness :
  formatCode "12345678" = "123 456 78"
  /\ filterStr (fun c => negb (Ascii.eqb c " ")) (formatCode "12345678")
     = "12345678".
Proof.
  split; [vm_compute; reflexivity|].
  apply (proj1 (formatCode_groups_of_three "12345678" eq_refl)).
Defined.

Import Tui.

(** ** The list on screen *)

Lemma press_in_list count selected k :
  0 < count -> 0 <= selected < count -> 0 <= press count selected k < count.
Proof. intros Hc Hs. destruct k; unfold press, moveUp, moveDown; lia. Qed.

(** X18. The selected row stays a row of the list: with one account or
    more and a selection in the list, it is in the list after any
    sequence of the keys up, k, down and j; and after a deletion it is
    the same row, or the last one when the last row was deleted, a row
    of the shorter list. *)
Theorem selection_stays_in_list (count selected : Z) (keys : list key) :
  0 < count -> 0 <= selected < count ->
  0 <= fold_left (press count) keys selected < count
  /\ afterDelete count selected = (if selected =? count - 1
                                   then Z.max 0 (count - 2) else selected)
  /\ (2 <= count -> 0 <= afterDelete count selected < count - 1).
Proof.
  intros Hc Hs. split; [|split].
  - revert selected Hs. induction keys as [|k keys IH]; intros selected Hs.
    + exact Hs.
    + cbn [fold_left]. apply IH. apply press_in_list; assumption.
  - unfold afterDelete. destruct (Z.eqb_spec selected (count - 1)); lia.
  - intros H2. unfold afterDelete. lia.
Qed.

Lemma selection_stays_in_list_witness :
  0 <= fold_left (press 3) [Down; Down; Down; Up] 2 < 3
  /\ afterDelete 3 2 = (if 2 =? 3 - 1 then Z.max 0 (3 - 2) else 2)
  /\ (2 <= 3 -> 0 <= afterDelete 3 2 < 3 - 1).
Proof.
  apply (selection_stays_in_list 3 2 [Down; Down; Down; Up]); lia.
Defined.

Lemma concat_repeat_length glyph n :
  String.length (String.concat EmptyString (repeat glyph n))
  = (n * String.length glyph)%nat.
Proof.
  induction n as [|n IH]; [reflexivity|].
  cbn [repeat]. destruct n as [|n].
  - cbn. lia.
  - change (String.concat EmptyString (glyph :: repeat glyph (S n)))
      with (glyph ++ EmptyString ++ String.concat EmptyString (repeat glyph (S n)))%string.
    rewrite !string_length_app, IH. cbn [String.length]. lia.
Qed.

(** X19. The progress bar has thirty cells at any time at or after the
    epoch: as many full blocks as getTimeRemaining gives seconds, light
    shade for the rest, and no RangeError from [repeat]. *)
Theorem progressBar_thirty_cells (now : Z) :
  0 <= now ->
  exists r filled empty,
    getTimeRemaining 30 now = Num r
    /\ progressBar r
       = Normal (String.concat EmptyString (repeat fullBlock filled)
                 ++ String.concat EmptyString (repeat lightShade empty))%string
    /\ Z.of_nat filled = r
    /\ (filled + empty = 30)%nat
    /\ forall bar, progressBar r = Normal bar -> String.length bar = 90%nat.
Proof.
  intros Hn.
  assert (Hs : 0 <= now / 1000) by (apply Z.div_pos; lia).
  pose proof (Z.mod_pos_bound (now / 1000) 30 ltac:(lia)) as Hm.
  set (r := 30 - (now / 1000) mod 30).
  assert (Hr : 1 <= r <= 30) by (unfold r; lia).
  assert (G : getTimeRemaining 30 now = Num r).
  { unfold getTimeRemaining. cbn [Z.eqb].
    rewrite Z.rem_mod_nonneg by lia. reflexivity. }
  clearbody r.
  exists r, (Z.to_nat r), (Z.to_nat (30 - r)).
  assert (F1 : Z.of_nat (Z.to_nat r) = r) by lia.
  assert (F2 : (Z.to_nat r + Z.to_nat (30 - r) = 30)%nat) by lia.
  assert (E : progressBar r
              = Normal (String.concat EmptyString (repeat fullBlock (Z.to_nat r))
                        ++ String.concat EmptyString
                             (repeat lightShade (Z.to_nat (30 - r))))%string).
  { unfold progressBar, repeatGlyph.
    destruct (Z.ltb_spec r 0); [lia|].
    destruct (Z.ltb_spec (30 - r) 0); [lia|]. reflexivity. }
  revert F1 F2 E.
  generalize (Z.to_nat r) as filled. generalize (Z.to_nat (30 - r)) as empty.
  intros empty filled F1 F2 E.
  split; [exact G|]. split; [exact E|]. split; [exact F1|]. split; [exact F2|].
  intros bar Hb. rewrite E in Hb. injection Hb as Hb. subst bar.
  rewrite string_length_app, !concat_repeat_length.
  change (String.length fullBlock) with 3%nat.
  change (String.length lightShade) with 3%nat. lia.
Qed.

Lemma progressBar_thirty_cells_witness :
  exists r filled empty,
    getTimeRemaining 30 59250 = Num r
    /\ progressBar r
       = Normal (String.concat EmptyString (repeat fullBlock filled)
                 ++ String.concat EmptyString (repeat lightShade empty))%string
    /\ Z.of_nat filled = r
    /\ (filled + empty = 30)%nat
    /\ forall bar, progressBar r = Normal bar -> String.length bar = 90%nat.
Proof.
  apply (progressBar_thirty_cells 59250). lia.
Defined.

Import Storage.

(** ** The account file *)

Section AccountFile.

Variable i : string.

Lemma jsonAccount_again a : jsonAccount (jsonAccount a) = jsonAccount a.
Proof.
  destruct a as [x1 x2 x3 x4 dg pd x7]. unfold jsonAccount. cbn.
  destruct dg as [[]|], pd as [[]|]; reflexivity.
Qed.

Lemma find_json l :
  find (fun a => String.eqb (id a) i) (map jsonAccount l)
  = option_map jsonAccount (find (fun a => String.eqb (id a) i) l).
Proof.
  induction l as [|a l IH]; [reflexivity|].
  cbn [map find]. change (id (jsonAccount a)) with (id a).
  destruct (String.eqb (id a) i); [reflexivity | exact IH].
Qed.

Lemma find_last l a :
  find (fun a => String.eqb (id a) i) (l ++ [a])
  = match find (fun a => String.eqb (id a) i) l with
    | Some b => Some b
    | None => if String.eqb (id a) i then Some a else None
    end.
Proof.
  induction l as [|b l IH]; [reflexivity|].
  cbn [app find]. destruct (String.eqb (id b) i); [reflexivity | exact IH].
Qed.

Lemma find_kept l :
  find (fun a => String.eqb (id a) i)
       (filter (fun a => negb (String.eqb (id a) i)) l) = None.
Proof.
  induction l as [|a l IH]; [reflexivity|].
  cbn [filter]. destruct (String.eqb (id a) i) eqn:E; cbn [negb]; [exact IH|].
  cbn [find]. rewrite E. exact IH.
Qed.

Lemma find_kept_other j l :
  j <> i ->
  find (fun a => String.eqb (id a) j)
       (filter (fun a => negb (String.eqb (id a) i)) l)
  = find (fun a => String.eqb (id a) j) l.
Proof.
  intros N. induction l as [|a l IH]; [reflexivity|].
  cbn [filter find]. destruct (String.eqb (id a) i) eqn:E; cbn [negb].
  - apply String.eqb_eq in E.
    destruct (String.eqb (id a) j) eqn:F; [|exact IH].
    apply String.eqb_eq in F. congruence.
  - cbn [find]. destruct (String.eqb (id a) j); [reflexivity | exact IH].
Qed.

Lemma kept_length l :
  (List.length (filter (fun a => negb (String.eqb (id a) i)) l) <= List.length l)%nat.
Proof. apply filter_length_le. Qed.

Lemma kept_all l :
  List.length (filter (fun a => negb (String.eqb (id a) i)) l) = List.length l
  <-> existsb (fun a => String.eqb (id a) i) l = false.
Proof.
  induction l as [|a l IH]; [cbn; tauto|].
  cbn [filter existsb]. pose proof (kept_length l) as K.
  destruct (String.eqb (id a) i); cbn [negb orb List.length].
  - split; [lia | discriminate].
  - rewrite <- IH. lia.
Qed.

Lemma kept_none l :
  existsb (fun a => String.eqb (id a) i) l = false ->
  filter (fun a => negb (String.eqb (id a) i)) l = l.
Proof.
  induction l as [|a l IH]; [reflexivity|].
  cbn [filter existsb]. destruct (String.eqb (id a) i); cbn [negb orb];
    [discriminate|].
  intros H. rewrite IH by exact H. reflexivity.
Qed.

Lemma find_none_exists l :
  find (fun a => String.eqb (id a) i) l = None
  <-> existsb (fun a => String.eqb (id a) i) l = false.
Proof.
  induction l as [|a l IH]; [cbn; tauto|].
  cbn [find existsb]. destruct (String.eqb (id a) i); cbn [orb];
    [split; discriminate | exact IH].
Qed.

Lemma kept_json l :
  filter (fun a => negb (String.eqb (id a) i)) (map jsonAccount l)
  = map jsonAccount (filter (fun a => negb (String.eqb (id a) i)) l).
Proof.
  induction l as [|a l IH]; [reflexivity|].
  cbn [map filter]. change (id (jsonAccount a)) with (id a).
  destruct (String.eqb (id a) i); cbn [negb map]; rewrite IH; reflexivity.
Qed.

End AccountFile.

(** X7. addAccount puts the new account, with the fresh id and the time of
    the call, after the accounts of the file.  Read back, the account is
    the one returned but for a digits or period that is NaN or infinite,
    read back as [null], and it is the account getAccount finds under the
    new id when no account had that id; under any other id getAccount
    finds what it found before. *)
Theorem addAccount_appends (acc : NewAccount) (uuid : string) (now : Z) (d : disk) :
  let new := fst (addAccount acc uuid now d) in
  let d' := snd (addAccount acc uuid now d) in
  id new = uuid /\ createdAt new = now
  /\ getAccounts d' = map jsonAccount (getAccounts d) ++ [jsonAccount new]
  /\ (getAccount uuid d = None -> getAccount uuid d' = Some (jsonAccount new))
  /\ (forall j, j <> uuid ->
        getAccount j d' = option_map jsonAccount (getAccount j d)).
Proof.
  cbv zeta. unfold addAccount, getAccount, getAccounts, writeStorage. cbn [fst snd].
  cbn [readStorage accounts id createdAt].
  split; [reflexivity|]. split; [reflexivity|]. split.
  { rewrite map_app. reflexivity. }
  split.
  - intros H. rewrite map_app. cbn [map]. rewrite find_last, find_json, H.
    cbn [option_map]. change (id (jsonAccount ?a)) with (id a). cbn [id].
    rewrite String.eqb_refl. reflexivity.
  - intros j N. rewrite map_app. cbn [map]. rewrite find_last, find_json.
    destruct (find _ (accounts (readStorage d))); [reflexivity|].
    cbn [option_map]. cbn [jsonAccount id].
    destruct (String.eqb uuid j) eqn:E; [|reflexivity].
    apply String.eqb_eq in E. congruence.
Qed.

(** X8. removeAccount answers [true] exactly when an account of the file
    has the id.  Then every account with that id is gone and the others
    stay, in their order; else the file is not written.  Either way no
    account has the id afterwards, and the other ids find what they
    found. *)
Theorem removeAccount_removes (i : string) (d : disk) :
  let removed := fst (removeAccount i d) in
  let d' := snd (removeAccount i d) in
  removed = existsb (fun a => String.eqb (id a) i) (getAccounts d)
  /\ (removed = false -> d' = d)
  /\ (removed = true ->
        getAccounts d'
        = map jsonAccount
            (filter (fun a => negb (String.eqb (id a) i)) (getAccounts d))
        /\ (List.length (getAccounts d') < List.length (getAccounts d))%nat)
  /\ getAccount i d' = None
  /\ (forall j, j <> i ->
        getAccount j d'
        = (if removed then option_map jsonAccount else fun o => o) (getAccount j d)).
Proof.
  cbv zeta. unfold removeAccount, getAccount, getAccounts.
  set (l := accounts (readStorage d)).
  pose proof (kept_all i l) as K. pose proof (kept_length i l) as L.
  destruct (Nat.eqb_spec
              (List.length (filter (fun a => negb (String.eqb (id a) i)) l))
              (List.length l)) as [E|E]; cbn [negb fst snd].
  - pose proof (proj1 K E) as X. fold l. rewrite X.
    split; [reflexivity|]. split; [reflexivity|].
    split; [discriminate|]. split.
    + apply find_none_exists. exact X.
    + reflexivity.
  - assert (X : existsb (fun a => String.eqb (id a) i) l = true).
    { destruct (existsb _ l) eqn:F; [reflexivity|]. elim E. apply K. reflexivity. }
    rewrite X. unfold writeStorage. cbn [readStorage accounts].
    split; [reflexivity|]. split; [discriminate|]. split.
    + intros _. split; [reflexivity|]. rewrite length_map. lia.
    + split.
      * rewrite find_json, find_kept. reflexivity.
      * intros j N. rewrite find_json, find_kept_other by exact N. reflexivity.
Qed.

(** X9. An account added under an id that no account has is taken away
    again by removeAccount on that id: the accounts of the file are those
    it had before. *)
Theorem removeAccount_undoes_addAccount
  (acc : NewAccount) (uuid : string) (now : Z) (d : disk) :
  getAccount uuid d = None ->
  let d' := snd (addAccount acc uuid now d) in
  fst (removeAccount uuid d') = true
  /\ getAccounts (snd (removeAccount uuid d')) = map jsonAccount (getAccounts d)
  /\ (map jsonAccount (getAccounts d) = getAccounts d ->
      getAccounts (snd (removeAccount uuid d')) = getAccounts d).
Proof.
  intros H. cbv zeta.
  assert (G : fst (removeAccount uuid (snd (addAccount acc uuid now d))) = true
              /\ getAccounts (snd (removeAccount uuid (snd (addAccount acc uuid now d))))
                 = map jsonAccount (getAccounts d)).
  { unfold getAccount in H. apply find_none_exists in H.
    unfold removeAccount, addAccount, getAccounts, writeStorage in *.
    cbn [fst snd readStorage accounts].
    set (l := accounts (readStorage d)) in *.
    rewrite map_app, filter_app. cbn [map filter].
    change (id (jsonAccount ?a)) with (id a). cbn [id].
    rewrite String.eqb_refl. cbn [negb]. rewrite app_nil_r.
    rewrite kept_json, kept_none by exact H.
    rewrite length_app, !length_map. cbn [List.length].
    destruct (Nat.eqb_spec (List.length l) (List.length l + 1)) as [E|E]; [lia|].
    cbn [negb fst snd accounts]. split; [reflexivity|].
    rewrite map_map. apply map_ext. intros a. apply jsonAccount_again. }
  destruct G as [G1 G2]. split; [exact G1|]. split; [exact G2|].
  intros W. rewrite G2. exact W.
Qed.

Lemma removeAccount_undoes_addAccount_witness :
  let d' := snd (addAccount
                   (mkNew "GitHub" "octocat" "JBSWY3DPEHPK3PXP"
                          (Some (Num 6)) (Some NaN))
                   "7f3a" 1700000000000 None) in
  fst (removeAccount "7f3a" d') = true
  /\ getAccounts (snd (removeAccount "7f3a" d')) = map jsonAccount (getAccounts None)
  /\ (map jsonAccount (getAccounts None) = getAccounts None ->
      getAccounts (snd (removeAccount "7f3a" d')) = getAccounts None).
Proof.
  apply (removeAccount_undoes_addAccount
           (mkNew "GitHub" "octocat" "JBSWY3DPEHPK3PXP" (Some (Num 6)) (Some NaN))
           "7f3a" 1700000000000 None).
  reflexivity.
Defined.



(** An object that carries an id and a time of creation: the account
    takes them, and is no longer found under the id asked for. *)
Example updateAccount_takes_carried_id :
  let d := Some (mkData 1 [mkAccount "7f3a" "GitHub" "octocat" "JBSWY3DPEHPK3PXP"
                                     (Some (Num 6)) (Some (Num 30)) 1700000000000]) in
  let u := mkUpdates (Some "0b6e") None (Some "hubot") None None None (Some 5) in
  fst (updateAccount "7f3a" u d)
  = Some (mkAccount "0b6e" "GitHub" "hubot" "JBSWY3DPEHPK3PXP"
                    (Some (Num 6)) (Some (Num 30)) 5)
  /\ getAccount "7f3a" (snd (updateAccount "7f3a" u d)) = None.
Proof. cbv zeta. split; vm_compute; reflexivity. Qed.

Import Commands CommandInvariants.

(** ** The commands *)

Ltac run :=
  unfold andThen, log, error, exit, ret, awaitOutcome, onDisk, readAccounts;
  cbn [fst snd file stdout stderr].

Lemma addAccount_added e w acc :
  added e w
    (mkWorld (snd (addAccount acc (randomUUID e) (now e) (file w)))
             (stdout w) (stderr w))
    (fst (addAccount acc (randomUUID e) (now e) (file w))).
Proof.
  unfold added, addAccount, getAccounts, writeStorage.
  cbn [fst snd file readStorage accounts id createdAt].
  rewrite map_app. repeat split; reflexivity.
Qed.

Lemma addParsed_adds e parsed w :
  Otpauth.secret parsed <> EmptyString ->
  addsOneOrNone e w (addParsed e parsed w).
Proof.
  intros H. unfold addParsed. run. unfold addAccountPromise, awaitWrite.
  destruct (writeFault e) as [name|] eqn:F.
  { unfold addsOneOrNone. cbn [fst snd file]. rewrite F.
    split; [reflexivity | right; reflexivity]. }
  destruct (addAccount _ _ _ (file w)) as [a d] eqn:E.
  unfold addsOneOrNone. cbn [fst snd stderr].
  split; [|split; [reflexivity | exact F]]. exists a. split.
  - pose proof (addAccount_added e w
        (mkNew (orString (Otpauth.issuer parsed) "Unknown")
               (Otpauth.account parsed) (Otpauth.secret parsed)
               (Some (Otpauth.digits parsed)) (Some (Otpauth.period parsed)))) as G.
    rewrite E in G. cbn [fst snd] in G.
    destruct G as (G1 & G2 & G3). repeat split; assumption.
  - unfold addAccount in E. injection E as E _. subst a. exact H.
Qed.

Lemma valid_key_not_empty key :
  isValidBase32 key = true -> toUpperCase key <> EmptyString.
Proof.
  intros H E. pose proof (valid_key_symbols key H) as G.
  rewrite E in G. vm_compute in G. apply G. reflexivity.
Qed.

Lemma addKey_adds e key name w :
  isValidBase32 key = true ->
  addsOneOrNone e w (addKey e key name w).
Proof.
  intros H. unfold addKey. run. unfold addAccountPromise, awaitWrite.
  destruct (writeFault e) as [fault|] eqn:F.
  { unfold addsOneOrNone. cbn [fst snd file]. rewrite F.
    split; [reflexivity | right; reflexivity]. }
  destruct (addAccount _ _ _ (file w)) as [a d] eqn:E.
  unfold addsOneOrNone. cbn [fst snd stderr].
  split; [|split; [reflexivity | exact F]]. exists a. split.
  - pose proof (addAccount_added e w
        (mkNew EmptyString name (toUpperCase key) (Some (Num 6)) (Some (Num 30)))) as G.
    rewrite E in G. cbn [fst snd] in G.
    destruct G as (G1 & G2 & G3). repeat split; assumption.
  - unfold addAccount in E. injection E as E _. subst a.
    apply valid_key_not_empty. exact H.
Qed.

Lemma fails_with_line e line w :
  addsOneOrNone e w ((error line ;;; exit 1) w).
Proof.
  run. unfold addsOneOrNone. cbn [fst snd file stderr].
  split; [reflexivity|]. split; [reflexivity|]. exists line. reflexivity.
Qed.

Lemma addsOneOrNone_after_log e line w run' :
  addsOneOrNone e (mkWorld (file w) (stdout w ++ [line]) (stderr w)) run' ->
  addsOneOrNone e w run'.
Proof.
  unfold addsOneOrNone, added. cbn [file stderr]. intros H. exact H.
Qed.

Lemma addFromQR_adds e w : addsOneOrNone e w (addFromQR e w).
Proof.
  unfold addFromQR.
  unfold andThen at 1. unfold log at 1. cbn [fst snd].
  apply addsOneOrNone_after_log with (line := "Reading QR code from clipboard...").
  set (w1 := mkWorld _ _ _).
  unfold andThen at 1. unfold awaitOutcome.
  destruct (readQRFromClipboard e) as [qr|name] eqn:Q.
  - destruct (negb (truthyOpt qr)); [apply fails_with_line|].
    destruct (parseOtpAuthUrl _) as [parsed|] eqn:P; [|apply fails_with_line].
    apply addParsed_adds.
    destruct (parseOtpAuthUrl_accepts _ _ P) as (u & label & _ & _ & _ & _ & _ & N & _).
    exact N.
  - unfold addsOneOrNone. cbn [fst snd]. split; [reflexivity | left; exact Q].
Qed.

Lemma addKeyFromClipboard_adds e text name w :
  addsOneOrNone e w (addKeyFromClipboard e text name w).
Proof.
  unfold addKeyFromClipboard. cbv zeta.
  destruct (isValidBase32 (cleanKey text)) eqn:V; [|apply addFromQR_adds].
  destruct (negb (truthyOpt name)); [apply fails_with_line|].
  apply addKey_adds. exact V.
Qed.

Lemma cmdAdd_adds e args w : addsOneOrNone e w (cmdAdd e args w).
Proof.
  unfold cmdAdd.
  destruct (parseAddArgs args None None false) as [[sec name] fromClipboard].
  destruct fromClipboard.
  - destruct (readTextFromClipboard e) as [text|]; [|apply addFromQR_adds].
    destruct (truthy text); [|apply addFromQR_adds].
    destruct (startsWith text "otpauth://");
      [|apply addKeyFromClipboard_adds].
    destruct (parseOtpAuthUrl text) as [parsed|] eqn:P;
      [|apply addKeyFromClipboard_adds].
    apply addParsed_adds.
    destruct (parseOtpAuthUrl_accepts _ _ P) as (u & label & _ & _ & _ & _ & _ & N & _).
    exact N.
  - destruct sec as [sec|]; [|apply fails_with_line].
    destruct (negb (truthy sec)); [apply fails_with_line|].
    destruct (startsWith sec "otpauth://").
    + destruct (parseOtpAuthUrl sec) as [parsed|] eqn:P; [|apply fails_with_line].
      apply addParsed_adds.
      destruct (parseOtpAuthUrl_accepts _ _ P) as (u & label & _ & _ & _ & _ & _ & N & _).
      exact N.
    + cbv zeta.
      destruct (isValidBase32 (cleanKey sec)) eqn:V; cbn [negb];
        [|apply fails_with_line].
      destruct (negb (truthyOpt name)); [apply fails_with_line|].
      apply addKey_adds. exact V.
Qed.

Lemma addsOneOrNone_failsClean e w run :
  addsOneOrNone e w run -> failsClean w run.
Proof.
  unfold addsOneOrNone, failsClean. destruct (fst run); intros H.
  - exact (proj1 (proj2 H)).
  - exact H.
  - exact (proj1 H).
Qed.

(** What [lookup] does. *)
Lemma lookup_cases e query w :
  match findAccount e (getAccounts (file w)) query with
  | Some a => lookup e query w = (Returns a, w)
  | None =>
      lookup e query w
      = (Exits 1,
         mkWorld (file w) (stdout w)
                 (stderr w ++ [("Error: No account found matching "
                                ++ quote ++ query ++ quote)%string]))
  end.
Proof.
  unfold lookup. run.
  destruct (findAccount e (getAccounts (file w)) query); reflexivity.
Qed.

Lemma andThen_returns {A B : Type} (m : M A) (k : A -> M B) w v w' :
  m w = (Returns v, w') -> andThen m k w = k v w'.
Proof. intros H. unfold andThen. rewrite H. reflexivity. Qed.

Lemma andThen_exits {A B : Type} (m : M A) (k : A -> M B) w status w' :
  m w = (Exits status, w') -> andThen m k w = (Exits status, w').
Proof. intros H. unfold andThen. rewrite H. reflexivity. Qed.

Lemma andThen_throws {A B : Type} (m : M A) (k : A -> M B) w name w' :
  m w = (Throws name, w') -> andThen m k w = (Throws name, w').
Proof. intros H. unfold andThen. rewrite H. reflexivity. Qed.

Lemma world_eta w : mkWorld (file w) (stdout w) (stderr w) = w.
Proof. destruct w. reflexivity. Qed.

Lemma usage_fails {A : Type} line w :
  failsClean w ((error line ;;; @exit A 1) w)
  /\ readsOnly w ((error line ;;; @exit A 1) w).
Proof.
  run. unfold failsClean, readsOnly. cbn [fst snd file stderr].
  split; [|reflexivity].
  split; [reflexivity|]. split; [reflexivity|]. exists line. reflexivity.
Qed.

Lemma cmdGet_reads e query w :
  failsClean w (cmdGet e query w) /\ readsOnly w (cmdGet e query w).
Proof.
  unfold cmdGet. destruct (negb (truthyOpt query)); [apply usage_fails|].
  set (q := match query with Some q => q | None => EmptyString end).
  pose proof (lookup_cases e q w) as L.
  destruct (findAccount e (getAccounts (file w)) q) as [a|];
    [rewrite (andThen_returns _ _ _ _ _ L) | rewrite (andThen_exits _ _ _ _ _ L)].
  - run. destruct (generateCode e 0%nat a);
      unfold failsClean, readsOnly; cbn [fst snd file stderr]; split; reflexivity.
  - unfold failsClean, readsOnly; cbn [fst snd file stderr].
    split; [|reflexivity]. split; [reflexivity|]. split; [reflexivity|].
    eexists. reflexivity.
Qed.

Lemma cmdCopy_reads e query w :
  failsClean w (cmdCopy e query w) /\ readsOnly w (cmdCopy e query w).
Proof.
  unfold cmdCopy. destruct (negb (truthyOpt query)); [apply usage_fails|].
  set (q := match query with Some q => q | None => EmptyString end).
  pose proof (lookup_cases e q w) as L.
  destruct (findAccount e (getAccounts (file w)) q) as [a|];
    [rewrite (andThen_returns _ _ _ _ _ L) | rewrite (andThen_exits _ _ _ _ _ L)].
  - run. destruct (generateCode e 0%nat a) as [code|name];
      [destruct (copyToClipboard e code)|];
      unfold failsClean, readsOnly; cbn [fst snd file stderr]; split; reflexivity.
  - unfold failsClean, readsOnly; cbn [fst snd file stderr].
    split; [|reflexivity]. split; [reflexivity|]. split; [reflexivity|].
    eexists. reflexivity.
Qed.

(** The loop of cmdList writes lines, and stops at the first code that
    is not given. *)
Lemma listCodes_reads e accounts : forall n w,
  (forall status, fst (listCodes e n accounts w) <> Exits status)
  /\ file (snd (listCodes e n accounts w)) = file w
  /\ stderr (snd (listCodes e n accounts w)) = stderr w.
Proof.
  induction accounts as [|a more IH]; intros n w.
  - cbn [listCodes]. run. split; [discriminate|]. split; reflexivity.
  - cbn [listCodes]. run. destruct (generateCode e n a) as [code|name].
    + set (w1 := mkWorld _ _ _).
      destruct (IH (S n) w1) as (I1 & I2 & I3).
      destruct (listCodes e (S n) more w1) as [[v|st|nm] w2]; cbn [fst snd] in *.
      * split; [discriminate|]. split; assumption.
      * elim (I1 st). reflexivity.
      * split; [discriminate|]. split; assumption.
    + split; [discriminate|]. split; reflexivity.
Qed.

Lemma cmdList_reads e w :
  failsClean w (cmdList e w) /\ readsOnly w (cmdList e w).
Proof.
  unfold cmdList.
  rewrite (andThen_returns readAccounts _ w (getAccounts (file w)) w eq_refl).
  generalize (getAccounts (file w)). intros accounts.
  destruct accounts as [|a more].
  - run. unfold failsClean, readsOnly. cbn [fst snd file stderr].
    split; reflexivity.
  - cbv zeta.
    match goal with
    | |- context [andThen (log ?h) _ w] =>
        rewrite (andThen_returns (log h) _ w tt
                   (mkWorld (file w) (stdout w ++ [h]) (stderr w)) eq_refl);
        set (w1 := mkWorld (file w) (stdout w ++ [h]) (stderr w))
    end.
    destruct (listCodes_reads e (a :: more) 0%nat w1) as (I1 & I2 & I3).
    destruct (listCodes e 0%nat (a :: more) w1) as [[v|st|nm] w2] eqn:LC;
      cbn [fst snd] in *.
    + rewrite (andThen_returns _ _ _ _ _ LC). run.
      unfold failsClean, readsOnly. cbn [fst snd file stderr].
      split; assumption.
    + elim (I1 st). reflexivity.
    + rewrite (andThen_throws _ _ _ _ _ LC).
      unfold failsClean, readsOnly. cbn [fst snd file stderr].
      split; assumption.
Qed.

(** What cmdRemove does. *)
Lemma removeAccount_present i d :
  existsb (fun a => String.eqb (id a) i) (getAccounts d) = true ->
  removeAccount i d
  = (true,
     writeStorage
       (mkData (version (readStorage d))
               (filter (fun a => negb (String.eqb (id a) i)) (getAccounts d)))).
Proof.
  intros H. unfold removeAccount, getAccounts in *.
  set (l := accounts (readStorage d)) in *.
  pose proof (kept_all i l) as K.
  destruct (Nat.eqb_spec
              (List.length (filter (fun a => negb (String.eqb (id a) i)) l))
              (List.length l)) as [E|E]; cbn [negb]; [|reflexivity].
  rewrite (proj1 K E) in H. discriminate H.
Qed.

Lemma findAccount_in e accounts query a :
  findAccount e accounts query = Some a ->
  In a accounts
  /\ existsb (fun b => String.eqb (id b) (id a)) accounts = true.
Proof.
  unfold findAccount. intros H. apply find_some in H. destruct H as [H _].
  split; [exact H|]. apply existsb_exists. exists a.
  split; [exact H | apply String.eqb_refl].
Qed.

Lemma cmdRemove_cases e query w :
  match query with
  | None | Some EmptyString =>
      cmdRemove e query w
      = (Exits 1,
         mkWorld (file w) (stdout w)
                 (stderr w ++ ["Error: No query provided. Usage: 2fa remove <query>"]))
  | Some q =>
      match findAccount e (getAccounts (file w)) q with
      | None =>
          cmdRemove e query w
          = (Exits 1,
             mkWorld (file w) (stdout w)
                     (stderr w ++ [("Error: No account found matching "
                                    ++ quote ++ q ++ quote)%string]))
      | Some a =>
          match writeFault e with
          | Some name => cmdRemove e query w = (Throws name, w)
          | None =>
              cmdRemove e query w
              = (Returns tt,
                 mkWorld (snd (removeAccount (id a) (file w)))
                         (stdout w ++ [("Removed: " ++ displayName a)%string])
                         (stderr w))
          end
      end
  end.
Proof.
  unfold cmdRemove. destruct query as [[|c q]|]; try reflexivity.
  cbn [truthyOpt truthy String.eqb negb].
  pose proof (lookup_cases e (String c q) w) as L.
  destruct (findAccount e (getAccounts (file w)) (String c q)) as [a|] eqn:F;
    [rewrite (andThen_returns _ _ _ _ _ L) | rewrite (andThen_exits _ _ _ _ _ L)].
  - destruct (findAccount_in _ _ _ _ F) as [_ Hex].
    run. unfold removeAccountPromise, awaitWrite.
    rewrite (removeAccount_present _ _ Hex). cbn [fst snd].
    destruct (writeFault e); [rewrite world_eta|]; reflexivity.
  - reflexivity.
Qed.

Lemma cmdRemove_fails_clean e query w :
  failsClean w (cmdRemove e query w).
Proof.
  pose proof (cmdRemove_cases e query w) as C.
  assert (F : forall line,
             failsClean w (@Exits unit 1,
                           mkWorld (file w) (stdout w) (stderr w ++ [line]))).
  { intros line. unfold failsClean. cbn [fst snd file stderr].
    split; [reflexivity|]. split; [reflexivity|]. exists line. reflexivity. }
  destruct query as [[|c q]|]; try (rewrite C; apply F).
  destruct (findAccount e (getAccounts (file w)) (String c q)) as [a|];
    [|rewrite C; apply F].
  destruct (writeFault e); rewrite C; unfold failsClean; reflexivity.
Qed.

(** A command followed by [return true]. *)
Lemma then_true (m : M unit) w :
  (m ;;; ret true) w
  = (match fst (m w) with
     | Returns _ => Returns true
     | Exits status => Exits status
     | Throws name => Throws name
     end, snd (m w)).
Proof. run. destruct (m w) as [[v|st|nm] w']; reflexivity. Qed.

Lemma then_true_fails_clean (m : M unit) w :
  failsClean w (m w) -> failsClean w ((m ;;; ret true) w).
Proof.
  rewrite then_true. unfold failsClean. cbn [fst snd].
  destruct (fst (m w)); intros H; exact H.
Qed.

Lemma then_true_not_false (m : M unit) w :
  fst ((m ;;; ret true) w) <> Returns false.
Proof.
  rewrite then_true. cbn [fst]. destruct (fst (m w)); discriminate.
Qed.

Lemma then_true_file (m : M unit) w :
  file (snd ((m ;;; ret true) w)) = file (snd (m w)).
Proof. rewrite then_true. reflexivity. Qed.

Lemma hasArg_in args x : hasArg args x = true <-> In x args.
Proof.
  unfold hasArg. rewrite existsb_exists. split.
  - intros (y & Hy & E). apply String.eqb_eq in E. subst y. exact Hy.
  - intros H. exists x. split; [exact H | apply String.eqb_refl].
Qed.

(** The default branch: a query in the place of the command. *)
Lemma shortcut_reads e command w (unknown : M bool) :
  unknown w
  = (Exits 1,
     mkWorld (file w)
             (stdout w ++ ["Run '2fa --help' for usage information."])
             (stderr w ++ [("Unknown command: " ++ command)%string])) ->
  let run :=
    (accounts <- readAccounts ;;
     match findAccount e accounts command with
     | Some a =>
         code <- awaitOutcome (generateCode e 0%nat a) ;;
         log code ;;; ret true
     | None => unknown
     end) w in
  failsClean w run /\ readsOnly w run /\ fst run <> Returns false.
Proof.
  intros U. cbv zeta.
  rewrite (andThen_returns readAccounts _ w (getAccounts (file w)) w eq_refl).
  destruct (findAccount e (getAccounts (file w)) command) as [a|].
  - run. destruct (generateCode e 0%nat a);
      unfold failsClean, readsOnly; cbn [fst snd file stderr];
      (split; [reflexivity|]); (split; [reflexivity | discriminate]).
  - rewrite U. unfold failsClean, readsOnly; cbn [fst snd file stderr].
    split; [|split; [reflexivity | discriminate]].
    split; [reflexivity|]. split; [reflexivity|]. eexists. reflexivity.
Qed.

Lemma unknown_exits command w :
  (error ("Unknown command: " ++ command)%string ;;;
   log "Run '2fa --help' for usage information." ;;;
   @exit bool 1) w
  = (Exits 1,
     mkWorld (file w)
             (stdout w ++ ["Run '2fa --help' for usage information."])
             (stderr w ++ [("Unknown command: " ++ command)%string])).
Proof. reflexivity. Qed.

(** What every run of runCli meets. *)
Lemma runCli_summary e args w :
  let run := runCli e args w in
  failsClean w run
  /\ (fst run = Returns false
      <-> (forall word,
             In word ["-h"; "--help"; "help"; "-v"; "--version"; "version"] ->
             ~ In word args)
          /\ (hd EmptyString args = EmptyString \/ hd EmptyString args = "tui"))
  /\ (fst run = Returns false -> snd run = w)
  /\ (file (snd run) <> file w ->
      In (hd EmptyString args) ["add"; "remove"; "rm"; "delete"]).
Proof.
  cbv zeta. unfold runCli.
  destruct (hasArg args "-h" || hasArg args "--help" || hasArg args "help") eqn:Hh.
  { assert (W : exists word, In word ["-h"; "--help"; "help"] /\ In word args).
    { apply orb_true_iff in Hh. destruct Hh as [Hh|Hh];
        [apply orb_true_iff in Hh; destruct Hh as [Hh|Hh]|];
        apply hasArg_in in Hh; eexists; (split; [|exact Hh]); cbn; tauto. }
    split; [unfold failsClean; reflexivity|].
    split; [|split; [discriminate | intros N; elim N; reflexivity]].
    split; [discriminate|]. intros [N _]. destruct W as (word & W1 & W2).
    elim (N word); [cbn in *; tauto | exact W2]. }
  destruct (hasArg args "-v" || hasArg args "--version" || hasArg args "version") eqn:Hv.
  { assert (W : exists word, In word ["-v"; "--version"; "version"] /\ In word args).
    { apply orb_true_iff in Hv. destruct Hv as [Hv|Hv];
        [apply orb_true_iff in Hv; destruct Hv as [Hv|Hv]|];
        apply hasArg_in in Hv; eexists; (split; [|exact Hv]); cbn; tauto. }
    split; [unfold failsClean; reflexivity|].
    split; [|split; [discriminate | intros N; elim N; reflexivity]].
    split; [discriminate|]. intros [N _]. destruct W as (word & W1 & W2).
    elim (N word); [cbn in *; tauto | exact W2]. }
  assert (N : forall word,
             In word ["-h"; "--help"; "help"; "-v"; "--version"; "version"] ->
             ~ In word args).
  { apply orb_false_iff in Hh. destruct Hh as [Hh H3].
    apply orb_false_iff in Hh. destruct Hh as [H1 H2].
    apply orb_false_iff in Hv. destruct Hv as [Hv H6].
    apply orb_false_iff in Hv. destruct Hv as [H4 H5].
    intros word Hw Hi. apply hasArg_in in Hi.
    cbn in Hw. destruct Hw as [E|[E|[E|[E|[E|[E|[]]]]]]]; subst word; congruence. }
  destruct args as [|command rest].
  { split; [unfold failsClean; reflexivity|].
    split; [split; [intros _; split; [exact N | left; reflexivity] | reflexivity]|].
    split; [reflexivity | intros F; elim F; reflexivity]. }
  cbn [hd].
  destruct (negb (truthy command) || String.eqb command "tui") eqn:Ht.
  { split; [unfold failsClean; reflexivity|].
    split; [split; [intros _; split; [exact N|] | reflexivity]|].
    - apply orb_true_iff in Ht. destruct Ht as [Ht|Ht].
      + left. unfold truthy in Ht. apply negb_true_iff in Ht.
        apply negb_false_iff in Ht. apply String.eqb_eq in Ht. exact Ht.
      + right. apply String.eqb_eq in Ht. exact Ht.
    - split; [reflexivity | intros F; elim F; reflexivity]. }
  assert (L : ~ (command = EmptyString \/ command = "tui")).
  { apply orb_false_iff in Ht. destruct Ht as [H1 H2].
    apply String.eqb_neq in H2. unfold truthy in H1.
    apply negb_false_iff in H1. apply negb_true_iff in H1.
    apply String.eqb_neq in H1. tauto. }
  assert (G : forall (m : M unit),
             failsClean w (m w) ->
             (file (snd (m w)) <> file w ->
              In command ["add"; "remove"; "rm"; "delete"]) ->
             let run := (m ;;; ret true) w in
             failsClean w run
             /\ (fst run = Returns false
                 <-> (forall word,
                        In word ["-h"; "--help"; "help"; "-v"; "--version"; "version"] ->
                        ~ In word (command :: rest))
                     /\ (command = EmptyString \/ command = "tui"))
             /\ (fst run = Returns false -> snd run = w)
             /\ (file (snd run) <> file w ->
                 In command ["add"; "remove"; "rm"; "delete"])).
  { intros m F W. cbv zeta.
    split; [apply then_true_fails_clean; exact F|].
    split; [split; [intros X; elim (then_true_not_false m w X) | intros [_ X]; elim (L X)]|].
    split; [intros X; elim (then_true_not_false m w X)|].
    rewrite then_true_file. exact W. }
  destruct (String.eqb command "list" || String.eqb command "ls").
  { apply G; [apply cmdList_reads|].
    intros X. elim X. apply cmdList_reads. }
  destruct (String.eqb_spec command "add") as [Ea|Ea].
  { apply G; [apply addsOneOrNone_failsClean with (e := e); apply cmdAdd_adds|].
    intros _. left. symmetry. exact Ea. }
  destruct (String.eqb command "get").
  { apply G; [apply cmdGet_reads|].
    intros X. elim X. apply cmdGet_reads. }
  destruct (String.eqb command "copy" || String.eqb command "cp").
  { apply G; [apply cmdCopy_reads|].
    intros X. elim X. apply cmdCopy_reads. }
  destruct (String.eqb command "remove" || String.eqb command "rm"
            || String.eqb command "delete") eqn:Er.
  { apply G; [apply cmdRemove_fails_clean|].
    intros _. apply orb_true_iff in Er. destruct Er as [Er|Er];
      [apply orb_true_iff in Er; destruct Er as [Er|Er]|];
      apply String.eqb_eq in Er; subst command; cbn; tauto. }
  cbv zeta.
  destruct (negb (startsWith command "-")).
  - destruct (shortcut_reads e command w _ (unknown_exits command w))
      as (S1 & S2 & S3).
    split; [exact S1|].
    split; [split; [intros X; elim (S3 X) | intros [_ X]; elim (L X)]|].
    split; [intros X; elim (S3 X)|].
    intros X. elim X. exact S2.
  - rewrite unknown_exits. cbn [fst snd file].
    split.
    { unfold failsClean. cbn [fst snd file stderr].
      split; [reflexivity|]. split; [reflexivity|]. eexists. reflexivity. }
    split; [split; [discriminate | intros [_ X]; elim (L X)]|].
    split; [discriminate|]. intros X. elim X. reflexivity.
Qed.

(** X11. cmdAdd, whatever its arguments and the clipboard: when it returns,
    the write was accepted, the file has one account more, placed last,
    with the fresh id, the time of the call and a secret that is not
    empty, and nothing went to the error stream; when it exits, the
    status is 1, the file is as it was and one line went to the error
    stream; its promise is rejected only when that of the QR reader is,
    or when the write of the file is, with the same error, the file being
    as it was. *)
Theorem cmdAdd_adds_one_or_none (e : env) (args : list string) (w : world) :
  let w' := snd (cmdAdd e args w) in
  match fst (cmdAdd e args w) with
  | Returns _ =>
      (exists a,
         getAccounts (file w')
         = map jsonAccount (getAccounts (file w)) ++ [jsonAccount a]
         /\ Storage.id a = randomUUID e /\ createdAt a = Commands.now e
         /\ Storage.secret a <> EmptyString)
      /\ stderr w' = stderr w
      /\ writeFault e = None
  | Exits status =>
      status = 1 /\ file w' = file w
      /\ exists line, stderr w' = stderr w ++ [line]
  | Throws name =>
      file w' = file w
      /\ (readQRFromClipboard e = Rejected name \/ writeFault e = Some name)
  end.
Proof.
  cbv zeta. pose proof (cmdAdd_adds e args w) as H.
  unfold addsOneOrNone, added in H.
  destruct (fst (cmdAdd e args w)); [|exact H|exact H].
  destruct H as [(a & (H1 & H2 & H3) & H4) [H5 H6]].
  split; [|split; [exact H5 | exact H6]]. exists a. repeat split; assumption.
Qed.

(** X12. cmdRemove: when it returns, the query was not empty, findAccount
    gave an account for it and the write was accepted; every account of
    the file with the id of that account is gone, the others stay in
    their order, and one line names the account removed.  When the query
    is absent or empty, or no account matches it, the command exits with
    status 1 and the file is as it was.  Its promise is rejected exactly
    when an account was found and the write of the file is rejected, with
    the error of the write; the file and both streams are then as they
    were. *)
Theorem cmdRemove_removes_match (e : env) (query : option string) (w : world) :
  let w' := snd (cmdRemove e query w) in
  match fst (cmdRemove e query w) with
  | Returns _ =>
      exists q a,
        query = Some q /\ q <> EmptyString
        /\ findAccount e (getAccounts (file w)) q = Some a
        /\ writeFault e = None
        /\ getAccounts (file w')
           = map jsonAccount
               (filter (fun b => negb (String.eqb (Storage.id b) (Storage.id a)))
                       (getAccounts (file w)))
        /\ getAccount (Storage.id a) (file w') = None
        /\ (List.length (getAccounts (file w'))
            < List.length (getAccounts (file w)))%nat
        /\ stdout w' = stdout w ++ [("Removed: " ++ displayName a)%string]
        /\ stderr w' = stderr w
  | Exits status =>
      status = 1 /\ file w' = file w /\ stdout w' = stdout w
      /\ (exists line, stderr w' = stderr w ++ [line])
      /\ (query = None \/ query = Some EmptyString
          \/ exists q, query = Some q
                       /\ findAccount e (getAccounts (file w)) q = None)
  | Throws name =>
      writeFault e = Some name /\ w' = w
      /\ exists q a,
           query = Some q /\ q <> EmptyString
           /\ findAccount e (getAccounts (file w)) q = Some a
  end.
Proof.
  cbv zeta. pose proof (cmdRemove_cases e query w) as C.
  destruct query as [[|c q]|].
  - rewrite C. cbn [fst snd file stdout stderr].
    split; [reflexivity|]. split; [reflexivity|]. split; [reflexivity|].
    split; [eexists; reflexivity|]. right. left. reflexivity.
  - destruct (findAccount e (getAccounts (file w)) (String c q)) as [a|] eqn:F.
    + destruct (writeFault e) as [name|] eqn:W; rewrite C;
        cbn [fst snd file stdout stderr].
      { split; [reflexivity|]. split; [reflexivity|].
        exists (String c q), a.
        split; [reflexivity|]. split; [discriminate | exact F]. }
      exists (String c q), a.
      destruct (findAccount_in _ _ _ _ F) as [Hin Hex].
      rewrite (removeAccount_present _ _ Hex). cbn [snd].
      split; [reflexivity|]. split; [discriminate|]. split; [exact F|].
      split; [reflexivity|].
      unfold writeStorage, getAccount, getAccounts. cbn [readStorage accounts].
      split; [reflexivity|].
      split; [rewrite find_json, find_kept; reflexivity|].
      split; [|split; reflexivity].
      rewrite length_map.
      pose proof (kept_all (Storage.id a) (accounts (readStorage (file w)))) as K.
      pose proof (kept_length (Storage.id a) (accounts (readStorage (file w)))) as L.
      unfold getAccounts in Hex.
      destruct (Nat.eq_dec
                  (List.length
                     (filter (fun b => negb (String.eqb (Storage.id b) (Storage.id a)))
                             (accounts (readStorage (file w)))))
                  (List.length (accounts (readStorage (file w))))) as [E|E]; [|lia].
      rewrite (proj1 K E) in Hex. discriminate Hex.
    + rewrite C. cbn [fst snd file stdout stderr].
      split; [reflexivity|]. split; [reflexivity|]. split; [reflexivity|].
      split; [eexists; reflexivity|]. right. right.
      exists (String c q). split; [reflexivity | exact F].
  - rewrite C. cbn [fst snd file stdout stderr].
    split; [reflexivity|]. split; [reflexivity|]. split; [reflexivity|].
    split; [eexists; reflexivity|]. left. reflexivity.
Qed.

(** A write that is rejected: the promise of cmdRemove is rejected with
    its error and the account stays. *)
Example cmdRemove_rejected_write :
  let e := mkEnv 59000 "0b6e5f0c" (fun s => s) (fun _ _ => Resolved "123456")
                 None (Resolved None) (fun _ => Resolved tt) (Some "EACCES") in
  let w := mkWorld
             (Some (mkData 1
                [mkAccount "7f3a" "GitHub" "octocat" "JBSWY3DPEHPK3PXP"
                           (Some (Num 6)) (Some (Num 30)) 1700000000000]))
             [] [] in
  cmdRemove e (Some "octocat") w = (Throws "EACCES", w)
  /\ cmdAdd e ["JBSWY3DPEHPK3PXP"; "-n"; "GitLab"] w = (Throws "EACCES", w).
Proof. cbv zeta. split; vm_compute; reflexivity. Qed.


(** X16. runCli answers [false], the request to launch the interface,
    exactly when no argument is one of the help and version words and the
    first argument is absent, empty or [tui]; it has then written nothing
    and left the file as it was. *)
Theorem runCli_launches_interface (e : env) (args : list string) (w : world) :
  (fst (runCli e args w) = Returns false
   <-> (forall word,
          In word ["-h"; "--help"; "help"; "-v"; "--version"; "version"] ->
          ~ In word args)
       /\ (hd EmptyString args = EmptyString \/ hd EmptyString args = "tui"))
  /\ (fst (runCli e args w) = Returns false -> snd (runCli e args w) = w).
Proof.
  destruct (runCli_summary e args w) as (_ & H1 & H2 & _).
  split; [exact H1 | exact H2].
Qed.

(** X17. runCli writes the account file only under the commands add,
    remove, rm and delete: a run after which the file differs has one of
    them as its first argument.  Listing, getting and copying a code, the
    query in the place of the command, help and version leave the file as
    it was. *)
Theorem runCli_writes_only_on_add_remove (e : env) (args : list string) (w : world) :
  file (snd (runCli e args w)) <> file w ->
  In (hd EmptyString args) ["add"; "remove"; "rm"; "delete"].
Proof.
  exact (proj2 (proj2 (proj2 (runCli_summary e args w)))).
Qed.

Lemma runCli_writes_only_on_add_remove_witness :
  In "add" ["add"; "remove"; "rm"; "delete"].
Proof.
  refine (runCli_writes_only_on_add_remove
            (mkEnv 1700000000000 "0b6e5f0c" (fun s => s)
                   (fun _ _ => Resolved "123456") None (Resolved None)
                   (fun _ => Resolved tt) None)
            ["add"; "JBSWY3DPEHPK3PXP"; "-n"; "GitHub"]
            (mkWorld None [] []) _).
  vm_compute. discriminate.
Defined.

Lemma prefix_self s : String.prefix s s = true.
Proof.
  induction s as [|c s IH]; [reflexivity|].
  cbn [String.prefix]. destruct (ascii_dec c c) as [_|N]; [exact IH | elim N; reflexivity].
Qed.

Lemma includesStr_self s : includesStr s s = true.
Proof. destruct s; cbn [includesStr]; rewrite prefix_self; reflexivity. Qed.

(** X13. cmdGet on the exact name, issuer or id of an account of the file
    finds an account and prints its code: the first account that the
    query matches, whatever [toLowerCase] does.  It fails only as
    generateTOTP does. *)
Theorem cmdGet_prints_code (e : env) (q : string) (a : Account) (w : world) :
  q <> EmptyString ->
  In a (getAccounts (file w)) ->
  Storage.account a = q \/ Storage.issuer a = q \/ Storage.id a = q ->
  exists b,
    findAccount e (getAccounts (file w)) q = Some b
    /\ In b (getAccounts (file w))
    /\ cmdGet e (Some q) w
       = match generateCode e 0%nat b with
         | Resolved code =>
             (Returns tt, mkWorld (file w) (stdout w ++ [code]) (stderr w))
         | Rejected name => (Throws name, w)
         end.
Proof.
  intros Hq Hin Hm.
  destruct (findAccount e (getAccounts (file w)) q) as [b|] eqn:F.
  - exists b. split; [reflexivity|].
    split; [apply (findAccount_in _ _ _ _ F)|].
    unfold cmdGet. destruct q as [|c q]; [elim Hq; reflexivity|].
    cbn [truthyOpt truthy String.eqb negb].
    pose proof (lookup_cases e (String c q) w) as L. rewrite F in L.
    rewrite (andThen_returns _ _ _ _ _ L). run.
    destruct (generateCode e 0%nat b); reflexivity.
  - exfalso. unfold findAccount in F.
    pose proof (find_none _ _ F a Hin) as N. cbv beta in N.
    destruct Hm as [E|[E|E]]; rewrite E in N.
    + rewrite includesStr_self in N. discriminate N.
    + rewrite includesStr_self in N. rewrite orb_true_r in N. discriminate N.
    + rewrite String.eqb_refl in N. rewrite orb_true_r in N. discriminate N.
Qed.

Lemma cmdGet_prints_code_witness :
  exists b,
    findAccount
      (mkEnv 59000 "0b6e5f0c" (fun s => s) (fun _ _ => Resolved "123456")
             None (Resolved None) (fun _ => Resolved tt) None)
      [mkAccount "7f3a" "GitHub" "octocat" "JBSWY3DPEHPK3PXP"
                 (Some (Num 6)) (Some (Num 30)) 1700000000000]
      "octocat" = Some b.
Proof.
  destruct (cmdGet_prints_code
              (mkEnv 59000 "0b6e5f0c" (fun s => s) (fun _ _ => Resolved "123456")
                     None (Resolved None) (fun _ => Resolved tt) None)
              "octocat"
              (mkAccount "7f3a" "GitHub" "octocat" "JBSWY3DPEHPK3PXP"
                         (Some (Num 6)) (Some (Num 30)) 1700000000000)
              (mkWorld
                 (Some (mkData 1
                    [mkAccount "7f3a" "GitHub" "octocat" "JBSWY3DPEHPK3PXP"
                               (Some (Num 6)) (Some (Num 30)) 1700000000000]))
                 [] []))
    as (b & F & _).
  - discriminate.
  - left. reflexivity.
  - left. reflexivity.
  - exists b. exact F.
Defined.

(** The loop of cmdList when every code is given: a line for each
    account, in the order of the file. *)
Lemma listCodes_lines e accounts : forall n w,
  (forall k a, nth_error accounts k = Some a ->
     exists code, generateCode e (n + k)%nat a = Resolved code) ->
  exists lines,
    listCodes e n accounts w
    = (Returns tt, mkWorld (file w) (stdout w ++ lines) (stderr w))
    /\ List.length lines = List.length accounts
    /\ forall k a code,
         nth_error accounts k = Some a ->
         generateCode e (n + k)%nat a = Resolved code ->
         nth_error lines k
         = Some ("  " ++ formatCode code ++ "  " ++ displayName a)%string.
Proof.
  induction accounts as [|a more IH]; intros n w H.
  - exists []. cbn [listCodes]. unfold ret. rewrite app_nil_r, world_eta.
    split; [reflexivity|]. split; [reflexivity|].
    intros k b code Hk. destruct k; discriminate Hk.
  - destruct (H 0%nat a eq_refl) as [code Hc]. rewrite Nat.add_0_r in Hc.
    cbn [listCodes]. run. rewrite Hc.
    set (line := ("  " ++ formatCode code ++ "  " ++ displayName a)%string).
    set (w1 := mkWorld (file w) (stdout w ++ [line]) (stderr w)).
    destruct (IH (S n) w1) as (lines & L1 & L2 & L3).
    { intros k b Hk. rewrite Nat.add_succ_comm. apply (H (S k) b). exact Hk. }
    exists (line :: lines). rewrite L1. subst w1. cbn [file stdout stderr].
    rewrite <- app_assoc. cbn [app].
    split; [reflexivity|]. split; [cbn [List.length]; rewrite L2; reflexivity|].
    intros k b code' Hk Hg. destruct k as [|k].
    + cbn [nth_error] in *. injection Hk as Hk. subst b.
      rewrite Nat.add_0_r in Hg. rewrite Hc in Hg. injection Hg as Hg. subst code'.
      reflexivity.
    + cbn [nth_error] in *. apply (L3 k b code' Hk).
      rewrite Nat.add_succ_comm. exact Hg.
Qed.

(** X14. cmdList, when the file has accounts and generateTOTP gives a code
    for each: it prints the line that tells the seconds left, as
    getTimeRemaining gives them for period 30, between two line feeds;
    then one line for each account, in the order of the file, with the
    code of that account in groups of three and its name; then an empty
    line.  The file and the error stream are as they were.  With no
    account the command prints one line and computes no code. *)
Theorem cmdList_lists_every_account (e : env) (w : world) :
  (getAccounts (file w) = [] ->
   cmdList e w
   = (Returns tt,
      mkWorld (file w)
              (stdout w ++ ["No accounts found. Add one with: 2fa add <secret>"])
              (stderr w)))
  /\ (getAccounts (file w) <> [] ->
      (forall n a, nth_error (getAccounts (file w)) n = Some a ->
         exists code, generateCode e n a = Resolved code) ->
      exists lines,
        cmdList e w
        = (Returns tt,
           mkWorld (file w)
                   (stdout w
                    ++ (String (chr 10) "  Codes refresh in "
                        ++ showNumber (Totp.getTimeRemaining 30 (Commands.now e))
                        ++ "s" ++ String (chr 10) EmptyString)%string
                    :: lines ++ [EmptyString])
                   (stderr w))
        /\ List.length lines = List.length (getAccounts (file w))
        /\ (forall n a code,
              nth_error (getAccounts (file w)) n = Some a ->
              generateCode e n a = Resolved code ->
              nth_error lines n
              = Some ("  " ++ formatCode code ++ "  " ++ displayName a)%string)
        /\ (0 <= Commands.now e ->
            exists r,
              1 <= r <= 30
              /\ r = 30 - (Commands.now e / 1000) mod 30
              /\ showNumber (Totp.getTimeRemaining 30 (Commands.now e))
                 = toString r)).
Proof.
  unfold cmdList.
  rewrite (andThen_returns readAccounts _ w (getAccounts (file w)) w eq_refl).
  generalize (getAccounts (file w)). intros accounts. split.
  - intros E. subst accounts. reflexivity.
  - intros N H. destruct accounts as [|a more]; [elim N; reflexivity|].
    cbv zeta.
    match goal with
    | |- context [andThen (log ?h) _ w] =>
        rewrite (andThen_returns (log h) _ w tt
                   (mkWorld (file w) (stdout w ++ [h]) (stderr w)) eq_refl);
        set (header := h);
        set (w1 := mkWorld (file w) (stdout w ++ [header]) (stderr w))
    end.
    destruct (listCodes_lines e (a :: more) 0%nat w1 H) as (lines & L1 & L2 & L3).
    exists lines.
    rewrite (andThen_returns _ _ _ _ _ L1). unfold log. subst w1.
    cbn [file stdout stderr]. rewrite <- !app_assoc. cbn [app].
    split; [reflexivity|]. split; [exact L2|]. split; [exact L3|].
    intros Hn.
    assert (Hs : 0 <= Commands.now e / 1000) by (apply Z.div_pos; lia).
    pose proof (Z.mod_pos_bound (Commands.now e / 1000) 30 ltac:(lia)) as Hm.
    exists (30 - (Commands.now e / 1000) mod 30).
    split; [lia|]. split; [reflexivity|].
    unfold Totp.getTimeRemaining. cbn [Z.eqb].
    rewrite Z.rem_mod_nonneg by lia. reflexivity.
Qed.

Lemma cmdList_lists_every_account_witness :
  exists lines,
    cmdList
      (mkEnv 59000 "0b6e5f0c" (fun s => s) (fun _ _ => Resolved "123456")
             None (Resolved None) (fun _ => Resolved tt) None)
      (mkWorld
         (Some (mkData 1
            [mkAccount "7f3a" "GitHub" "octocat" "JBSWY3DPEHPK3PXP"
                       (Some (Num 6)) (Some (Num 30)) 1700000000000]))
         [] [])
    = (Returns tt,
       mkWorld
         (Some (mkData 1
            [mkAccount "7f3a" "GitHub" "octocat" "JBSWY3DPEHPK3PXP"
                       (Some (Num 6)) (Some (Num 30)) 1700000000000]))
         ((String (chr 10) "  Codes refresh in 1s" ++ String (chr 10) EmptyString)%string
          :: lines ++ [EmptyString]) [])
    /\ lines = ["  123 456  GitHub (octocat)"].
Proof.
  destruct (proj2 (cmdList_lists_every_account
              (mkEnv 59000 "0b6e5f0c" (fun s => s) (fun _ _ => Resolved "123456")
                     None (Resolved None) (fun _ => Resolved tt) None)
              (mkWorld
                 (Some (mkData 1
                    [mkAccount "7f3a" "GitHub" "octocat" "JBSWY3DPEHPK3PXP"
                               (Some (Num 6)) (Some (Num 30)) 1700000000000]))
                 [] [])))
    as (lines & H1 & H2 & H3 & _).
  - discriminate.
  - intros n a _. exists "123456". reflexivity.
  - exists lines. split; [exact H1|].
    destruct lines as [|l [|l' more]]; try discriminate H2.
    pose proof (H3 0%nat _ "123456" eq_refl eq_refl) as H.
    cbn [nth_error] in H. injection H as H. subst l.
    vm_compute. reflexivity.
Defined.
